(** * Availability and price computation of the Livin Popayan API (api.py)

    A shallow embedding of [check_availability_and_price] and of what it
    relies on: Python's [decimal] arithmetic in the default context, the
    [float] conversion of the reported amounts, [datetime.strptime] with the
    format [%Y-%m-%d], the SQL query over the three relations, and the
    request handler with its data-store calls.

    Part I holds the model, Part II the lemmas and the theorems about it,
    Part III further properties of the handler. *)

From Stdlib Require Import ZArith QArith Qround Qpower Qabs Bool List Sorted String Ascii.
From Stdlib Require Import Lia Lqa Morphisms.
Import ListNotations.

#[local] Open Scope Z_scope.

(* ================================================================== *)
(** * Part I: the model *)
(* ================================================================== *)

(** ** Python's [decimal.Decimal] in the default context

    A finite [Decimal] is a sign, a coefficient and an exponent; its value is
    [(-1)^sign * coefficient * 10^exponent].  The default context has
    [prec = 28] and [rounding = ROUND_HALF_EVEN]; every arithmetic operation
    computes the exact result and then rounds it to the context precision
    ([_fix]), signalling [Inexact] when non-zero digits are discarded.

    Scope of the model: finite values (no NaN, no Infinity), and exponents far
    from the context limits [Emax = 999999], [Emin = -999999], as is the case
    for the rates read from NUMERIC columns, so that the [Overflow] trap and
    the clamping of subnormal results never come into play. *)

Module Dec.

Record Decimal : Type := mkDec {
  dsign : bool;   (* True for a negative number *)
  dint  : N;      (* the coefficient, [_int] *)
  dexp  : Z       (* the exponent, [_exp] *)
}.

Definition coef (d : Decimal) : Z := Z.of_N (dint d).

(** Builds a [Decimal] from a non-negative coefficient held in [Z]. *)
Definition mk (s : bool) (c : Z) (e : Z) : Decimal := mkDec s (Z.to_N c) e.

(** [Decimal(n)] for a Python [int]. *)
Definition of_int (n : Z) : Decimal := mk (n <? 0) (Z.abs n) 0.

(** The signed coefficient. *)
Definition scoef (d : Decimal) : Z :=
  if dsign d then - coef d else coef d.

(** The value of a [Decimal] as a rational number. *)
Definition to_Q (d : Decimal) : Q :=
  (inject_Z (scoef d) * (inject_Z 10) ^ (dexp d))%Q.

(** [len(str(n))] for [n >= 0]: the number of decimal digits, [1] for [0]. *)
Fixpoint ndigits_fuel (fuel : nat) (n : Z) : Z :=
  match fuel with
  | O => 1
  | S f => if n <? 10 then 1 else 1 + ndigits_fuel f (n / 10)
  end.

Definition ndigits (n : Z) : Z :=
  ndigits_fuel (S (Z.to_nat (Z.log2 n))) n.

(** The context precision. *)
Definition prec : Z := 28.

(** ** The arithmetic context's [Inexact] signal

    An operation returns its result together with the [Inexact] flag it
    raises; the flag is sticky over a sequence of operations. *)

Definition Sig (A : Type) : Type := (A * bool)%type.

Definition sret {A} (a : A) : Sig A := (a, false).

Definition sbind {A B} (m : Sig A) (f : A -> Sig B) : Sig B :=
  let '(a, i) := m in
  let '(b, j) := f a in
  (b, i || j).

Definition value {A} (m : Sig A) : A := fst m.
Definition inexact {A} (m : Sig A) : bool := snd m.

(** [_round_half_even]: keep the quotient [q] of the coefficient by [10^k],
    and round up when the discarded part [r] is more than half a unit, or
    exactly half with [q] odd. *)
Definition round_half_even (q r p : Z) : Z :=
  if (p <? 2 * r) || ((2 * r =? p) && Z.odd q) then q + 1 else q.

(** [_round_half_up]: round up when the first discarded digit is [5..9]. *)
Definition round_half_up (q r p : Z) : Z :=
  if p <=? 2 * r then q + 1 else q.

(** [Decimal._fix]: round to [prec] significant digits. *)
Definition fix_ (d : Decimal) : Sig Decimal :=
  let c := coef d in
  if c =? 0 then sret d
  else
    let exp_min := ndigits c + dexp d - prec in
    if dexp d <? exp_min then
      let p := 10 ^ (exp_min - dexp d) in
      let q := c / p in
      let r := c mod p in
      let q' := round_half_even q r p in
      let ans :=
        if prec <? ndigits q' then mk (dsign d) (q' / 10) (exp_min + 1)
        else mk (dsign d) q' exp_min in
      (ans, negb (r =? 0))
    else sret d.

(** [Decimal.__mul__] *)
Definition mul (a b : Decimal) : Sig Decimal :=
  fix_ (mk (xorb (dsign a) (dsign b)) (coef a * coef b) (dexp a + dexp b)).

(** [Decimal.__add__]: the operands are aligned on the smaller exponent and
    added exactly, then the sum is rounded.  A zero sum of two zeros takes the
    smaller of the signs, any other zero sum is positive. *)
Definition add (a b : Decimal) : Sig Decimal :=
  let e := Z.min (dexp a) (dexp b) in
  if (coef a =? 0) && (coef b =? 0) then
    fix_ (mk (dsign a && dsign b) 0 e)
  else
    let s := scoef a * 10 ^ (dexp a - e) + scoef b * 10 ^ (dexp b - e) in
    if s =? 0 then fix_ (mk false 0 e)
    else fix_ (mk (s <? 0) (Z.abs s) e).

(** The loop of [__truediv__] for an exact quotient: trailing zeros are
    removed while the exponent is below the ideal one.  [n] is the distance
    to the ideal exponent. *)
Fixpoint strip_zeros (n : nat) (coeff exp : Z) : Z * Z :=
  match n with
  | O => (coeff, exp)
  | S n' =>
      if coeff mod 10 =? 0 then strip_zeros n' (coeff / 10) (exp + 1)
      else (coeff, exp)
  end.

(** [Decimal.__truediv__] for a non-zero divisor (the handler divides by
    [Decimal('30')] only). *)
Definition div (a b : Decimal) : Sig Decimal :=
  let sign := xorb (dsign a) (dsign b) in
  if coef a =? 0 then fix_ (mk sign 0 (dexp a - dexp b))
  else
    let shift := ndigits (coef b) - ndigits (coef a) + prec + 1 in
    let exp := dexp a - dexp b - shift in
    let '(coeff, remainder) :=
      if 0 <=? shift then Z.div_eucl (coef a * 10 ^ shift) (coef b)
      else Z.div_eucl (coef a) (coef b * 10 ^ (- shift)) in
    if remainder =? 0 then
      let ideal_exp := dexp a - dexp b in
      let '(coeff', exp') := strip_zeros (Z.to_nat (ideal_exp - exp)) coeff exp in
      fix_ (mk sign coeff' exp')
    else
      let coeff' := if coeff mod 5 =? 0 then coeff + 1 else coeff in
      fix_ (mk sign coeff' exp).

(** [Decimal._rescale(exp, ROUND_HALF_UP)] *)
Definition rescale_half_up (d : Decimal) (exp : Z) : Decimal :=
  let c := coef d in
  if c =? 0 then mk (dsign d) 0 exp
  else if exp <=? dexp d then mk (dsign d) (c * 10 ^ (dexp d - exp)) exp
  else
    let p := 10 ^ (exp - dexp d) in
    mk (dsign d) (round_half_up (c / p) (c mod p) p) exp.

(** [d.quantize(Decimal('1'), rounding=ROUND_HALF_UP)]; [None] stands for the
    [InvalidOperation] raised when the result would need more than [prec]
    digits. *)
Definition quantize_1_half_up (d : Decimal) : option Decimal :=
  if coef d =? 0 then Some (value (fix_ (mk (dsign d) 0 0)))
  else
    let self_adjusted := ndigits (coef d) + dexp d - 1 in
    if prec <? self_adjusted - 0 + 1 then None
    else
      let ans := rescale_half_up d 0 in
      if prec <? ndigits (coef ans) then None
      else Some (value (fix_ ans)).

(** [d > 0] *)
Definition gt_zero (d : Decimal) : bool :=
  negb (dsign d) && negb (coef d =? 0).

(** Truth value of a [Decimal]: non-zero. *)
Definition truthy (d : Decimal) : bool := negb (coef d =? 0).

End Dec.

(** ** Python's [float] of a [Decimal]

    [float(d)] is the binary64 number nearest to [d], ties going to the even
    significand.  A finite binary64 is kept as a sign, an integer significand
    [m <= 2^53] and a binary exponent [e >= -1074]; its value is
    [(-1)^neg * m * 2^e]. *)

Module Float.

Inductive pyfloat : Type :=
| Finite (neg : bool) (m : Z) (e : Z)
| Infinity (neg : bool).

(** The fraction [n/d] divided by [2^k], as a fraction. *)
Definition scale2 (n d k : Z) : Z * Z :=
  if 0 <=? k then (n, d * 2 ^ k) else (n * 2 ^ (- k), d).

(** [floor(log2(n/d))] for positive [n] and [d]. *)
Definition floor_log2 (n d : Z) : Z :=
  let g := Z.log2 n - Z.log2 d in
  let '(n', d') := scale2 n d g in
  if d' <=? n' then g else g - 1.

(** The binary64 nearest to the positive fraction [n/d]. *)
Definition round_binary64 (neg : bool) (n d : Z) : pyfloat :=
  let E := Z.max (floor_log2 n d) (-1022) in
  let k := E - 52 in
  let '(n', d') := scale2 n d k in
  let m := Dec.round_half_even (n' / d') (n' mod d') d' in
  if (1023 <? E) || ((E =? 1023) && (2 ^ 53 <=? m)) then Infinity neg
  else Finite neg m k.

Definition py_float (x : Dec.Decimal) : pyfloat :=
  let c := Dec.coef x in
  if c =? 0 then Finite (Dec.dsign x) 0 0
  else if 0 <=? Dec.dexp x
       then round_binary64 (Dec.dsign x) (c * 10 ^ Dec.dexp x) 1
       else round_binary64 (Dec.dsign x) c (10 ^ (- Dec.dexp x)).

(** The value of a finite [float]. *)
Definition to_Q (f : pyfloat) : option Q :=
  match f with
  | Finite neg m e =>
      Some (inject_Z (if neg then - m else m) * (inject_Z 2) ^ e)%Q
  | Infinity _ => None
  end.

(** [f] is finite and its value is the rational [q]. *)
Definition has_value (f : pyfloat) (q : Q) : Prop :=
  match to_Q f with
  | Some v => (v == q)%Q
  | None => False
  end.

End Float.

(** ** [datetime.date] and [datetime.strptime(s, '%Y-%m-%d')]

    The text of a query parameter is a [string] (code points below 256, where
    the only decimal digits are [0..9]). *)

Module Dates.

Record date : Type := mkDate { year : Z; month : Z; day : Z }.

Definition is_leap (y : Z) : bool :=
  (y mod 4 =? 0) && (negb (y mod 100 =? 0) || (y mod 400 =? 0)).

Definition days_in_month (y m : Z) : Z :=
  if m =? 2 then (if is_leap y then 29 else 28)
  else if (m =? 4) || (m =? 6) || (m =? 9) || (m =? 11) then 30
  else 31.

Definition days_before_year (y : Z) : Z :=
  let y1 := y - 1 in
  y1 * 365 + y1 / 4 - y1 / 100 + y1 / 400.

Fixpoint days_before_month_aux (y : Z) (n : nat) : Z :=
  match n with
  | O => 0
  | S n' => days_before_month_aux y n' + days_in_month y (Z.of_nat n)
  end.

(** Number of days of year [y] before the first day of month [m]. *)
Definition days_before_month (y m : Z) : Z :=
  days_before_month_aux y (Z.to_nat (m - 1)).

(** [date.toordinal()]: 0001-01-01 is day 1. *)
Definition toordinal (d : date) : Z :=
  days_before_year (year d) + days_before_month (year d) (month d) + day d.

(** The check made by the [date] constructor. *)
Definition valid_date (y m d : Z) : bool :=
  (1 <=? y) && (y <=? 9999) && (1 <=? m) && (m <=? 12)
  && (1 <=? d) && (d <=? days_in_month y m).

(** [(b - a).days] *)
Definition days_between (a b : date) : Z := toordinal b - toordinal a.

Definition date_ltb (a b : date) : bool := toordinal a <? toordinal b.

(** *** The regular expression of the format

    [%Y] is [\d\d\d\d], [%m] is [1[0-2]|0[1-9]|[1-9]] and [%d] is
    [3[0-1]|[1-2]\d|0[1-9]|[1-9]| [1-9]]; the alternatives are tried in
    order, the match starts at the first character, and text left after the
    match is an error. *)

Definition digit_of (c : ascii) : option Z :=
  let n := Z.of_N (N_of_ascii c) in
  if (48 <=? n) && (n <=? 57) then Some (n - 48) else None.

Definition in_range (lo hi : Z) (c : ascii) : option Z :=
  match digit_of c with
  | Some n => if (lo <=? n) && (n <=? hi) then Some n else None
  | None => None
  end.

(** [%Y]: four digits. *)
Definition match_Y (s : string) : option (Z * string) :=
  match s with
  | String a (String b (String c (String d rest))) =>
      match digit_of a, digit_of b, digit_of c, digit_of d with
      | Some a, Some b, Some c, Some d =>
          Some (a * 1000 + b * 100 + c * 10 + d, rest)
      | _, _, _, _ => None
      end
  | _ => None
  end.

(** A literal character of the format. *)
Definition match_char (c : ascii) (s : string) : option string :=
  match s with
  | String a rest => if Ascii.eqb a c then Some rest else None
  | EmptyString => None
  end.

(** Two characters [a] in [lo1..hi1] and [b] in [lo2..hi2]. *)
Definition match_two (lo1 hi1 lo2 hi2 : Z) (s : string) : option (Z * string) :=
  match s with
  | String a (String b rest) =>
      match in_range lo1 hi1 a, in_range lo2 hi2 b with
      | Some x, Some y => Some (x * 10 + y, rest)
      | _, _ => None
      end
  | _ => None
  end.

(** One character in [lo..hi]. *)
Definition match_one (lo hi : Z) (s : string) : option (Z * string) :=
  match s with
  | String a rest =>
      match in_range lo hi a with
      | Some x => Some (x, rest)
      | None => None
      end
  | EmptyString => None
  end.

(** The alternatives of [%m], in order. *)
Definition alts_m : list (string -> option (Z * string)) :=
  [ match_two 1 1 0 2; match_two 0 0 1 9; match_one 1 9 ].

(** The alternatives of [%d], in order. *)
Definition alts_d : list (string -> option (Z * string)) :=
  [ match_two 3 3 0 1; match_two 1 2 0 9; match_two 0 0 1 9; match_one 1 9;
    fun s => match match_char " " s with
             | Some rest => match_one 1 9 rest
             | None => None
             end ].

(** Ordered choice with backtracking: the first alternative after which the
    rest of the pattern [k] matches. *)
Fixpoint first_match {A B} (alts : list (string -> option (A * string)))
    (k : A -> string -> option B) (s : string) : option B :=
  match alts with
  | [] => None
  | alt :: alts' =>
      match alt s with
      | Some (x, rest) =>
          match k x rest with
          | Some r => Some r
          | None => first_match alts' k s
          end
      | None => first_match alts' k s
      end
  end.

(** The match of the whole pattern: year, month, day and the text left. *)
Definition match_format (s : string) : option (Z * Z * Z * string) :=
  match match_Y s with
  | Some (y, s1) =>
      match match_char "-" s1 with
      | Some s2 =>
          first_match alts_m
            (fun m s3 =>
               match match_char "-" s3 with
               | Some s4 =>
                   first_match alts_d (fun d s5 => Some (y, m, d, s5)) s4
               | None => None
               end) s2
      | None => None
      end
  | None => None
  end.

(** [datetime.strptime(s, '%Y-%m-%d').date()]; [None] stands for the
    [ValueError] raised when the text does not match the format, when text
    remains after the match, or when the date does not exist. *)
Definition strptime (s : string) : option date :=
  match match_format s with
  | Some (y, m, d, EmptyString) =>
      if valid_date y m d then Some (mkDate y m d) else None
  | _ => None
  end.

End Dates.

(** ** The relational data store and the query of the handler

    The three relations are lists of rows (a table may hold duplicates, and
    the order of the rows decides the order of equal keys in the result).
    The rate columns are nullable; the other columns are taken as NOT NULL. *)

Module Sql.

Import Dec Dates.

Record Property : Type := mkProperty {
  p_id : Z;
  p_name : string;
  p_description : string;
  p_num_bedrooms : Z;
  p_min_stay_nights : Z;
  p_pricing_category : string
}.

Record PricingRule : Type := mkRule {
  pr_category : string;
  pr_price_per_night : option Decimal;
  pr_monthly_rate : option Decimal;
  pr_min_nights : Z;
  pr_max_nights : Z
}.

Record Booking : Type := mkBooking {
  b_property_id : Z;
  b_start_date : date;
  b_end_date : date
}.

Record Database : Type := mkDatabase {
  properties : list Property;
  pricing_rules : list PricingRule;
  bookings : list Booking
}.

(** A row of the result: [(id, name, description, price_per_night,
    monthly_rate)]. *)
Record Row : Type := mkRow {
  r_id : Z;
  r_name : string;
  r_description : string;
  r_price_per_night : option Decimal;
  r_monthly_rate : option Decimal
}.

(** *** Three-valued logic: [None] is UNKNOWN (a comparison with NULL). *)

Definition tri : Type := option bool.

Definition sql_and (a b : tri) : tri :=
  match a, b with
  | Some false, _ | _, Some false => Some false
  | Some true, Some true => Some true
  | _, _ => None
  end.

Definition sql_or (a b : tri) : tri :=
  match a, b with
  | Some true, _ | _, Some true => Some true
  | Some false, Some false => Some false
  | _, _ => None
  end.

(** [a <= b] and [a >= b] on nullable integers. *)
Definition sql_le (a b : option Z) : tri :=
  match a, b with
  | Some x, Some y => Some (x <=? y)
  | _, _ => None
  end.

Definition sql_ge (a b : option Z) : tri := sql_le b a.

Definition sql_is_null {A} (a : option A) : tri :=
  Some (match a with None => true | Some _ => false end).

Definition sql_is_not_null {A} (a : option A) : tri :=
  Some (match a with None => false | Some _ => true end).

(** The columns of [pr] in a row of the LEFT JOIN: NULL when the property
    matched no rule. *)
Definition col {A} (pr : option PricingRule) (f : PricingRule -> A) : option A :=
  option_map f pr.

Definition col_opt {A} (pr : option PricingRule) (f : PricingRule -> option A)
  : option A :=
  match pr with Some r => f r | None => None end.

(** The rows that the join makes for one property: one row per rule of its
    category, and one NULL-extended row when there is none. *)
Definition joined (rs : list PricingRule) (p : Property)
  : list (Property * option PricingRule) :=
  match filter (fun r => String.eqb (p_pricing_category p) (pr_category r)) rs with
  | [] => [(p, None)]
  | ms => map (fun r => (p, Some r)) ms
  end.

(** [properties p LEFT JOIN pricing_rules pr ON p.pricing_category =
    pr.category] *)
Definition left_join (ps : list Property) (rs : list PricingRule)
  : list (Property * option PricingRule) :=
  flat_map (joined rs) ps.

(** [SELECT b.property_id FROM bookings b
     WHERE b.start_date < %s AND b.end_date > %s], with the parameters
    [(end_date, start_date)]. *)
Definition overlaps (end_date start_date : date) (b : Booking) : bool :=
  date_ltb (b_start_date b) end_date && date_ltb start_date (b_end_date b).

Definition booked_ids (bs : list Booking) (end_date start_date : date) : list Z :=
  map b_property_id (filter (overlaps end_date start_date) bs).

(** The rule condition of the WHERE clause, on the columns of [pr]:
    [(pr.min_nights <= %s AND pr.max_nights >= %s AND pr.monthly_rate IS NULL)
     OR (%s >= 30 AND pr.monthly_rate IS NOT NULL AND pr.min_nights >= 30)]. *)
Definition rule_condition (pr : option PricingRule) (n2 n3 n4 : Z) : tri :=
  sql_or
    (sql_and (sql_and (sql_le (col pr pr_min_nights) (Some n2))
                      (sql_ge (col pr pr_max_nights) (Some n3)))
             (sql_is_null (col_opt pr pr_monthly_rate)))
    (sql_and (sql_and (Some (30 <=? n4))
                      (sql_is_not_null (col_opt pr pr_monthly_rate)))
             (sql_ge (col pr pr_min_nights) (Some 30))).

(** The WHERE clause on a joined row, with the seven parameters of the
    query in their order. *)
Definition where_clause (db : Database) (num_bedrooms n1 n2 n3 n4 : Z)
    (end_date start_date : date) (row : Property * option PricingRule) : tri :=
  let '(p, pr) := row in
  sql_and
    (sql_and
       (sql_and (Some (p_num_bedrooms p =? num_bedrooms))
                (Some (p_min_stay_nights p <=? n1)))
       (rule_condition pr n2 n3 n4))
    (Some (negb (existsb (Z.eqb (p_id p))
                   (booked_ids (bookings db) end_date start_date)))).

(** A joined row that is not NULL-extended. *)
Definition matched (x : Property * option PricingRule) : bool :=
  match snd x with Some _ => true | None => false end.

(** A row passes the WHERE clause when the condition is TRUE. *)
Definition is_true (t : tri) : bool :=
  match t with Some true => true | _ => false end.

(** The sort key of a joined row. *)
Definition key (x : Property * option PricingRule) : Z := p_id (fst x).

Definition sorted_by_id (l : list (Property * option PricingRule)) : Prop :=
  StronglySorted (fun x y => key x <= key y) l.

(** [ORDER BY p.id]: a stable insertion sort (SQL leaves the order of rows
    with the same [p.id] open; the model keeps the order of the join). *)
Fixpoint insert_by_id (x : Property * option PricingRule)
    (l : list (Property * option PricingRule)) :=
  match l with
  | [] => [x]
  | y :: l' =>
      if key x <=? key y then x :: y :: l'
      else y :: insert_by_id x l'
  end.

Fixpoint order_by_id (l : list (Property * option PricingRule)) :=
  match l with
  | [] => []
  | x :: l' => insert_by_id x (order_by_id l')
  end.

(** The SELECT list. *)
Definition select (row : Property * option PricingRule) : Row :=
  let '(p, pr) := row in
  mkRow (p_id p) (p_name p) (p_description p)
        (col_opt pr pr_price_per_night) (col_opt pr pr_monthly_rate).

(** The query of the handler. *)
Definition sql_query (db : Database) (num_bedrooms n1 n2 n3 n4 : Z)
    (end_date start_date : date) : list Row :=
  map select
    (order_by_id
       (filter
          (fun row =>
             is_true (where_clause db num_bedrooms n1 n2 n3 n4
                        end_date start_date row))
          (left_join (properties db) (pricing_rules db)))).

End Sql.

(** ** The request handler *)

Module Api.

Import Dec Float Dates Sql.

(** The arguments as the handler reads them: [request.args.get(name)] is
    [None] for an absent parameter, and [request.args.get('num_bedrooms',
    type=int)] is [None] when the parameter is absent or when [int] rejects
    its text. *)
Record Request : Type := mkRequest {
  arg_start_date : option string;
  arg_end_date : option string;
  arg_num_bedrooms : option Z
}.

(** An element of [results]. *)
Record Entry : Type := mkEntry {
  property_id : Z;
  name : string;
  description : string;
  monthly_rate : option pyfloat;
  total_price : pyfloat
}.

(** The calls made to the data store. *)
Inductive DbCall : Type :=
| Connect | Cursor | Execute | Fetchall | CursorClose | ConnClose.

Definition DbCall_eqb (a b : DbCall) : bool :=
  match a, b with
  | Connect, Connect | Cursor, Cursor | Execute, Execute
  | Fetchall, Fetchall | CursorClose, CursorClose | ConnClose, ConnClose => true
  | _, _ => false
  end.

(** The exceptions that reach the [except Exception] clause. *)
Inductive Exn : Type :=
| ValueError                      (* strptime *)
| InvalidOperation                (* Decimal.quantize *)
| DatabaseError (call : DbCall).  (* psycopg2 *)

(** The responses: [jsonify(results)]; [jsonify()] without an argument
    (line 53), whose body is the JSON value [null] and not a list; the 400 of
    the parameter check; and the 500 of the [except] clause with [str(e)] as
    its details. *)
Inductive Response : Type :=
| Ok200 (results : list Entry)
| Ok200Null
| Error400
| Error500 (details : Exn).

(** What the handler runs against: the content of the data store and the
    call, if any, at which the driver raises. *)
Record Env : Type := mkEnv {
  database : Database;
  raises_at : option DbCall
}.

(** What the handler changes: the log of the calls made to the data store
    (oldest first), the number of connections held open, and the result set
    of the cursor. *)
Record State : Type := mkState {
  calls : list DbCall;
  open_connections : nat;
  result_set : list Row
}.

Definition initial_state : State := mkState [] 0 [].

(** Computations that read the environment, change the state and may raise. *)
Definition M (A : Type) : Type := Env -> State -> (Exn + A) * State.

Definition ret {A} (a : A) : M A := fun _ st => (inr a, st).

Definition raise {A} (e : Exn) : M A := fun _ st => (inl e, st).

Definition bind {A B} (m : M A) (f : A -> M B) : M B :=
  fun env st =>
    match m env st with
    | (inr a, st') => f a env st'
    | (inl e, st') => (inl e, st')
    end.

(** [try: m except Exception as e: h e] *)
Definition try_except {A} (m : M A) (h : Exn -> M A) : M A :=
  fun env st =>
    match m env st with
    | (inr a, st') => (inr a, st')
    | (inl e, st') => h e env st'
    end.

Notation "x <- m ;; k" := (bind m (fun x => k))
  (at level 61, m at next level, right associativity).
Notation "m ;;; k" := (bind m (fun _ => k))
  (at level 61, right associativity).

(** A call to the driver: it is logged, raises when the environment says so,
    and otherwise has its effect on the state. *)
Definition db_call (c : DbCall) (effect : Env -> State -> State) : M unit :=
  fun env st =>
    let st' := mkState (calls st ++ [c]) (open_connections st) (result_set st) in
    match raises_at env with
    | Some c' => if DbCall_eqb c c' then (inl (DatabaseError c), st')
                 else (inr tt, effect env st')
    | None => (inr tt, effect env st')
    end.

(** [psycopg2.connect(...)] *)
Definition get_db_connection : M unit :=
  db_call Connect
    (fun _ st => mkState (calls st) (S (open_connections st)) (result_set st)).

(** [conn.cursor()] *)
Definition conn_cursor : M unit := db_call Cursor (fun _ st => st).

(** The conversion of a date parameter by the data store: the text has been
    accepted by [strptime] and the data store reads the same date in it. *)
Definition date_in (s : string) : option date := strptime s.

(** [cur.execute(sql_query, params)] *)
Definition cur_execute (num_bedrooms n1 n2 n3 n4 : Z)
    (end_date_str start_date_str : string) : M unit :=
  db_call Execute (fun _ st => st) ;;;
  match date_in end_date_str, date_in start_date_str with
  | Some e, Some s =>
      fun env st =>
        (inr tt,
         mkState (calls st) (open_connections st)
           (sql_query (database env) num_bedrooms n1 n2 n3 n4 e s))
  | _, _ => raise (DatabaseError Execute)
  end.

(** [cur.fetchall()] *)
Definition cur_fetchall : M (list Row) :=
  db_call Fetchall (fun _ st => st) ;;;
  (fun _ st => (inr (result_set st), st)).

(** [cur.close()] *)
Definition cur_close : M unit := db_call CursorClose (fun _ st => st).

(** [conn.close()] *)
Definition conn_close : M unit :=
  db_call ConnClose
    (fun _ st => mkState (calls st) (Nat.pred (open_connections st)) (result_set st)).

(** *** The price of a stay *)

Notation "x <-- m ;; k" := (sbind m (fun x => k))
  (at level 61, m at next level, right associativity).

(** [n * d] for an [int] and a [Decimal] is [d.__rmul__(n)]. *)
Definition int_mul (n : Z) (d : Decimal) : Sig Decimal := mul d (of_int n).

(** The total before rounding (lines 109 to 129), with the [Inexact] signal
    of its operations. *)
Definition compute_total (stay_duration_nights : Z)
    (price_per_night monthly_rate : option Decimal) : Sig Decimal :=
  let total_price := of_int 0 in
  match (30 <=? stay_duration_nights), monthly_rate, price_per_night with
  | true, Some monthly_rate, _ =>
      let monthly_rate_dec := monthly_rate in
      let num_months := stay_duration_nights / 30 in
      let remaining_days := stay_duration_nights mod 30 in
      total_price <-- int_mul num_months monthly_rate_dec ;;
      if 0 <? remaining_days then
        daily_rate <-- div monthly_rate_dec (of_int 30) ;;
        extra <-- int_mul remaining_days daily_rate ;;
        add total_price extra
      else sret total_price
  | _, _, Some price_per_night =>
      int_mul stay_duration_nights price_per_night
  | _, _, None => sret total_price
  end.

(** The total computed for a row, before rounding. *)
Definition row_total (stay_duration_nights : Z) (prop : Row) : Decimal :=
  value (compute_total stay_duration_nights
           (r_price_per_night prop) (r_monthly_rate prop)).

(** The body of the loop for one row: the entry appended to [results], if
    any.  The rates of a row are NULL or finite decimals (the scope of [Dec]):
    on them [total_price > 0] is a plain comparison, and the only exception
    is the one of [quantize].  A NaN rate, which a NUMERIC column can hold,
    would make the comparison of line 131 itself raise; such rows are outside
    the model. *)
Definition price_row (stay_duration_nights : Z) (prop : Row)
  : Exn + option Entry :=
  let total_price := row_total stay_duration_nights prop in
  if gt_zero total_price then
    match quantize_1_half_up total_price with
    | Some final_price =>
        inr (Some (mkEntry (r_id prop) (r_name prop) (r_description prop)
                     (match r_monthly_rate prop with
                      | Some m => if truthy m then Some (py_float m) else None
                      | None => None
                      end)
                     (py_float final_price)))
    | None => inl InvalidOperation
    end
  else inr None.

(** The entries that a row contributes to [results]: one when it is priced,
    none otherwise. *)
Definition entries_of_row (stay_duration_nights : Z) (prop : Row) : list Entry :=
  match price_row stay_duration_nights prop with
  | inr (Some entry) => [entry]
  | _ => []
  end.

(** The loop over [available_properties], appending to [results]. *)
Fixpoint price_rows (stay_duration_nights : Z) (available_properties : list Row)
    (results : list Entry) : Exn + list Entry :=
  match available_properties with
  | [] => inr results
  | prop :: rest =>
      match price_row stay_duration_nights prop with
      | inl e => inl e
      | inr (Some entry) => price_rows stay_duration_nights rest (results ++ [entry])
      | inr None => price_rows stay_duration_nights rest results
      end
  end.

Definition lift {A} (r : Exn + A) : M A := fun _ st => (r, st).

Definition parse_date (s : string) : M date :=
  match strptime s with
  | Some d => ret d
  | None => raise ValueError
  end.

(** [not s] for an optional text: absent or empty. *)
Definition falsy_str (s : option string) : bool :=
  match s with
  | None | Some EmptyString => true
  | Some _ => false
  end.

(** [not n] for an optional integer: absent or zero. *)
Definition falsy_int (n : option Z) : bool :=
  match n with
  | None => true
  | Some n => n =? 0
  end.

(** The handler: a falsy argument is answered 400 (lines 42 and 43); inside
    the [try], the dates are parsed and a stay shorter than four nights is
    answered at once with [jsonify()] (lines 52 and 53: the call has no
    argument, although its comment reads "devolvemos una lista vacia");
    otherwise the connection is opened, the query is executed,
    the rows are fetched, the cursor and the connection are closed, and the
    rows are priced; any exception is answered 500 (lines 149 to 151). *)
Definition check_availability_and_price (request : Request) : M Response :=
  let start_date_str := arg_start_date request in
  let end_date_str := arg_end_date request in
  let num_bedrooms := arg_num_bedrooms request in
  match start_date_str, end_date_str, num_bedrooms with
  | Some start_date_str, Some end_date_str, Some num_bedrooms =>
      if falsy_str (Some start_date_str) || falsy_str (Some end_date_str)
         || falsy_int (Some num_bedrooms)
      then ret Error400
      else
        try_except
          (start_date <- parse_date start_date_str ;;
           end_date <- parse_date end_date_str ;;
           let stay_duration_nights := days_between start_date end_date in
           if stay_duration_nights <? 4 then ret Ok200Null
           else
             get_db_connection ;;;
             conn_cursor ;;;
             cur_execute num_bedrooms stay_duration_nights
               stay_duration_nights stay_duration_nights
               stay_duration_nights end_date_str start_date_str ;;;
             available_properties <- cur_fetchall ;;
             cur_close ;;;
             conn_close ;;;
             results <- lift (price_rows stay_duration_nights
                                available_properties []) ;;
             ret (Ok200 results))
          (fun e => ret (Error500 e))
  | _, _, _ => ret Error400
  end.

(** The rows that the query returns for a stay. *)
Definition rows_of (env : Env) (num_bedrooms : Z) (start_date end_date : date)
  : list Row :=
  let n := days_between start_date end_date in
  sql_query (database env) num_bedrooms n n n n end_date start_date.

(** The calls of a complete run, in the order of the source. *)
Definition all_calls : list DbCall :=
  [Connect; Cursor; Execute; Fetchall; CursorClose; ConnClose].

(** A run of the handler from the initial state. *)
Definition run (env : Env) (request : Request) : (Exn + Response) * State :=
  check_availability_and_price request env initial_state.

End Api.

(** ** The statements of the specification

    Definitions that follow the words of the specification, to be compared
    with the ones taken from the code. *)

Module Spec.

Import Dec Sql.

(** Section 4.3: the total of the price calculator in exact arithmetic. *)
Definition total (nights : Z) (price_per_night monthly_rate : option Decimal) : Q :=
  match (30 <=? nights), monthly_rate, price_per_night with
  | true, Some m, _ =>
      (inject_Z (nights / 30) * to_Q m
       + inject_Z (nights mod 30) * (to_Q m / inject_Z 30))%Q
  | _, _, Some p => (inject_Z nights * to_Q p)%Q
  | _, _, None => 0%Q
  end.

(** [a] is [b] up to a relative error of [eps]. *)
Definition close (eps a b : Q) : Prop := (Qabs (a - b) <= eps * Qabs b)%Q.

(** Half a unit in the 28th significant digit: the largest relative error of
    a rounding to [prec] digits. *)
Definition unit_roundoff : Q := 1 # 2000000000000000000000000000.

(** The bound on the relative error of the total: [2 * 10^-27]. *)
Definition total_roundoff : Q := 1 # 500000000000000000000000000.

(** The rate that the decision tree applies to a stay, if any. *)
Definition applicable_rate (nights : Z)
    (price_per_night monthly_rate : option Decimal) : option Decimal :=
  match (30 <=? nights), monthly_rate, price_per_night with
  | true, Some m, _ => Some m
  | _, _, Some p => Some p
  | _, _, None => None
  end.

(** Section 4.2 read with its outer join: a property that matches no rule row
    is still a candidate, with no rates; a property that matches rule rows
    gives one candidate per row that satisfies the rule condition. *)
Definition candidates (db : Database) (num_bedrooms nights : Z)
    (end_date start_date : Dates.date) : list Row :=
  map select
    (order_by_id
       (filter
          (fun row =>
             (p_num_bedrooms (fst row) =? num_bedrooms)
             && (p_min_stay_nights (fst row) <=? nights)
             && match snd row with
                | None => true
                | Some r => is_true (rule_condition (Some r) nights nights nights)
                end
             && negb (existsb (Z.eqb (p_id (fst row)))
                        (booked_ids (bookings db) end_date start_date)))
          (left_join (properties db) (pricing_rules db)))).

End Spec.

(** ** Sample data *)

Module Examples.

Import Dec Dates Sql Api.

#[local] Open Scope string_scope.

(** A row priced 0.5 a night. *)
Definition row_half : Row := mkRow 1 "A" "a" (Some (mk false 5 (-1))) None.

(** A row priced 1801439850948199 a night. *)
Definition row_huge : Row :=
  mkRow 1 "A" "a" (Some (of_int 1801439850948199)) None.

(** A data store with three one-bedroom apartments: apartment 1 has a nightly
    rule and a monthly rule, apartment 2 a nightly rule of 0.1, a rule without
    rates and a booking from 2025-10-10 to 2025-10-20, apartment 3 no rule at
    all. *)
Definition db1 : Database :=
  mkDatabase
    [ mkProperty 2 "B" "two" 1 4 "cat2";
      mkProperty 1 "A" "one" 1 4 "cat1";
      mkProperty 3 "C" "three" 1 4 "cat3" ]
    [ mkRule "cat1" (Some (of_int 80000)) None 4 60;
      mkRule "cat1" None (Some (of_int 900000)) 30 365;
      mkRule "cat2" (Some (mk false 1 (-1))) None 1 100;
      mkRule "cat2" None None 1 100 ]
    [ mkBooking 2 (mkDate 2025 10 10) (mkDate 2025 10 20) ].

(** The data store answers every call. *)
Definition env1 : Env := mkEnv db1 None.

(** The driver raises when the query is executed. *)
Definition env_execute_raises : Env := mkEnv db1 (Some Execute).

(** One bedroom from 2025-10-20, for ten, four and forty-one nights. *)
Definition request_ten_nights : Request :=
  mkRequest (Some "2025-10-20") (Some "2025-10-30") (Some 1).

Definition request_four_nights : Request :=
  mkRequest (Some "2025-10-20") (Some "2025-10-24") (Some 1).

Definition request_41_nights : Request :=
  mkRequest (Some "2025-10-20") (Some "2025-11-30") (Some 1).

(** The entry of apartment 1 for ten nights: 800000. *)
Definition entry_ten_nights : Entry :=
  mkEntry 1 "A" "one" None (Float.Finite false 6871947673600000 (-33)).

(** A data store whose only apartment costs [10^28] a night. *)
Definition db_huge : Database :=
  mkDatabase
    [ mkProperty 1 "A" "one" 1 4 "cat1" ]
    [ mkRule "cat1" (Some (mk false 1 28)) None 1 100 ]
    [].

Definition env_huge : Env := mkEnv db_huge None.

(** The data store does not answer the connection. *)
Definition env_connect_raises : Env := mkEnv db1 (Some Connect).

(** The row of the nightly rule of apartment 1, and its monthly row. *)
Definition row_nightly : Row := mkRow 1 "A" "one" (Some (of_int 80000)) None.

Definition row_monthly : Row := mkRow 1 "A" "one" None (Some (of_int 900000)).

End Examples.

(* ================================================================== *)
(** * Part II: lemmas and theorems *)
(* ================================================================== *)

(** ** Powers of ten and digit counts *)

Section Digits.

Import Dec.

Lemma pow10_pos (k : Z) : 0 <= k -> 0 < 10 ^ k.
Proof. intros; apply Z.pow_pos_nonneg; lia. Qed.

Lemma ndigits_fuel_spec (f : nat) : forall n,
  0 < n -> n < 2 ^ Z.of_nat f ->
  1 <= ndigits_fuel f n /\ 10 ^ (ndigits_fuel f n - 1) <= n < 10 ^ ndigits_fuel f n.
Proof.
  induction f as [|f IH]; intros n Hpos Hlt.
  - simpl in Hlt. lia.
  - cbn [ndigits_fuel]. destruct (n <? 10) eqn:E.
    + apply Z.ltb_lt in E. simpl. lia.
    + apply Z.ltb_ge in E.
      assert (H10 : 0 < n / 10) by (apply Z.div_str_pos; lia).
      assert (Hf : n / 10 < 2 ^ Z.of_nat f).
      { rewrite Nat2Z.inj_succ, Z.pow_succ_r in Hlt by lia.
        apply Z.div_lt_upper_bound; lia. }
      destruct (IH _ H10 Hf) as (H1 & H2 & H3).
      set (r := ndigits_fuel f (n / 10)) in *.
      replace (1 + r - 1) with (Z.succ (r - 1)) by lia.
      replace (1 + r) with (Z.succ r) by lia.
      rewrite !Z.pow_succ_r by lia.
      pose proof (Z.div_mod n 10 ltac:(lia)).
      pose proof (Z.mod_pos_bound n 10 ltac:(lia)).
      repeat split; lia.
Qed.

Lemma ndigits_spec (n : Z) :
  0 < n -> 1 <= ndigits n /\ 10 ^ (ndigits n - 1) <= n < 10 ^ ndigits n.
Proof.
  intros Hpos. unfold ndigits. apply ndigits_fuel_spec; [assumption|].
  rewrite Nat2Z.inj_succ, Z2Nat.id by apply Z.log2_nonneg.
  apply Z.log2_spec; assumption.
Qed.

Lemma ndigits_zero : ndigits 0 = 1.
Proof. reflexivity. Qed.

(** A number below [10^k] has at most [k] digits. *)
Lemma ndigits_le (n k : Z) : 0 <= n -> 1 <= k -> n < 10 ^ k -> ndigits n <= k.
Proof.
  intros Hn Hk Hlt.
  destruct (Z.eq_dec n 0) as [->|Hn0]; [rewrite ndigits_zero; lia|].
  destruct (ndigits_spec n ltac:(lia)) as (H1 & H2 & _).
  destruct (Z_le_gt_dec (ndigits n) k) as [|Hgt]; [assumption|exfalso].
  assert (10 ^ k <= 10 ^ (ndigits n - 1)) by (apply Z.pow_le_mono_r; lia).
  lia.
Qed.

(** A number with at most [k] digits is below [10^k]. *)
Lemma ndigits_bound (n k : Z) : 0 <= n -> ndigits n <= k -> n < 10 ^ k.
Proof.
  intros Hn Hk.
  destruct (Z.eq_dec n 0) as [->|Hn0].
  - rewrite ndigits_zero in Hk. apply pow10_pos; lia.
  - destruct (ndigits_spec n ltac:(lia)) as (H1 & _ & H3).
    assert (10 ^ ndigits n <= 10 ^ k) by (apply Z.pow_le_mono_r; lia).
    lia.
Qed.

End Digits.

(** ** Values of decimals *)

Section DecimalValues.

Import Dec.

#[local] Open Scope Q_scope.

Lemma ten_neq_0 : ~ inject_Z 10 == 0.
Proof. discriminate. Qed.

(** Moving a power of ten between the coefficient and the exponent. *)
Lemma Qpow10_shift (c k e : Z) :
  (0 <= k)%Z ->
  inject_Z (c * 10 ^ k) * inject_Z 10 ^ e == inject_Z c * inject_Z 10 ^ (e + k).
Proof.
  intros Hk.
  rewrite inject_Z_mult, Zpower_Qpower by assumption.
  rewrite Qpower_plus by apply ten_neq_0. ring.
Qed.

Lemma coef_nonneg (d : Decimal) : (0 <= coef d)%Z.
Proof. unfold coef. lia. Qed.

Lemma coef_mk (s : bool) (c e : Z) : (0 <= c)%Z -> coef (mk s c e) = c.
Proof. intros H. unfold coef, mk. simpl. lia. Qed.

Lemma scoef_mk (s : bool) (c e : Z) :
  (0 <= c)%Z -> scoef (mk s c e) = if s then (- c)%Z else c.
Proof. intros H. unfold scoef. rewrite coef_mk by assumption. reflexivity. Qed.

Lemma to_Q_mk (s : bool) (c e : Z) :
  (0 <= c)%Z ->
  to_Q (mk s c e) == inject_Z (if s then - c else c) * inject_Z 10 ^ e.
Proof. intros H. unfold to_Q. rewrite scoef_mk by assumption. reflexivity. Qed.

Lemma to_Q_of_int (n : Z) : to_Q (of_int n) == inject_Z n.
Proof.
  unfold of_int. rewrite to_Q_mk by lia. simpl Qpower.
  destruct (n <? 0)%Z eqn:E.
  - apply Z.ltb_lt in E. rewrite Z.abs_neq by lia.
    rewrite Z.opp_involutive. ring.
  - apply Z.ltb_ge in E. rewrite Z.abs_eq by lia. ring.
Qed.

(** The signed value of a coefficient, with the sign as a factor. *)
Lemma signed_inject (s : bool) (c : Z) :
  inject_Z (if s then - c else c) == (if s then - (1) else 1) * inject_Z c.
Proof. destruct s; [rewrite inject_Z_opp|]; ring. Qed.

Lemma to_Q_shift (s : bool) (c k e : Z) :
  (0 <= c)%Z -> (0 <= k)%Z ->
  to_Q (mk s (c * 10 ^ k) e) == to_Q (mk s c (e + k)).
Proof.
  intros Hc Hk.
  assert (0 < 10 ^ k)%Z by (apply pow10_pos; assumption).
  rewrite !to_Q_mk by nia.
  rewrite !signed_inject, <- !Qmult_assoc, Qpow10_shift by assumption.
  reflexivity.
Qed.

Lemma sbind_inexact {A B} (m : Sig A) (f : A -> Sig B) :
  inexact (sbind m f) = false ->
  inexact m = false /\ inexact (f (value m)) = false.
Proof.
  unfold sbind, inexact, value. destruct m as [a i]. simpl.
  destruct (f a) as [b j]. simpl. intros H.
  apply orb_false_iff in H. exact H.
Qed.

Lemma sbind_value {A B} (m : Sig A) (f : A -> Sig B) :
  value (sbind m f) = value (f (value m)).
Proof.
  unfold sbind, value. destruct m as [a i]. simpl.
  destruct (f a) as [b j]. reflexivity.
Qed.

Lemma round_half_even_exact (q p : Z) : (0 < p)%Z -> round_half_even q 0 p = q.
Proof.
  intros Hp. unfold round_half_even.
  replace (p <? 2 * 0)%Z with false by (symmetry; apply Z.ltb_ge; lia).
  replace (2 * 0 =? p)%Z with false by (symmetry; apply Z.eqb_neq; lia).
  reflexivity.
Qed.

Lemma round_half_even_cases (q r p : Z) :
  round_half_even q r p = q \/ round_half_even q r p = (q + 1)%Z.
Proof.
  unfold round_half_even.
  destruct ((p <? 2 * r)%Z || ((2 * r =? p)%Z && Z.odd q)); auto.
Qed.

(** [_fix] changes nothing in a number that has at most [prec] digits. *)
Lemma fix_small (d : Decimal) : (ndigits (coef d) <= prec)%Z -> fix_ d = sret d.
Proof.
  intros H. unfold fix_.
  destruct (coef d =? 0)%Z; [reflexivity|].
  replace (dexp d <? ndigits (coef d) + dexp d - prec)%Z with false
    by (symmetry; apply Z.ltb_ge; lia).
  reflexivity.
Qed.

(** Without the [Inexact] signal, [_fix] keeps the value. *)
Lemma fix_exact (d : Decimal) :
  inexact (fix_ d) = false -> to_Q (value (fix_ d)) == to_Q d.
Proof.
  unfold fix_.
  destruct (coef d =? 0)%Z eqn:E0; [reflexivity|].
  apply Z.eqb_neq in E0. pose proof (coef_nonneg d) as Hc.
  set (exp_min := (ndigits (coef d) + dexp d - prec)%Z).
  destruct (dexp d <? exp_min)%Z eqn:E1; [|reflexivity].
  apply Z.ltb_lt in E1.
  set (k := (exp_min - dexp d)%Z).
  unfold inexact, value; simpl fst; simpl snd. intros Hr.
  apply negb_false_iff, Z.eqb_eq in Hr.
  assert (Hp : (0 < 10 ^ k)%Z) by (apply pow10_pos; subst k; lia).
  rewrite Hr, round_half_even_exact by assumption.
  assert (Hc' : (coef d = coef d / 10 ^ k * 10 ^ k)%Z).
  { pose proof (Z.div_mod (coef d) (10 ^ k) ltac:(lia)). lia. }
  assert (Hq : (0 <= coef d / 10 ^ k)%Z) by (apply Z.div_pos; lia).
  assert (Hlt : (coef d / 10 ^ k < 10 ^ prec)%Z).
  { destruct (ndigits_spec (coef d) ltac:(lia)) as (_ & _ & H3).
    replace (ndigits (coef d)) with (prec + k)%Z in H3 by (subst k exp_min; lia).
    rewrite Z.pow_add_r in H3 by (unfold prec; lia). nia. }
  replace (prec <? ndigits (coef d / 10 ^ k))%Z with false.
  2:{ symmetry; apply Z.ltb_ge. apply ndigits_le; unfold prec in *; lia. }
  transitivity (to_Q (mk (dsign d) (coef d / 10 ^ k * 10 ^ k) (dexp d))).
  - rewrite to_Q_shift by lia.
    replace (dexp d + k)%Z with exp_min by (subst k; lia). reflexivity.
  - rewrite <- Hc'. unfold to_Q. rewrite scoef_mk by assumption. reflexivity.
Qed.

End DecimalValues.

(** ** The results before rounding *)

Section Unrounded.

Import Dec.

#[local] Open Scope Q_scope.

Lemma Qpow10_neq_0 (e : Z) : ~ inject_Z 10 ^ e == 0.
Proof. apply Qpower_not_0, ten_neq_0. Qed.

Lemma inject_Z_neq_0 (z : Z) : z <> 0%Z -> ~ inject_Z z == 0.
Proof.
  intros H E. apply H. unfold Qeq in E. simpl in E. lia.
Qed.

Lemma sign_factor_neq_0 (s : bool) : ~ (if s then - (1) else 1) == 0.
Proof. destruct s; discriminate. Qed.

Lemma to_Q_factors (d : Decimal) :
  to_Q d == (if dsign d then - (1) else 1) * inject_Z (coef d) * inject_Z 10 ^ dexp d.
Proof.
  unfold to_Q, scoef. rewrite signed_inject. reflexivity.
Qed.

(** The product is the rounding of a decimal whose value is the exact
    product. *)
Lemma mul_unrounded (a b : Decimal) :
  to_Q (mk (xorb (dsign a) (dsign b)) (coef a * coef b) (dexp a + dexp b))
  == to_Q a * to_Q b.
Proof.
  pose proof (coef_nonneg a). pose proof (coef_nonneg b).
  rewrite to_Q_mk by nia. unfold to_Q, scoef.
  rewrite Qpower_plus by apply ten_neq_0.
  destruct (dsign a), (dsign b); simpl xorb; cbv iota;
    rewrite ?inject_Z_opp, ?inject_Z_mult, ?inject_Z_opp; ring.
Qed.

(** The value of an operand aligned on a smaller exponent. *)
Lemma aligned_value (d : Decimal) (e : Z) :
  (e <= dexp d)%Z ->
  inject_Z (scoef d * 10 ^ (dexp d - e)) * inject_Z 10 ^ e == to_Q d.
Proof.
  intros H. rewrite Qpow10_shift by lia.
  replace (e + (dexp d - e))%Z with (dexp d) by lia. reflexivity.
Qed.

(** The sum is the rounding of a decimal whose value is the exact sum. *)
Lemma add_unrounded (a b : Decimal) :
  exists d, add a b = fix_ d /\ to_Q d == to_Q a + to_Q b.
Proof.
  unfold add.
  set (e := Z.min (dexp a) (dexp b)).
  set (s := (scoef a * 10 ^ (dexp a - e) + scoef b * 10 ^ (dexp b - e))%Z).
  assert (Hs : inject_Z s * inject_Z 10 ^ e == to_Q a + to_Q b).
  { subst s. rewrite inject_Z_plus, Qmult_plus_distr_l.
    rewrite !aligned_value by (subst e; lia). reflexivity. }
  destruct ((coef a =? 0)%Z && (coef b =? 0)%Z) eqn:E0.
  - apply andb_true_iff in E0. destruct E0 as [Ea Eb].
    apply Z.eqb_eq in Ea, Eb. eexists; split; [reflexivity|].
    rewrite to_Q_mk by lia. unfold to_Q, scoef. rewrite Ea, Eb.
    destruct (dsign a), (dsign b); simpl; ring.
  - destruct (s =? 0)%Z eqn:Es.
    + apply Z.eqb_eq in Es. eexists; split; [reflexivity|].
      rewrite to_Q_mk by lia. rewrite <- Hs, Es. ring.
    + apply Z.eqb_neq in Es. eexists; split; [reflexivity|].
      rewrite to_Q_mk by lia. rewrite <- Hs.
      destruct (s <? 0)%Z eqn:El.
      * apply Z.ltb_lt in El. rewrite Z.abs_neq by lia.
        rewrite Z.opp_involutive. reflexivity.
      * apply Z.ltb_ge in El. rewrite Z.abs_eq by lia. reflexivity.
Qed.

(** The loop that removes trailing zeros keeps the value, and stops at a
    non-negative coefficient. *)
Lemma strip_zeros_spec (n : nat) : forall coeff exp coeff' exp',
  (0 <= coeff)%Z ->
  strip_zeros n coeff exp = (coeff', exp') ->
  (0 <= coeff')%Z /\ (exp <= exp')%Z /\ (coeff = coeff' * 10 ^ (exp' - exp))%Z.
Proof.
  induction n as [|n IH]; intros coeff exp coeff' exp' Hc Hs; simpl in Hs.
  - inversion Hs; subst. rewrite Z.sub_diag. simpl. lia.
  - destruct (coeff mod 10 =? 0)%Z eqn:E.
    + apply Z.eqb_eq in E.
      assert (Hd : (0 <= coeff / 10)%Z) by (apply Z.div_pos; lia).
      destruct (IH _ _ _ _ Hd Hs) as (H1 & H2 & H3).
      repeat split; [assumption|lia|].
      replace (exp' - exp)%Z with (Z.succ (exp' - (exp + 1))) by lia.
      rewrite Z.pow_succ_r by lia.
      pose proof (Z.div_mod coeff 10 ltac:(lia)). lia.
    + inversion Hs; subst. rewrite Z.sub_diag. simpl. lia.
Qed.

(** The quotient is the rounding either of a decimal whose value is the exact
    quotient, or of the integer part [coeff] of a scaled quotient [X/Y] that
    is no integer, made odd in its last digit when that digit is 0 or 5. *)
Lemma div_cases (a b : Decimal) :
  coef b <> 0%Z ->
  (exists d, div a b = fix_ d /\ to_Q d == to_Q a / to_Q b)
  \/ (exists coeff X Y exp : Z,
        div a b
        = fix_ (mk (xorb (dsign a) (dsign b))
                  (if (coeff mod 5 =? 0)%Z then coeff + 1 else coeff) exp)
        /\ (0 < Y)%Z /\ (Y * coeff < X < Y * (coeff + 1))%Z
        /\ (10 ^ prec <= coeff)%Z
        /\ to_Q a / to_Q b
           == (if xorb (dsign a) (dsign b) then - (1) else 1)
              * (inject_Z X / inject_Z Y) * inject_Z 10 ^ exp).
Proof.
  intros Hb. pose proof (coef_nonneg a) as Ha0. pose proof (coef_nonneg b) as Hb0.
  assert (Hbq : ~ inject_Z (coef b) == 0) by (apply inject_Z_neq_0; assumption).
  unfold div.
  destruct (coef a =? 0)%Z eqn:Ea.
  - apply Z.eqb_eq in Ea. left. eexists; split; [reflexivity|].
    rewrite to_Q_mk by lia. rewrite (to_Q_factors a), (to_Q_factors b), Ea.
    destruct (xorb (dsign a) (dsign b)); simpl inject_Z; field;
      repeat split; auto using Qpow10_neq_0, sign_factor_neq_0.
  - apply Z.eqb_neq in Ea.
    assert (Haq : ~ inject_Z (coef a) == 0) by (apply inject_Z_neq_0; assumption).
    set (shift := (ndigits (coef b) - ndigits (coef a) + prec + 1)%Z).
    set (exp := (dexp a - dexp b - shift)%Z).
    set (X := if (0 <=? shift)%Z then (coef a * 10 ^ shift)%Z else coef a).
    set (Y := if (0 <=? shift)%Z then coef b else (coef b * 10 ^ (- shift))%Z).
    replace (if (0 <=? shift)%Z
             then Z.div_eucl (coef a * 10 ^ shift) (coef b)
             else Z.div_eucl (coef a) (coef b * 10 ^ (- shift)))
      with (Z.div_eucl X Y)
      by (subst X Y; destruct (0 <=? shift)%Z; reflexivity).
    destruct (ndigits_spec (coef a) ltac:(lia)) as (Ha1 & Ha2 & Ha3).
    destruct (ndigits_spec (coef b) ltac:(lia)) as (Hb1 & Hb2 & Hb3).
    assert (HY : (0 < Y)%Z).
    { subst Y. destruct (0 <=? shift)%Z eqn:Es; [lia|].
      apply Z.leb_gt in Es.
      assert (0 < 10 ^ (- shift))%Z by (apply pow10_pos; lia). nia. }
    assert (HXY : (10 ^ prec * Y <= X)%Z).
    { subst X Y. destruct (0 <=? shift)%Z eqn:Es.
      - apply Z.leb_le in Es.
        assert (10 ^ prec * 10 ^ ndigits (coef b)
                = 10 ^ (ndigits (coef a) - 1) * 10 ^ shift)%Z as E.
        { rewrite <- !Z.pow_add_r by (unfold prec; lia).
          f_equal. subst shift. lia. }
        assert (0 < 10 ^ shift)%Z by (apply pow10_pos; lia).
        assert (0 < 10 ^ prec)%Z by (apply pow10_pos; unfold prec; lia).
        nia.
      - apply Z.leb_gt in Es.
        assert (10 ^ prec * (10 ^ ndigits (coef b) * 10 ^ (- shift))
                = 10 ^ (ndigits (coef a) - 1))%Z as E.
        { rewrite <- !Z.pow_add_r by (unfold prec; lia).
          f_equal. subst shift. lia. }
        assert (0 < 10 ^ (- shift))%Z by (apply pow10_pos; lia).
        assert (0 < 10 ^ prec)%Z by (apply pow10_pos; unfold prec; lia).
        nia. }
    assert (HYq : ~ inject_Z Y == 0) by (apply inject_Z_neq_0; lia).
    assert (HQ : inject_Z X / inject_Z Y
                 == inject_Z (coef a) / inject_Z (coef b) * inject_Z 10 ^ shift).
    { subst X Y. destruct (0 <=? shift)%Z eqn:Es.
      - apply Z.leb_le in Es.
        rewrite inject_Z_mult, Zpower_Qpower by assumption. field. assumption.
      - apply Z.leb_gt in Es.
        rewrite inject_Z_mult, Zpower_Qpower by lia.
        rewrite Qpower_opp. field.
        repeat split; auto using Qpow10_neq_0. }
    assert (Hexact : to_Q a / to_Q b
                     == (if xorb (dsign a) (dsign b) then - (1) else 1)
                        * (inject_Z X / inject_Z Y) * inject_Z 10 ^ exp).
    { rewrite HQ, (to_Q_factors a), (to_Q_factors b).
      assert (He : inject_Z 10 ^ dexp a
                   == inject_Z 10 ^ exp * inject_Z 10 ^ shift * inject_Z 10 ^ dexp b).
      { rewrite <- !Qpower_plus by apply ten_neq_0.
        replace (exp + shift + dexp b)%Z with (dexp a) by (subst exp; lia).
        reflexivity. }
      rewrite He.
      destruct (dsign a), (dsign b); simpl xorb; cbv iota; field;
        repeat split; auto using Qpow10_neq_0; discriminate. }
    destruct (Z.div_eucl X Y) as [coeff remainder] eqn:Ediv.
    assert (Hcoeff : coeff = (X / Y)%Z) by (unfold Z.div; rewrite Ediv; reflexivity).
    assert (Hrem : remainder = (X mod Y)%Z)
      by (unfold Z.modulo; rewrite Ediv; reflexivity).
    assert (Hbig : (10 ^ prec <= coeff)%Z).
    { rewrite Hcoeff. apply Z.div_le_lower_bound; lia. }
    assert (Hp28 : (0 < 10 ^ prec)%Z) by (apply pow10_pos; unfold prec; lia).
    pose proof (Z.div_mod X Y ltac:(lia)) as Hdm.
    pose proof (Z.mod_pos_bound X Y HY) as Hmb.
    destruct (remainder =? 0)%Z eqn:Er.
    + apply Z.eqb_eq in Er. left.
      destruct (strip_zeros (Z.to_nat (dexp a - dexp b - exp)) coeff exp)
        as [coeff' exp'] eqn:Estrip.
      assert (Hc0 : (0 <= coeff)%Z) by lia.
      destruct (strip_zeros_spec _ _ _ _ _ Hc0 Estrip) as (H1 & H2 & H3).
      eexists; split; [reflexivity|].
      assert (HX : X = (Y * coeff)%Z) by lia.
      transitivity (to_Q (mk (xorb (dsign a) (dsign b)) coeff exp)).
      * rewrite H3, to_Q_shift by lia.
        replace (exp + (exp' - exp))%Z with exp' by lia. reflexivity.
      * rewrite to_Q_mk by lia. rewrite signed_inject, Hexact, HX, inject_Z_mult.
        field. assumption.
    + apply Z.eqb_neq in Er. right.
      exists coeff, X, Y, exp. split; [reflexivity|].
      split; [assumption|]. split; [nia|]. split; assumption.
Qed.

End Unrounded.

(** ** Exact operations *)

Section ExactOperations.

Import Dec.

#[local] Open Scope Q_scope.

(** A coefficient of more than [prec] digits whose last digit is not zero is
    rounded inexactly. *)
Lemma fix_sticky (d : Decimal) :
  (10 ^ prec <= coef d)%Z -> (coef d mod 10 <> 0)%Z -> inexact (fix_ d) = true.
Proof.
  intros Hbig Hlast. unfold fix_.
  assert (Hp28 : (0 < 10 ^ prec)%Z) by (apply pow10_pos; unfold prec; lia).
  destruct (coef d =? 0)%Z eqn:E0; [apply Z.eqb_eq in E0; lia|].
  assert (Hnd : (prec < ndigits (coef d))%Z).
  { destruct (Z_lt_le_dec prec (ndigits (coef d))) as [|Hle]; [assumption|].
    apply ndigits_bound in Hle; lia. }
  set (exp_min := (ndigits (coef d) + dexp d - prec)%Z).
  replace (dexp d <? exp_min)%Z with true
    by (symmetry; apply Z.ltb_lt; subst exp_min; lia).
  unfold inexact; simpl snd. apply negb_true_iff, Z.eqb_neq.
  intros Hr. apply Hlast.
  set (k := (exp_min - dexp d)%Z) in *.
  assert (Hk : (10 ^ k = 10 * 10 ^ (k - 1))%Z).
  { replace k with (Z.succ (k - 1)) at 1 by lia.
    apply Z.pow_succ_r. subst k exp_min. lia. }
  assert (Hpk : (0 < 10 ^ (k - 1))%Z) by (apply pow10_pos; subst k exp_min; lia).
  pose proof (Z.div_mod (coef d) (10 ^ k) ltac:(lia)) as Hdm.
  rewrite Hr, Hk in Hdm.
  replace (coef d) with ((coef d / (10 * 10 ^ (k - 1)) * 10 ^ (k - 1)) * 10)%Z
    by lia.
  apply Z.mod_mul. lia.
Qed.

Lemma mul_exact (a b : Decimal) :
  inexact (mul a b) = false -> to_Q (value (mul a b)) == to_Q a * to_Q b.
Proof.
  intros H. unfold mul in *. rewrite (fix_exact _ H). apply mul_unrounded.
Qed.

Lemma int_mul_exact (n : Z) (d : Decimal) :
  inexact (Api.int_mul n d) = false ->
  to_Q (value (Api.int_mul n d)) == inject_Z n * to_Q d.
Proof.
  intros H. unfold Api.int_mul in *.
  rewrite (mul_exact _ _ H), to_Q_of_int. ring.
Qed.

Lemma add_exact (a b : Decimal) :
  inexact (add a b) = false -> to_Q (value (add a b)) == to_Q a + to_Q b.
Proof.
  destruct (add_unrounded a b) as (d & -> & <-). apply fix_exact.
Qed.

(** Without the [Inexact] signal, the quotient is the exact one. *)
Lemma div_exact (a b : Decimal) :
  coef b <> 0%Z ->
  inexact (div a b) = false -> to_Q (value (div a b)) == to_Q a / to_Q b.
Proof.
  intros Hb.
  destruct (div_cases a b Hb)
    as [(d & -> & <-)|(coeff & X & Y & exp & -> & HY & HX & Hbig & _)];
    [apply fix_exact|].
  intros H. exfalso.
  assert (Hp28 : (0 < 10 ^ prec)%Z) by (apply pow10_pos; unfold prec; lia).
  set (c' := if (coeff mod 5 =? 0)%Z then (coeff + 1)%Z else coeff) in *.
  assert (Hc1 : (coeff <= c')%Z)
    by (subst c'; destruct (coeff mod 5 =? 0)%Z; lia).
  assert (Hc2 : (c' mod 10 <> 0)%Z).
  { subst c'. destruct (coeff mod 5 =? 0)%Z eqn:E5.
    - apply Z.eqb_eq in E5. intros E10.
      apply Z.mod_divide in E5, E10; try lia.
      destruct E5 as [u Hu], E10 as [v Hv]. lia.
    - apply Z.eqb_neq in E5. intros E10. apply E5.
      apply Z.mod_divide in E10; try lia. destruct E10 as [v Hv].
      apply Z.mod_divide; [lia|]. exists (2 * v)%Z. lia. }
  rewrite fix_sticky in H; [discriminate| |]; rewrite coef_mk by lia; lia.
Qed.

End ExactOperations.

(** ** Rounding errors *)

Section Closeness.

Import Dec Spec.

#[local] Open Scope Q_scope.

#[global] Instance close_Proper : Proper (Qeq ==> Qeq ==> Qeq ==> iff) close.
Proof.
  intros e1 e2 He a1 a2 Ha b1 b2 Hb. unfold close.
  rewrite He, Ha, Hb. reflexivity.
Qed.

Lemma close_refl (eps a : Q) : 0 <= eps -> close eps a a.
Proof.
  intros He. unfold close.
  setoid_replace (a - a) with 0 by ring. simpl Qabs.
  apply Qmult_le_0_compat; [assumption|apply Qabs_nonneg].
Qed.

Lemma close_weaken (eps eps' a b : Q) :
  eps <= eps' -> close eps a b -> close eps' a b.
Proof.
  unfold close. intros He H. eapply Qle_trans; [exact H|].
  apply Qmult_le_compat_r; [assumption|apply Qabs_nonneg].
Qed.

Lemma close_mul_l (eps c a b : Q) : close eps a b -> close eps (c * a) (c * b).
Proof.
  unfold close. intros H.
  setoid_replace (c * a - c * b) with (c * (a - b)) by ring.
  rewrite !Qabs_Qmult.
  setoid_replace (eps * (Qabs c * Qabs b)) with (Qabs c * (eps * Qabs b)) by ring.
  rewrite (Qmult_comm (Qabs c) (Qabs (a - b))), (Qmult_comm (Qabs c)).
  apply Qmult_le_compat_r; [assumption|apply Qabs_nonneg].
Qed.

Lemma close_abs (eps a b : Q) : close eps a b -> Qabs a <= (1 + eps) * Qabs b.
Proof.
  unfold close. intros H.
  pose proof (Qabs_triangle (a - b) b) as Ht.
  setoid_replace (a - b + b) with a in Ht by ring.
  lra.
Qed.

Lemma close_trans (e1 e2 a b c : Q) :
  0 <= e1 -> close e1 a b -> close e2 b c -> close (e1 + e2 + e1 * e2) a c.
Proof.
  intros He1 Hab Hbc. pose proof (close_abs _ _ _ Hbc) as Hb.
  unfold close in *.
  pose proof (Qabs_triangle (a - b) (b - c)) as Ht.
  setoid_replace (a - b + (b - c)) with (a - c) in Ht by ring.
  assert (H1 : e1 * Qabs b <= e1 * ((1 + e2) * Qabs c)).
  { rewrite (Qmult_comm e1 (Qabs b)), (Qmult_comm e1).
    apply Qmult_le_compat_r; assumption. }
  lra.
Qed.

Lemma close_add (eps a a' b b' : Q) :
  (0 <= b /\ 0 <= b') \/ (b <= 0 /\ b' <= 0) ->
  close eps a b -> close eps a' b' -> close eps (a + a') (b + b').
Proof.
  unfold close. intros Hsign H H'.
  pose proof (Qabs_triangle (a - b) (a' - b')) as Ht.
  setoid_replace (a - b + (a' - b')) with (a + a' - (b + b')) in Ht by ring.
  assert (Hs : Qabs (b + b') == Qabs b + Qabs b').
  { destruct Hsign as [[H1 H2]|[H1 H2]].
    - rewrite !Qabs_pos by lra. reflexivity.
    - rewrite !Qabs_neg by lra. ring. }
  rewrite Hs. lra.
Qed.

Lemma unit_roundoff_nonneg : 0 <= unit_roundoff.
Proof. discriminate. Qed.

(** Two decimals of the same sign and exponent, whose coefficients differ by
    at most half a unit in the 28th digit of the second. *)
Lemma close_same_exp (s : bool) (c1 c2 e : Z) :
  (0 <= c1)%Z -> (0 <= c2)%Z ->
  (2 * 10 ^ 27 * Z.abs (c1 - c2) <= c2)%Z ->
  close unit_roundoff (to_Q (mk s c1 e)) (to_Q (mk s c2 e)).
Proof.
  intros H1 H2 H. unfold close. rewrite !to_Q_mk by assumption.
  rewrite !signed_inject.
  set (sg := if s then - (1) else 1).
  setoid_replace (sg * inject_Z c1 * inject_Z 10 ^ e
                  - sg * inject_Z c2 * inject_Z 10 ^ e)
    with (sg * inject_Z (c1 - c2) * inject_Z 10 ^ e)
    by (unfold Z.sub; rewrite inject_Z_plus, inject_Z_opp; ring).
  rewrite !Qabs_Qmult.
  assert (Hsg : Qabs sg == 1) by (subst sg; destruct s; reflexivity).
  assert (Hp : 0 < inject_Z 10 ^ e) by (apply Qpower_0_lt; reflexivity).
  rewrite Hsg, (Qabs_pos (inject_Z 10 ^ e)) by lra.
  rewrite (Qabs_pos (inject_Z c2))
    by (change 0 with (inject_Z 0); rewrite <- Zle_Qle; assumption).
  assert (Ha : Qabs (inject_Z (c1 - c2)) == inject_Z (Z.abs (c1 - c2))).
  { unfold inject_Z. simpl. reflexivity. }
  rewrite Ha.
  assert (Hz : inject_Z (Z.abs (c1 - c2)) <= unit_roundoff * inject_Z c2).
  { apply (Qmult_le_l _ _ (inject_Z (2 * 10 ^ 27))); [reflexivity|].
    assert (Hu : inject_Z (2 * 10 ^ 27) * unit_roundoff == 1)
      by (vm_compute; reflexivity).
    rewrite Qmult_assoc, Hu, Qmult_1_l.
    rewrite <- inject_Z_mult, <- Zle_Qle. assumption. }
  setoid_replace (unit_roundoff * (1 * inject_Z c2 * inject_Z 10 ^ e))
    with (unit_roundoff * inject_Z c2 * inject_Z 10 ^ e) by ring.
  rewrite Qmult_1_l.
  apply Qmult_le_compat_r; [assumption|lra].
Qed.

Lemma round_half_even_error (q r p : Z) :
  (0 <= r < p)%Z ->
  (2 * Z.abs (round_half_even q r p * p - (q * p + r)) <= p)%Z.
Proof.
  intros Hr.
  assert (Hup : ((q + 1) * p - (q * p + r) = p - r)%Z) by ring.
  assert (Hdown : (q * p - (q * p + r) = - r)%Z) by ring.
  unfold round_half_even.
  destruct (p <? 2 * r)%Z eqn:E1; cbn [orb andb].
  - apply Z.ltb_lt in E1. rewrite Hup. lia.
  - apply Z.ltb_ge in E1. destruct (2 * r =? p)%Z eqn:E2; cbn [orb andb].
    + apply Z.eqb_eq in E2.
      destruct (Z.odd q); [rewrite Hup|rewrite Hdown]; lia.
    + apply Z.eqb_neq in E2. rewrite Hdown. lia.
Qed.

(** The value that [_fix] returns when it rounds: the coefficient is divided
    by [p = 10^k], [k] being the number of digits beyond [prec], and the
    quotient is rounded half-even. *)
Lemma fix_rounds (d : Decimal) :
  coef d <> 0%Z -> (prec < ndigits (coef d))%Z ->
  let p := (10 ^ (ndigits (coef d) - prec))%Z in
  let q' := round_half_even (coef d / p) (coef d mod p) p in
  to_Q (value (fix_ d)) == to_Q (mk (dsign d) (q' * p) (dexp d))
  /\ (0 <= q')%Z /\ (0 < p)%Z /\ (10 ^ 27 * p <= coef d)%Z.
Proof.
  intros E0 Hnd p q'. pose proof (coef_nonneg d) as Hc.
  assert (Hp : (0 < p)%Z) by (apply pow10_pos; lia).
  pose proof (Z.div_mod (coef d) p ltac:(lia)) as Hdm.
  pose proof (Z.mod_pos_bound (coef d) p Hp) as Hr.
  assert (Hq : (0 <= coef d / p)%Z) by (apply Z.div_pos; lia).
  destruct (ndigits_spec (coef d) ltac:(lia)) as (_ & Hlo & Hhi).
  assert (Hlo' : (10 ^ 27 * p <= coef d)%Z).
  { subst p. rewrite <- Z.pow_add_r by (unfold prec in *; lia).
    replace (27 + (ndigits (coef d) - prec))%Z with (ndigits (coef d) - 1)%Z
      by (unfold prec; lia).
    assumption. }
  assert (Hhi' : (coef d / p < 10 ^ prec)%Z).
  { replace (ndigits (coef d)) with (prec + (ndigits (coef d) - prec))%Z in Hhi
      by lia.
    rewrite Z.pow_add_r in Hhi by (unfold prec in *; lia). fold p in Hhi. nia. }
  assert (Hq' : (0 <= q' <= 10 ^ prec)%Z).
  { subst q'.
    destruct (round_half_even_cases (coef d / p) (coef d mod p) p) as [->| ->];
      lia. }
  split; [|repeat split; lia].
  unfold fix_.
  replace (coef d =? 0)%Z with false by (symmetry; apply Z.eqb_neq; assumption).
  replace (dexp d <? ndigits (coef d) + dexp d - prec)%Z with true
    by (symmetry; apply Z.ltb_lt; lia).
  replace (ndigits (coef d) + dexp d - prec - dexp d)%Z
    with (ndigits (coef d) - prec)%Z by lia.
  fold p. fold q'. unfold value; simpl fst.
  set (exp_min := (ndigits (coef d) + dexp d - prec)%Z).
  transitivity (to_Q (mk (dsign d) q' exp_min)).
  - destruct (prec <? ndigits q')%Z eqn:En; [|reflexivity].
    apply Z.ltb_lt in En.
    assert (q' = 10 ^ prec)%Z as Hq28.
    { destruct (Z_lt_le_dec q' (10 ^ prec)) as [Hlt|]; [|lia].
      apply ndigits_le in Hlt; unfold prec in *; lia. }
    assert (q' = q' / 10 * 10 ^ 1)%Z as Hd
      by (rewrite Hq28; reflexivity).
    assert (0 <= q' / 10)%Z by (apply Z.div_pos; lia).
    rewrite Hd at 2. rewrite (to_Q_shift (dsign d) (q' / 10) 1 exp_min) by lia.
    reflexivity.
  - subst p. rewrite to_Q_shift by lia.
    replace (dexp d + (ndigits (coef d) - prec))%Z with exp_min
      by (subst exp_min; lia).
    reflexivity.
Qed.

(** The relative error of [_fix] is at most half a unit in the 28th digit. *)
Lemma fix_close (d : Decimal) :
  close unit_roundoff (to_Q (value (fix_ d))) (to_Q d).
Proof.
  pose proof (coef_nonneg d) as Hc.
  destruct (Z.eq_dec (coef d) 0) as [E0|E0].
  { unfold fix_. rewrite E0. simpl. apply close_refl, unit_roundoff_nonneg. }
  destruct (Z_lt_le_dec prec (ndigits (coef d))) as [Hnd|Hnd].
  2:{ rewrite fix_small by assumption. apply close_refl, unit_roundoff_nonneg. }
  destruct (fix_rounds d E0 Hnd) as (Hv & Hq' & Hp & Hlo).
  set (p := (10 ^ (ndigits (coef d) - prec))%Z) in *.
  set (q' := round_half_even (coef d / p) (coef d mod p) p) in *.
  pose proof (Z.div_mod (coef d) p ltac:(lia)) as Hdm.
  pose proof (Z.mod_pos_bound (coef d) p Hp) as Hr.
  pose proof (round_half_even_error (coef d / p) (coef d mod p) p Hr) as Herr.
  fold q' in Herr.
  rewrite Hv.
  assert (Hd : to_Q d == to_Q (mk (dsign d) (coef d) (dexp d))).
  { unfold to_Q. rewrite scoef_mk by assumption. reflexivity. }
  rewrite Hd. apply close_same_exp; [nia|assumption|].
  replace (coef d) with (coef d / p * p + coef d mod p)%Z at 1 by lia.
  lia.
Qed.

End Closeness.

Section DivisionError.

Import Dec Spec.

#[local] Open Scope Z_scope.

(** The sticky digit makes the rounding of the integer part the rounding of
    the quotient itself. *)
Lemma sticky_nearest (coeff X Y : Z) :
  0 < Y -> Y * coeff < X < Y * (coeff + 1) -> 10 ^ prec <= coeff ->
  let c' := if coeff mod 5 =? 0 then coeff + 1 else coeff in
  let p := 10 ^ (ndigits c' - prec) in
  let q' := round_half_even (c' / p) (c' mod p) p in
  prec < ndigits c' /\ 0 <= q' /\ 2 * 10 ^ 27 * Z.abs (q' * p * Y - X) <= X.
Proof.
  intros HY HX Hbig c' p q'.
  assert (Hp28 : 0 < 10 ^ prec) by (apply pow10_pos; unfold prec; lia).
  assert (Hd : c' = coeff \/ c' = coeff + 1)
    by (subst c'; destruct (coeff mod 5 =? 0); auto).
  assert (H5 : c' mod 5 <> 0).
  { subst c'. destruct (coeff mod 5 =? 0) eqn:E5.
    - apply Z.eqb_eq in E5. intros E. apply Z.mod_divide in E5, E; try lia.
      destruct E5 as [u Hu], E as [v Hv]. lia.
    - apply Z.eqb_neq in E5. assumption. }
  assert (H10 : c' mod 10 <> 0).
  { intros E. apply H5. apply Z.mod_divide in E; try lia. destruct E as [v Hv].
    apply Z.mod_divide; [lia|]. exists (2 * v). lia. }
  assert (Hc' : 10 ^ prec <= c') by lia.
  assert (Hnd : prec < ndigits c').
  { destruct (Z_lt_le_dec prec (ndigits c')) as [|Hle]; [assumption|].
    apply ndigits_bound in Hle; lia. }
  set (k := ndigits c' - prec) in *.
  assert (Hp : p = 10 * 10 ^ (k - 1)).
  { subst p. replace k with (Z.succ (k - 1)) at 1 by lia.
    apply Z.pow_succ_r. lia. }
  set (p' := 10 ^ (k - 1)) in *.
  assert (Hp' : 0 < p') by (apply pow10_pos; lia).
  destruct (ndigits_spec c' ltac:(lia)) as (_ & Hlo & _).
  assert (Hlo' : 10 * (10 ^ 26 * p) <= c').
  { replace (10 * (10 ^ 26 * p)) with (10 ^ 27 * p) by ring.
    subst p. rewrite <- Z.pow_add_r by (unfold prec in *; lia).
    replace (27 + k) with (ndigits c' - 1) by (subst k; unfold prec; lia).
    assumption. }
  pose proof (Z.div_mod c' p ltac:(lia)) as Hdm.
  pose proof (Z.mod_pos_bound c' p ltac:(lia)) as Hr.
  assert (Hqq : 0 <= c' / p) by (apply Z.div_pos; lia).
  set (qq := c' / p) in *. set (r' := c' mod p) in *.
  assert (Hm : c' = 10 * (qq * p') + r') by (rewrite Hp in Hdm; lia).
  set (m := qq * p') in *.
  assert (Hr5 : forall j, r' <> 5 * j).
  { intros j Hj. apply H5. apply Z.mod_divide; [lia|].
    exists (2 * m + j). lia. }
  assert (Hr0 : 1 <= r').
  { destruct (Z.eq_dec r' 0) as [E|]; [|lia].
    exfalso. apply (Hr5 0). lia. }
  assert (Hcoeff : 10 * (10 ^ 26 * p) <= coeff).
  { destruct Hd as [Hd|Hd]; [lia|].
    destruct (Z.eq_dec c' (10 * (10 ^ 26 * p))) as [E|]; [|lia].
    exfalso. apply H10. rewrite E. rewrite Z.mul_comm. apply Z.mod_mul. lia. }
  assert (Htie : 2 * r' <> p) by (rewrite Hp; intros E; apply (Hr5 p'); lia).
  set (t := X - Y * coeff).
  assert (Ht : 0 < t < Y) by (subst t; lia).
  assert (Hq'cases :
            (2 * r' + 2 <= p /\ q' = qq) \/ (p + 2 <= 2 * r' /\ q' = qq + 1)).
  { subst q'. unfold round_half_even.
    replace (2 * r' =? p) with false by (symmetry; apply Z.eqb_neq; assumption).
    simpl andb. rewrite orb_false_r.
    destruct (p <? 2 * r') eqn:E; [apply Z.ltb_lt in E | apply Z.ltb_ge in E].
    - right. split; [|reflexivity]. rewrite Hp in *. lia.
    - left. split; [|reflexivity]. rewrite Hp in *. lia. }
  split; [assumption|]. split; [destruct Hq'cases as [[_ ->]|[_ ->]]; lia|].
  assert (Hv : exists j, q' * p * Y - X = j * Y - t /\ 2 - p <= 2 * j <= p).
  { destruct Hq'cases as [[Hlt ->]|[Hgt ->]].
    - exists (c' - coeff - r'). split; [subst t; nia|lia].
    - exists (c' - coeff - r' + p). split; [subst t; nia|lia]. }
  destruct Hv as (j & -> & Hj).
  assert (H1 : 2 * (j * Y) <= p * Y) by nia.
  assert (H2 : - (p * Y) <= 2 * ((j - 1) * Y)) by nia.
  assert (H3 : 2 * Z.abs (j * Y - t) <= p * Y) by nia.
  assert (H4 : 10 ^ 27 * (p * Y) <= coeff * Y).
  { replace (10 ^ 27 * (p * Y)) with (10 * (10 ^ 26 * p) * Y) by ring.
    apply Z.mul_le_mono_nonneg_r; lia. }
  assert (0 < 10 ^ 27) by reflexivity.
  nia.
Qed.

End DivisionError.

Section OperationErrors.

Import Dec Spec Api.

#[local] Open Scope Q_scope.

Lemma mul_close (a b : Decimal) :
  close unit_roundoff (to_Q (value (mul a b))) (to_Q a * to_Q b).
Proof. unfold mul. rewrite <- mul_unrounded. apply fix_close. Qed.

Lemma int_mul_close (n : Z) (d : Decimal) :
  close unit_roundoff (to_Q (value (int_mul n d))) (inject_Z n * to_Q d).
Proof.
  unfold int_mul. rewrite <- to_Q_of_int, Qmult_comm. apply mul_close.
Qed.

Lemma add_close (a b : Decimal) :
  close unit_roundoff (to_Q (value (add a b))) (to_Q a + to_Q b).
Proof.
  destruct (add_unrounded a b) as (d & -> & <-). apply fix_close.
Qed.

(** A decimal against a quotient of integers with the same sign and
    exponent. *)
Lemma close_ratio (s : bool) (c X Y e : Z) :
  (0 <= c)%Z -> (0 < Y)%Z -> (0 <= X)%Z ->
  (2 * 10 ^ 27 * Z.abs (c * Y - X) <= X)%Z ->
  close unit_roundoff (to_Q (mk s c e))
    ((if s then - (1) else 1) * (inject_Z X / inject_Z Y) * inject_Z 10 ^ e).
Proof.
  intros Hc HY HX H.
  assert (HYq : ~ inject_Z Y == 0) by (apply inject_Z_neq_0; lia).
  pose proof (close_same_exp s (c * Y) X e ltac:(nia) HX H) as Hs.
  apply (close_mul_l _ (/ inject_Z Y)) in Hs.
  rewrite !to_Q_mk in Hs by nia. rewrite to_Q_mk by assumption.
  rewrite !signed_inject in *. rewrite inject_Z_mult in Hs.
  setoid_replace ((if s then - (1) else 1) * inject_Z c * inject_Z 10 ^ e)
    with (/ inject_Z Y
          * ((if s then - (1) else 1) * (inject_Z c * inject_Z Y) * inject_Z 10 ^ e))
    by (field; assumption).
  setoid_replace ((if s then - (1) else 1) * (inject_Z X / inject_Z Y)
                  * inject_Z 10 ^ e)
    with (/ inject_Z Y * ((if s then - (1) else 1) * inject_Z X * inject_Z 10 ^ e))
    by (field; assumption).
  exact Hs.
Qed.

(** The relative error of a quotient is at most half a unit in the 28th
    digit. *)
Lemma div_close (a b : Decimal) :
  coef b <> 0%Z ->
  close unit_roundoff (to_Q (value (div a b))) (to_Q a / to_Q b).
Proof.
  intros Hb.
  destruct (div_cases a b Hb)
    as [(d & -> & <-)|(coeff & X & Y & exp & -> & HY & HX & Hbig & ->)];
    [apply fix_close|].
  destruct (sticky_nearest coeff X Y HY HX Hbig) as (Hnd & Hq' & Herr).
  assert (Hp28 : (0 < 10 ^ prec)%Z) by (apply pow10_pos; unfold prec; lia).
  set (c' := if (coeff mod 5 =? 0)%Z then (coeff + 1)%Z else coeff) in *.
  assert (Hc' : (0 < c')%Z) by (subst c'; destruct (coeff mod 5 =? 0)%Z; lia).
  set (d := mk (xorb (dsign a) (dsign b)) c' exp).
  assert (Hcd : coef d = c') by (subst d; apply coef_mk; lia).
  destruct (fix_rounds d) as (Hv & _ & Hp & _);
    [rewrite Hcd; lia | rewrite Hcd; assumption |].
  rewrite Hcd in Hv, Hp. rewrite Hv. subst d. simpl dsign. simpl dexp.
  apply close_ratio; [nia|assumption|nia|assumption].
Qed.

End OperationErrors.

(** ** The total before rounding *)

Section Total.

Import Dec Spec Api.

#[local] Open Scope Q_scope.

Lemma thirty_neq_0 : coef (of_int 30) <> 0%Z.
Proof. discriminate. Qed.

(** Without the [Inexact] signal, the total is the one of the decision tree
    in exact arithmetic. *)
Lemma compute_total_exact (nights : Z) (ppn mr : option Decimal) :
  inexact (compute_total nights ppn mr) = false ->
  to_Q (value (compute_total nights ppn mr)) == Spec.total nights ppn mr.
Proof.
  unfold compute_total, Spec.total.
  destruct (30 <=? nights)%Z eqn:E30, mr as [m|], ppn as [p|];
    try (intros H; apply int_mul_exact; assumption);
    try (intros _; reflexivity).
  all: intros H; apply sbind_inexact in H as [H1 H2]; rewrite sbind_value.
  all: destruct (0 <? nights mod 30)%Z eqn:Er.
  all: try (apply Z.ltb_ge in Er;
            pose proof (Z.mod_pos_bound nights 30 ltac:(lia)) as Hm;
            replace (nights mod 30)%Z with 0%Z by lia;
            unfold value at 1; simpl fst;
            rewrite (int_mul_exact _ _ H1); simpl inject_Z; ring).
  all: apply sbind_inexact in H2 as [H2 H3]; apply sbind_inexact in H3 as [H3 H4];
       rewrite !sbind_value;
       rewrite (add_exact _ _ H4), (int_mul_exact _ _ H3), (int_mul_exact _ _ H1),
         (div_exact _ _ thirty_neq_0 H2), to_Q_of_int; reflexivity.
Qed.

Lemma total_roundoff_bound :
  unit_roundoff + (unit_roundoff + unit_roundoff + unit_roundoff * unit_roundoff)
  + unit_roundoff * (unit_roundoff + unit_roundoff + unit_roundoff * unit_roundoff)
  <= total_roundoff.
Proof. vm_compute. discriminate. Qed.

(** The total is the one of the decision tree in exact arithmetic, up to a
    relative error of [2 * 10^-27]. *)
Lemma compute_total_close (nights : Z) (ppn mr : option Decimal) :
  close total_roundoff (to_Q (value (compute_total nights ppn mr)))
    (Spec.total nights ppn mr).
Proof.
  assert (Hu : unit_roundoff <= total_roundoff) by (vm_compute; discriminate).
  assert (H0 : 0 <= total_roundoff) by discriminate.
  unfold compute_total, Spec.total.
  destruct (30 <=? nights)%Z eqn:E30, mr as [m|], ppn as [p|];
    try (apply (close_weaken _ _ _ _ Hu), int_mul_close);
    try (apply close_refl; assumption).
  all: apply Z.leb_le in E30.
  all: pose proof (Z.mod_pos_bound nights 30 ltac:(lia)) as Hr.
  all: assert (Hm : (0 <= nights / 30)%Z) by (apply Z.div_pos; lia).
  all: rewrite sbind_value.
  all: pose proof (int_mul_close (nights / 30) m) as Hb.
  all: destruct (0 <? nights mod 30)%Z eqn:Er.
  all: try (apply Z.ltb_ge in Er;
            replace (nights mod 30)%Z with 0%Z by lia;
            unfold value at 1; simpl fst;
            setoid_replace (inject_Z (nights / 30) * to_Q m
                            + inject_Z 0 * (to_Q m / inject_Z 30))
              with (inject_Z (nights / 30) * to_Q m) by (simpl inject_Z; ring);
            apply (close_weaken _ _ _ _ Hu); exact Hb).
  all: rewrite !sbind_value.
  all: set (b' := value (int_mul (nights / 30) m)) in *.
  all: set (d' := value (div m (of_int 30))).
  all: set (e' := value (int_mul (nights mod 30) d')).
  all: pose proof (div_close m (of_int 30) thirty_neq_0) as Hd;
       rewrite to_Q_of_int in Hd; fold d' in Hd.
  all: pose proof (int_mul_close (nights mod 30) d') as He; fold e' in He.
  all: pose proof (close_mul_l _ (inject_Z (nights mod 30)) _ _ Hd) as Hrd.
  all: pose proof (close_trans _ _ _ _ _ unit_roundoff_nonneg He Hrd) as He2.
  all: assert (Hb2 : close (unit_roundoff + unit_roundoff
                            + unit_roundoff * unit_roundoff)
                       (to_Q b') (inject_Z (nights / 30) * to_Q m))
         by (eapply close_weaken; [|exact Hb]; vm_compute; discriminate).
  all: assert (Hsum : close (unit_roundoff + unit_roundoff
                             + unit_roundoff * unit_roundoff)
                        (to_Q b' + to_Q e')
                        (inject_Z (nights / 30) * to_Q m
                         + inject_Z (nights mod 30) * (to_Q m / inject_Z 30))).
  all: try (apply close_add; [|assumption|assumption];
            assert (Hmq : 0 <= inject_Z (nights / 30))
              by (change 0 with (inject_Z 0); rewrite <- Zle_Qle; assumption);
            assert (Hrq : 0 <= inject_Z (nights mod 30))
              by (change 0 with (inject_Z 0); rewrite <- Zle_Qle; lia);
            assert (H30 : to_Q m / inject_Z 30 == to_Q m * (1 # 30))
              by (simpl inject_Z; field);
            rewrite H30;
            destruct (Qlt_le_dec (to_Q m) 0) as [Hneg|Hpos];
            [right|left]; split; nra).
  all: eapply close_weaken; [exact total_roundoff_bound|].
  all: eapply close_trans; [exact unit_roundoff_nonneg|apply add_close|exact Hsum].
Qed.

End Total.

(** C1 (amended).  The total before rounding follows the decision tree in
    priority order, each operation being a [Decimal] operation of the default
    context, rounded to 28 significant digits.  With [T] the value
    [(nights div 30) * monthly_rate + (nights mod 30) * (monthly_rate / 30)]
    when [nights >= 30] and the monthly rate is present, otherwise
    [nights * price_per_night] when the nightly price is present, otherwise
    [0], all in exact arithmetic: the total is within [2 * 10^-27 * |T|] of
    [T], and it is [T] whenever no operation signals [Inexact].  35 nights at
    a monthly rate of 900000 give 1050000, and 10 nights at 80000 a night give
    800000, both without rounding. *)
Theorem C1_total_follows_decision_tree :
  (forall (nights : Z) (price_per_night monthly_rate : option Dec.Decimal),
     Spec.close Spec.total_roundoff
       (Dec.to_Q (Dec.value (Api.compute_total nights price_per_night monthly_rate)))
       (Spec.total nights price_per_night monthly_rate))
  /\ (forall (nights : Z) (price_per_night monthly_rate : option Dec.Decimal),
        Dec.inexact (Api.compute_total nights price_per_night monthly_rate) = false ->
        (Dec.to_Q (Dec.value (Api.compute_total nights price_per_night monthly_rate))
         == Spec.total nights price_per_night monthly_rate)%Q)
  /\ Api.compute_total 35 None (Some (Dec.of_int 900000))
     = (Dec.of_int 1050000, false)
  /\ Api.compute_total 10 (Some (Dec.of_int 80000)) None
     = (Dec.of_int 800000, false).
Proof.
  split; [exact compute_total_close|].
  split; [exact compute_total_exact|].
  split; vm_compute; reflexivity.
Qed.

(** The amended statement at 35 nights and a monthly rate of 900000. *)
Lemma C1_witness :
  Dec.inexact (Api.compute_total 35 None (Some (Dec.of_int 900000))) = false
  /\ (Dec.to_Q (Dec.value (Api.compute_total 35 None (Some (Dec.of_int 900000))))
      == Spec.total 35 None (Some (Dec.of_int 900000)))%Q.
Proof.
  split; [reflexivity|].
  apply (proj1 (proj2 C1_total_follows_decision_tree)
           35 None (Some (Dec.of_int 900000))).
  reflexivity.
Defined.

(** C1 as stated fails: at 31 nights and a monthly rate of 1000000 the
    quotient by 30 is rounded to 28 digits, and the total
    1033333.333333333333333333333 is not the exact one. *)
Lemma C1_counterexample :
  ~ (Dec.to_Q (Dec.value (Api.compute_total 31 None (Some (Dec.of_int 1000000))))
     == Spec.total 31 None (Some (Dec.of_int 1000000)))%Q.
Proof.
  unfold Qeq. vm_compute. discriminate.
Qed.

(** ** The [float] of an integer amount *)

Section FloatOfInteger.

Import Dec Float.

Lemma floor_log2_int (n : Z) : 0 < n -> floor_log2 n 1 = Z.log2 n.
Proof.
  intros Hn. unfold floor_log2, scale2.
  change (Z.log2 1) with 0. rewrite Z.sub_0_r.
  pose proof (Z.log2_nonneg n) as Hl.
  replace (0 <=? Z.log2 n) with true by (symmetry; apply Z.leb_le; lia).
  destruct (Z.log2_spec n Hn) as [H1 _].
  replace (1 * 2 ^ Z.log2 n <=? n) with true by (symmetry; apply Z.leb_le; lia).
  reflexivity.
Qed.

(** Below [2^53] an integer is a binary64. *)
Lemma round_binary64_small (neg : bool) (n : Z) :
  0 < n < 2 ^ 53 ->
  round_binary64 neg n 1 = Finite neg (n * 2 ^ (52 - Z.log2 n)) (Z.log2 n - 52).
Proof.
  intros [Hn Hlt]. unfold round_binary64.
  rewrite floor_log2_int by assumption.
  pose proof (Z.log2_nonneg n) as Hl.
  assert (Hl53 : Z.log2 n < 53) by (apply Z.log2_lt_pow2; lia).
  rewrite Z.max_l by lia.
  unfold scale2.
  assert (Hm : forall x, round_half_even (x / 1) (x mod 1) 1 = x).
  { intros x. rewrite Z.div_1_r, Z.mod_1_r. apply round_half_even_exact. lia. }
  destruct (0 <=? Z.log2 n - 52) eqn:Ek.
  - apply Z.leb_le in Ek. replace (Z.log2 n) with 52 by lia.
    change (1 * 2 ^ (52 - 52)) with 1. rewrite Hm.
    change (2 ^ (52 - 52)) with 1. rewrite Z.mul_1_r.
    replace (2 ^ 53 <=? n) with false by (symmetry; apply Z.leb_gt; lia).
    reflexivity.
  - rewrite Hm.
    replace (- (Z.log2 n - 52)) with (52 - Z.log2 n) by lia.
    replace (1023 <? Z.log2 n) with false by (symmetry; apply Z.ltb_ge; lia).
    replace (Z.log2 n =? 1023) with false by (symmetry; apply Z.eqb_neq; lia).
    reflexivity.
Qed.

(** Below [10^28] the binary64 nearest to a positive integer is a positive
    integer. *)
Lemma round_binary64_int (neg : bool) (n : Z) :
  0 < n < 10 ^ 28 ->
  exists m k,
    round_binary64 neg n 1 = Finite neg m k
    /\ ((k <= 0 /\ m = n * 2 ^ (- k)) \/ (0 < k /\ 0 < m)).
Proof.
  intros [Hn Hlt].
  assert (H94 : Z.log2 n < 94).
  { apply Z.log2_lt_pow2; [assumption|].
    eapply Z.lt_trans; [exact Hlt|]. reflexivity. }
  pose proof (Z.log2_nonneg n) as Hl.
  destruct (Z_lt_le_dec n (2 ^ 53)) as [Hs|Hbig].
  - rewrite round_binary64_small by lia.
    assert (Hl53 : Z.log2 n < 53) by (apply Z.log2_lt_pow2; lia).
    eexists _, _; split; [reflexivity|left].
    replace (- (Z.log2 n - 52)) with (52 - Z.log2 n) by lia.
    split; [lia|reflexivity].
  - unfold round_binary64. rewrite floor_log2_int by assumption.
    assert (Hl53 : 53 <= Z.log2 n) by (apply Z.log2_le_pow2; lia).
    rewrite Z.max_l by lia. unfold scale2.
    replace (0 <=? Z.log2 n - 52) with true by (symmetry; apply Z.leb_le; lia).
    replace (1023 <? Z.log2 n) with false by (symmetry; apply Z.ltb_ge; lia).
    replace (Z.log2 n =? 1023) with false by (symmetry; apply Z.eqb_neq; lia).
    simpl orb. cbv iota.
    eexists _, _; split; [reflexivity|right]. split; [lia|].
    assert (Hp : 0 < 2 ^ (Z.log2 n - 52)) by (apply Z.pow_pos_nonneg; lia).
    rewrite Z.mul_1_l.
    assert (Hq : 0 < n / 2 ^ (Z.log2 n - 52)).
    { apply Z.div_str_pos. split; [assumption|].
      destruct (Z.log2_spec n Hn) as [H1 _].
      assert (2 ^ (Z.log2 n - 52) <= 2 ^ Z.log2 n)
        by (apply Z.pow_le_mono_r; lia).
      lia. }
    destruct (round_half_even_cases (n / 2 ^ (Z.log2 n - 52))
                (n mod 2 ^ (Z.log2 n - 52)) (2 ^ (Z.log2 n - 52))) as [->| ->]; lia.
Qed.

Lemma two_neq_0 : ~ (inject_Z 2 == 0)%Q.
Proof. discriminate. Qed.

(** The [float] of an integer amount below [2^53] is that amount. *)
Lemma py_float_small (n : Z) :
  0 <= n < 2 ^ 53 -> has_value (py_float (mk false n 0)) (inject_Z n).
Proof.
  intros [Hn Hlt]. unfold py_float. rewrite coef_mk by assumption.
  destruct (n =? 0) eqn:E0.
  - apply Z.eqb_eq in E0. subst n. unfold has_value. simpl. reflexivity.
  - apply Z.eqb_neq in E0. simpl dexp. change (0 <=? 0) with true. cbv iota.
    change (10 ^ 0) with 1. rewrite Z.mul_1_r.
    rewrite round_binary64_small by lia.
    unfold has_value, to_Q. simpl dsign. cbv iota.
    assert (Hl53 : Z.log2 n < 53) by (apply Z.log2_lt_pow2; lia).
    rewrite inject_Z_mult, Zpower_Qpower by lia.
    rewrite <- Qmult_assoc, <- Qpower_plus by apply two_neq_0.
    replace (52 - Z.log2 n + (Z.log2 n - 52)) with 0 by lia.
    simpl Qpower. ring.
Qed.

(** The [float] of an integer amount below [10^28] is a non-negative
    integer, positive when the amount is. *)
Lemma py_float_int (n : Z) :
  0 <= n < 10 ^ 28 ->
  exists z, has_value (py_float (mk false n 0)) (inject_Z z)
            /\ 0 <= z /\ (1 <= n -> 1 <= z).
Proof.
  intros [Hn Hlt]. unfold py_float. rewrite coef_mk by assumption.
  destruct (n =? 0) eqn:E0.
  - apply Z.eqb_eq in E0. subst n. exists 0. unfold has_value. simpl.
    split; [reflexivity|lia].
  - apply Z.eqb_neq in E0. simpl dexp. change (0 <=? 0) with true. cbv iota.
    change (10 ^ 0) with 1. rewrite Z.mul_1_r. simpl dsign.
    destruct (round_binary64_int false n ltac:(lia)) as (m & k & -> & Hcase).
    unfold has_value, to_Q. cbv iota.
    destruct Hcase as [(Hk & Hm)|(Hk & Hm)].
    + exists n. split; [|lia].
      rewrite Hm, inject_Z_mult, Zpower_Qpower by lia.
      rewrite <- Qmult_assoc, <- Qpower_plus by apply two_neq_0.
      replace (- k + k) with 0 by lia. simpl Qpower. ring.
    + exists (m * 2 ^ k).
      assert (0 < 2 ^ k) by (apply Z.pow_pos_nonneg; lia).
      split; [|nia].
      rewrite inject_Z_mult, Zpower_Qpower by lia. reflexivity.
Qed.

End FloatOfInteger.

(** ** Rounding to the currency unit *)

Section Quantize.

Import Dec.

#[local] Open Scope Q_scope.

Lemma gt_zero_inv (d : Decimal) :
  gt_zero d = true -> dsign d = false /\ (0 < coef d)%Z.
Proof.
  unfold gt_zero. intros H. apply andb_true_iff in H as [H1 H2].
  apply negb_true_iff in H1, H2. apply Z.eqb_neq in H2.
  pose proof (coef_nonneg d). split; [assumption|lia].
Qed.

Lemma to_Q_nonneg_exp (d : Decimal) :
  dsign d = false -> (0 <= dexp d)%Z ->
  to_Q d == inject_Z (coef d * 10 ^ dexp d).
Proof.
  intros Hs He. unfold to_Q, scoef. rewrite Hs.
  rewrite inject_Z_mult, Zpower_Qpower by assumption. reflexivity.
Qed.

Lemma to_Q_neg_exp (d : Decimal) :
  dsign d = false -> (dexp d < 0)%Z ->
  to_Q d * inject_Z (10 ^ (- dexp d)) == inject_Z (coef d).
Proof.
  intros Hs He. unfold to_Q, scoef. rewrite Hs.
  rewrite Zpower_Qpower by lia.
  rewrite <- Qmult_assoc, <- Qpower_plus by apply ten_neq_0.
  replace (dexp d + - dexp d)%Z with 0%Z by lia. simpl Qpower. ring.
Qed.

Lemma half_bracket_Z (n : Z) :
  inject_Z n - (1 # 2) <= inject_Z n /\ inject_Z n < inject_Z n + (1 # 2).
Proof.
  split.
  - rewrite <- (Qplus_0_r (inject_Z n)) at 2. apply Qplus_le_r. discriminate.
  - rewrite <- (Qplus_0_r (inject_Z n)) at 1. apply Qplus_lt_r. reflexivity.
Qed.

(** The coefficient of the rescaled total is the nearest integer, the tie
    going up. *)
Lemma rescale_half_up_spec (d : Decimal) :
  gt_zero d = true ->
  exists n : Z,
    rescale_half_up d 0 = mk false n 0 /\ (0 <= n)%Z
    /\ inject_Z n - (1 # 2) <= to_Q d /\ to_Q d < inject_Z n + (1 # 2).
Proof.
  intros H. destruct (gt_zero_inv d H) as [Hs Hc].
  unfold rescale_half_up. rewrite Hs.
  replace (coef d =? 0)%Z with false by (symmetry; apply Z.eqb_neq; lia).
  destruct (0 <=? dexp d)%Z eqn:Ee.
  - apply Z.leb_le in Ee. rewrite Z.sub_0_r.
    exists (coef d * 10 ^ dexp d)%Z.
    assert (0 < 10 ^ dexp d)%Z by (apply pow10_pos; assumption).
    split; [reflexivity|]. split; [nia|].
    rewrite (to_Q_nonneg_exp d Hs Ee). apply half_bracket_Z.
  - apply Z.leb_gt in Ee. rewrite Z.sub_0_l.
    set (p := (10 ^ (- dexp d))%Z).
    assert (Hp : (0 < p)%Z) by (apply pow10_pos; lia).
    pose proof (Z.div_mod (coef d) p ltac:(lia)) as Hdm.
    pose proof (Z.mod_pos_bound (coef d) p Hp) as Hr.
    assert (Hq : (0 <= coef d / p)%Z) by (apply Z.div_pos; lia).
    set (n := round_half_up (coef d / p) (coef d mod p) p).
    assert (Hn : (0 <= n /\ 2 * n * p - p <= 2 * coef d < 2 * n * p + p)%Z).
    { subst n. unfold round_half_up.
      destruct (p <=? 2 * (coef d mod p))%Z eqn:Eh;
        [apply Z.leb_le in Eh | apply Z.leb_gt in Eh]; nia. }
    exists n. split; [reflexivity|]. split; [lia|].
    pose proof (to_Q_neg_exp d Hs Ee) as Hv. fold p in Hv.
    assert (Hpq : 0 < inject_Z p)
      by (change 0 with (inject_Z 0); rewrite <- Zlt_Qlt; assumption).
    split.
    + apply (Qmult_le_r _ _ (inject_Z p) Hpq). rewrite Hv.
      apply (Qmult_le_r _ _ (inject_Z 2)); [reflexivity|].
      setoid_replace ((inject_Z n - (1 # 2)) * inject_Z p * inject_Z 2)
        with (inject_Z (2 * n * p - p)).
      * rewrite <- inject_Z_mult, <- Zle_Qle. lia.
      * unfold Z.sub. rewrite inject_Z_plus, inject_Z_opp, !inject_Z_mult.
        simpl (inject_Z 2). field.
    + apply (Qmult_lt_r _ _ (inject_Z p) Hpq). rewrite Hv.
      apply (Qmult_lt_r _ _ (inject_Z 2)); [reflexivity|].
      setoid_replace ((inject_Z n + (1 # 2)) * inject_Z p * inject_Z 2)
        with (inject_Z (2 * n * p + p)).
      * rewrite <- inject_Z_mult, <- Zlt_Qlt. lia.
      * rewrite inject_Z_plus, !inject_Z_mult. simpl (inject_Z 2). field.
Qed.

(** What [quantize] returns for a positive total, when it returns. *)
Lemma quantize_some (d final : Decimal) :
  gt_zero d = true ->
  quantize_1_half_up d = Some final ->
  exists n : Z,
    final = mk false n 0 /\ (0 <= n < 10 ^ prec)%Z
    /\ inject_Z n - (1 # 2) <= to_Q d /\ to_Q d < inject_Z n + (1 # 2).
Proof.
  intros H Hq. destruct (gt_zero_inv d H) as [Hs Hc].
  destruct (rescale_half_up_spec d H) as (n & Hn & Hn0 & Hlo & Hhi).
  unfold quantize_1_half_up in Hq.
  replace (coef d =? 0)%Z with false in Hq by (symmetry; apply Z.eqb_neq; lia).
  destruct (prec <? ndigits (coef d) + dexp d - 1 - 0 + 1)%Z; [discriminate|].
  rewrite Hn in Hq. rewrite coef_mk in Hq by assumption.
  destruct (prec <? ndigits n)%Z eqn:En; [discriminate|].
  apply Z.ltb_ge in En.
  rewrite fix_small in Hq by (rewrite coef_mk; assumption).
  inversion Hq; subst final. exists n.
  split; [reflexivity|]. split; [|split; assumption].
  split; [assumption|]. apply ndigits_bound; assumption.
Qed.

(** [quantize] returns for a positive total whose rounding has at most
    [prec] digits. *)
Lemma quantize_in_range (d : Decimal) :
  gt_zero d = true ->
  to_Q d + (1 # 2) < inject_Z (10 ^ prec) ->
  exists final, quantize_1_half_up d = Some final.
Proof.
  intros H Hlt. destruct (gt_zero_inv d H) as [Hs Hc].
  destruct (rescale_half_up_spec d H) as (n & Hn & Hn0 & Hlo & Hhi).
  assert (Hp28 : (0 < 10 ^ prec)%Z) by (apply pow10_pos; unfold prec; lia).
  assert (Hd : to_Q d < inject_Z (10 ^ prec)).
  { apply Qle_lt_trans with (to_Q d + (1 # 2)); [|assumption].
    rewrite <- (Qplus_0_r (to_Q d)) at 1. apply Qplus_le_r. discriminate. }
  assert (Hn28 : (n < 10 ^ prec)%Z).
  { rewrite Zlt_Qlt. apply Qle_lt_trans with (to_Q d + (1 # 2)); [|assumption].
    apply Qplus_le_l with (z := - (1 # 2)).
    setoid_replace (to_Q d + (1 # 2) + - (1 # 2)) with (to_Q d) by ring.
    exact Hlo. }
  destruct (ndigits_spec (coef d) Hc) as (Hd1 & Hd2 & _).
  assert (Hadj : (ndigits (coef d) + dexp d <= prec)%Z).
  { destruct (Z_le_gt_dec 0 (dexp d)) as [He|He].
    - rewrite (to_Q_nonneg_exp d Hs He), <- Zlt_Qlt in Hd.
      assert (0 < 10 ^ dexp d)%Z by (apply pow10_pos; assumption).
      assert (10 ^ (ndigits (coef d) - 1 + dexp d) < 10 ^ prec)%Z as Hpow.
      { rewrite Z.pow_add_r by lia. nia. }
      apply Z.pow_lt_mono_r_iff in Hpow; unfold prec in *; lia.
    - pose proof (to_Q_neg_exp d Hs ltac:(lia)) as Hv.
      assert (Hpp : (0 < 10 ^ (- dexp d))%Z) by (apply pow10_pos; lia).
      assert (Hc28 : (coef d < 10 ^ prec * 10 ^ (- dexp d))%Z).
      { rewrite Zlt_Qlt, inject_Z_mult, <- Hv.
        apply Qmult_lt_r; [|assumption].
        change 0 with (inject_Z 0). rewrite <- Zlt_Qlt. assumption. }
      rewrite <- Z.pow_add_r in Hc28 by (unfold prec; lia).
      assert (10 ^ (ndigits (coef d) - 1) < 10 ^ (prec + - dexp d))%Z as Hpow by lia.
      apply Z.pow_lt_mono_r_iff in Hpow; unfold prec in *; lia. }
  unfold quantize_1_half_up.
  replace (coef d =? 0)%Z with false by (symmetry; apply Z.eqb_neq; lia).
  replace (prec <? ndigits (coef d) + dexp d - 1 - 0 + 1)%Z with false
    by (symmetry; apply Z.ltb_ge; lia).
  rewrite Hn, coef_mk by assumption.
  replace (prec <? ndigits n)%Z with false.
  2:{ symmetry; apply Z.ltb_ge. apply ndigits_le; unfold prec in *; lia. }
  eexists; reflexivity.
Qed.

End Quantize.

(** ** The reported price of a row *)

Section ReportedPrice.

Import Dec Float Sql Api.

#[local] Open Scope Q_scope.

(** The entry of a row with a positive total, when [quantize] returns. *)
Lemma price_row_some (nights : Z) (prop : Row) (entry : Entry) :
  price_row nights prop = inr (Some entry) ->
  gt_zero (row_total nights prop) = true
  /\ exists n : Z,
       total_price entry = py_float (mk false n 0)
       /\ property_id entry = r_id prop
       /\ (0 <= n < 10 ^ prec)%Z
       /\ inject_Z n - (1 # 2) <= Dec.to_Q (row_total nights prop)
       /\ Dec.to_Q (row_total nights prop) < inject_Z n + (1 # 2).
Proof.
  unfold price_row.
  destruct (gt_zero (row_total nights prop)) eqn:Hgt; [|discriminate].
  destruct (quantize_1_half_up (row_total nights prop)) as [final|] eqn:Hq;
    [|discriminate].
  intros H. inversion H; subst entry; clear H. split; [reflexivity|].
  destruct (quantize_some _ _ Hgt Hq) as (n & -> & Hn & Hlo & Hhi).
  exists n. simpl. auto.
Qed.

(** A row whose total is not positive gives no entry. *)
Lemma price_row_not_positive (nights : Z) (prop : Row) :
  gt_zero (row_total nights prop) = false -> price_row nights prop = inr None.
Proof. unfold price_row. intros ->. reflexivity. Qed.

End ReportedPrice.

(** C2 (amended).  Whenever the total computed for a row is strictly positive
    and its rounding is below [2^53], the row gives an entry whose reported
    [total_price] is the total rounded to the nearest integer, a tie going up:
    a total [X + 1/2] is reported as [X + 1]. *)
Theorem C2_reported_price_rounds_half_up (nights : Z) (prop : Sql.Row) :
  Dec.gt_zero (Api.row_total nights prop) = true ->
  (Dec.to_Q (Api.row_total nights prop) + (1 # 2) < inject_Z (2 ^ 53))%Q ->
  exists (entry : Api.Entry) (n : Z),
    Api.price_row nights prop = inr (Some entry)
    /\ Float.has_value (Api.total_price entry) (inject_Z n)
    /\ (inject_Z n - (1 # 2) <= Dec.to_Q (Api.row_total nights prop))%Q
    /\ (Dec.to_Q (Api.row_total nights prop) < inject_Z n + (1 # 2))%Q
    /\ (forall X : Z,
          (Dec.to_Q (Api.row_total nights prop) == inject_Z X + (1 # 2))%Q ->
          n = X + 1).
Proof.
  intros Hgt Hlt.
  assert (Hlt' : (Dec.to_Q (Api.row_total nights prop) + (1 # 2)
                  < inject_Z (10 ^ Dec.prec))%Q).
  { eapply Qlt_trans; [exact Hlt|]. rewrite <- Zlt_Qlt. reflexivity. }
  destruct (quantize_in_range _ Hgt Hlt') as (final & Hq).
  destruct (quantize_some _ _ Hgt Hq) as (n & -> & Hn & Hlo & Hhi).
  assert (Hn53 : n < 2 ^ 53).
  { rewrite Zlt_Qlt. eapply Qle_lt_trans; [|exact Hlt].
    apply Qplus_le_l with (z := (- (1 # 2))%Q).
    setoid_replace (Dec.to_Q (Api.row_total nights prop) + (1 # 2) + - (1 # 2))%Q
      with (Dec.to_Q (Api.row_total nights prop)) by ring.
    exact Hlo. }
  eexists _, n. unfold Api.price_row. rewrite Hgt, Hq.
  split; [reflexivity|]. simpl Api.total_price.
  split; [apply py_float_small; lia|].
  split; [assumption|]. split; [assumption|].
  intros X HX. rewrite HX in Hlo, Hhi.
  assert (H1 : (inject_Z n <= inject_Z (X + 1))%Q).
  { rewrite inject_Z_plus. simpl (inject_Z 1).
    apply Qplus_le_l with (z := (- (1 # 2))%Q).
    eapply Qle_trans; [exact Hlo|]. apply Qle_lteq. right. ring. }
  assert (H2 : (inject_Z X < inject_Z n)%Q).
  { apply Qplus_lt_l with (z := (1 # 2)%Q). exact Hhi. }
  rewrite <- Zle_Qle in H1. rewrite <- Zlt_Qlt in H2. lia.
Qed.

(** The amended statement at five nights of 0.5 a night: the total 2.5 is
    reported as 3. *)
Lemma C2_witness :
  Dec.gt_zero (Api.row_total 5 Examples.row_half) = true
  /\ (Dec.to_Q (Api.row_total 5 Examples.row_half) + (1 # 2) < inject_Z (2 ^ 53))%Q
  /\ exists (entry : Api.Entry) (n : Z),
       Api.price_row 5 Examples.row_half = inr (Some entry)
       /\ Float.has_value (Api.total_price entry) (inject_Z n)
       /\ (inject_Z n - (1 # 2) <= Dec.to_Q (Api.row_total 5 Examples.row_half))%Q
       /\ (Dec.to_Q (Api.row_total 5 Examples.row_half) < inject_Z n + (1 # 2))%Q
       /\ (forall X : Z,
             (Dec.to_Q (Api.row_total 5 Examples.row_half) == inject_Z X + (1 # 2))%Q ->
             n = X + 1).
Proof.
  split; [reflexivity|]. split; [reflexivity|].
  apply (C2_reported_price_rounds_half_up 5 Examples.row_half); reflexivity.
Defined.

(** C2 as stated fails: five nights at 1801439850948199 a night total
    9007199254740995, an integer above [2^53] that is no binary64; the
    reported price is 9007199254740996. *)
Lemma C2_counterexample :
  Dec.gt_zero (Api.row_total 5 Examples.row_huge) = true
  /\ exists entry : Api.Entry,
       Api.price_row 5 Examples.row_huge = inr (Some entry)
       /\ forall n : Z,
            Float.has_value (Api.total_price entry) (inject_Z n) ->
            ~ ((inject_Z n - (1 # 2) <= Dec.to_Q (Api.row_total 5 Examples.row_huge))%Q
               /\ (Dec.to_Q (Api.row_total 5 Examples.row_huge) < inject_Z n + (1 # 2))%Q).
Proof.
  split; [reflexivity|].
  eexists. split; [vm_compute; reflexivity|].
  intros n Hv [Hlo Hhi].
  assert (Hn : n = 9007199254740996).
  { unfold Float.has_value in Hv. simpl in Hv.
    unfold Qeq in Hv. simpl in Hv. lia. }
  subst n. revert Hlo. vm_compute. intros H. apply H. reflexivity.
Qed.

(** ** Runs of the handler *)

Section Runs.

Import Dec Dates Sql Api.

Lemma strptime_nonempty (s : string) (d : date) :
  strptime s = Some d -> falsy_str (Some s) = false.
Proof. destruct s; [discriminate|reflexivity]. Qed.

Lemma falsy_int_nonzero (n : Z) : n <> 0 -> falsy_int (Some n) = false.
Proof. intros H. simpl. apply Z.eqb_neq. assumption. Qed.

(** A request with a falsy parameter is answered 400 and nothing else
    happens. *)
Lemma run_falsy (env : Env) (request : Request) :
  falsy_str (arg_start_date request) || falsy_str (arg_end_date request)
  || falsy_int (arg_num_bedrooms request) = true ->
  run env request = (inr Error400, initial_state).
Proof.
  unfold run, check_availability_and_price.
  destruct (arg_start_date request) as [s|], (arg_end_date request) as [e|],
    (arg_num_bedrooms request) as [n|]; try reflexivity.
  intros ->. reflexivity.
Qed.

(** What a run does for well-formed parameters and a stay of four nights or
    more, according to the call at which the driver raises. *)
Lemma run_search (env : Env) (s e : string) (nb : Z) (ds de : date) :
  strptime s = Some ds -> strptime e = Some de -> nb <> 0 ->
  4 <= days_between ds de ->
  run env (mkRequest (Some s) (Some e) (Some nb)) =
    let rows := rows_of env nb ds de in
    match raises_at env with
    | Some Connect =>
        (inr (Error500 (DatabaseError Connect)), mkState [Connect] 0 [])
    | Some Cursor =>
        (inr (Error500 (DatabaseError Cursor)), mkState [Connect; Cursor] 1 [])
    | Some Execute =>
        (inr (Error500 (DatabaseError Execute)),
         mkState [Connect; Cursor; Execute] 1 [])
    | Some Fetchall =>
        (inr (Error500 (DatabaseError Fetchall)),
         mkState [Connect; Cursor; Execute; Fetchall] 1 rows)
    | Some CursorClose =>
        (inr (Error500 (DatabaseError CursorClose)),
         mkState [Connect; Cursor; Execute; Fetchall; CursorClose] 1 rows)
    | Some ConnClose =>
        (inr (Error500 (DatabaseError ConnClose)),
         mkState [Connect; Cursor; Execute; Fetchall; CursorClose; ConnClose]
           1 rows)
    | None =>
        (match price_rows (days_between ds de) rows [] with
         | inr results => inr (Ok200 results)
         | inl ex => inr (Error500 ex)
         end,
         mkState [Connect; Cursor; Execute; Fetchall; CursorClose; ConnClose]
           0 rows)
    end.
Proof.
  intros Hs He Hnb Hn.
  unfold run.
  cbv beta iota zeta delta [check_availability_and_price arg_start_date
                              arg_end_date arg_num_bedrooms].
  rewrite (strptime_nonempty _ _ Hs), (strptime_nonempty _ _ He),
    (falsy_int_nonzero _ Hnb).
  unfold try_except, bind, parse_date. rewrite Hs, He.
  cbv beta iota zeta delta [ret orb].
  replace (days_between ds de <? 4) with false by (symmetry; apply Z.ltb_ge; lia).
  cbv beta iota.
  unfold get_db_connection, conn_cursor, cur_execute, cur_fetchall, cur_close,
    conn_close, bind, db_call, date_in, lift, ret, raise, rows_of.
  rewrite Hs, He.
  destruct (raises_at env) as [[| | | | |]|]; simpl; try reflexivity.
  destruct (price_rows _ _ _); reflexivity.
Qed.

(** A short stay: nothing is asked of the data store. *)
Lemma run_short (env : Env) (s e : string) (nb : Z) (ds de : date) :
  strptime s = Some ds -> strptime e = Some de -> nb <> 0 ->
  days_between ds de < 4 ->
  run env (mkRequest (Some s) (Some e) (Some nb))
  = (inr Ok200Null, initial_state).
Proof.
  intros Hs He Hnb Hn.
  unfold run.
  cbv beta iota zeta delta [check_availability_and_price arg_start_date
                              arg_end_date arg_num_bedrooms].
  rewrite (strptime_nonempty _ _ Hs), (strptime_nonempty _ _ He),
    (falsy_int_nonzero _ Hnb).
  unfold try_except, bind, parse_date. rewrite Hs, He.
  cbv beta iota zeta delta [ret orb].
  replace (days_between ds de <? 4) with true by (symmetry; apply Z.ltb_lt; lia).
  reflexivity.
Qed.

(** A date that [strptime] rejects: the [ValueError] is answered 500. *)
Lemma run_malformed (env : Env) (s e : string) (nb : Z) :
  falsy_str (Some s) = false -> falsy_str (Some e) = false -> nb <> 0 ->
  strptime s = None \/ strptime e = None ->
  run env (mkRequest (Some s) (Some e) (Some nb))
  = (inr (Error500 ValueError), initial_state).
Proof.
  intros Hs He Hnb Hbad.
  unfold run.
  cbv beta iota zeta delta [check_availability_and_price arg_start_date
                              arg_end_date arg_num_bedrooms].
  rewrite Hs, He, (falsy_int_nonzero _ Hnb).
  cbv beta iota zeta delta [orb].
  unfold try_except, bind, parse_date.
  destruct (strptime s) as [ds|]; [|reflexivity].
  destruct Hbad as [Hbad|Hbad]; [discriminate|]. rewrite Hbad. reflexivity.
Qed.

End Runs.



(** C6 (the code at the failing input, in general).  A request whose
    parameters are all present and whose start or end date is rejected by
    [strptime] is answered 500 with the [ValueError], not 400; the data store
    is not called. *)
Theorem C6_malformed_date_answered_500
    (env : Api.Env) (s e : string) (nb : Z) :
  s <> EmptyString -> e <> EmptyString -> nb <> 0 ->
  Dates.strptime s = None \/ Dates.strptime e = None ->
  Api.run env (Api.mkRequest (Some s) (Some e) (Some nb))
  = (inr (Api.Error500 Api.ValueError), Api.initial_state).
Proof.
  intros Hs He Hnb Hbad. apply run_malformed; try assumption.
  - destruct s; [contradiction|reflexivity].
  - destruct e; [contradiction|reflexivity].
Qed.

(** The run at a start date in month 13. *)
Lemma C6_witness :
  Api.run Examples.env1
    (Api.mkRequest (Some "2025-13-01"%string) (Some "2025-10-25"%string) (Some 1))
  = (inr (Api.Error500 Api.ValueError), Api.initial_state).
Proof.
  apply (C6_malformed_date_answered_500 Examples.env1 "2025-13-01" "2025-10-25" 1).
  - discriminate.
  - discriminate.
  - discriminate.
  - left. reflexivity.
Defined.

(** A missing or empty date is answered 400, and the data store is not
    called. *)
Lemma missing_date_answered_400 (env : Api.Env) (request : Api.Request) :
  Api.falsy_str (Api.arg_start_date request) = true
  \/ Api.falsy_str (Api.arg_end_date request) = true ->
  Api.run env request = (inr Api.Error400, Api.initial_state).
Proof.
  intros [H|H]; apply run_falsy; rewrite H.
  - reflexivity.
  - rewrite orb_true_r. reflexivity.
Qed.

(** C8 (the code at the failing input, in general).  When the driver raises
    at the execution of the query, the handler answers 500 after the calls
    [connect], [cursor] and [execute]: [conn.close()] is not called and the
    connection is still open when the response is produced. *)
Theorem C8_connection_left_open_when_query_fails
    (env : Api.Env) (s e : string) (nb : Z) (ds de : Dates.date) :
  Dates.strptime s = Some ds -> Dates.strptime e = Some de ->
  nb <> 0 ->
  4 <= Dates.days_between ds de ->
  Api.raises_at env = Some Api.Execute ->
  Api.run env (Api.mkRequest (Some s) (Some e) (Some nb))
  = (inr (Api.Error500 (Api.DatabaseError Api.Execute)),
     Api.mkState [Api.Connect; Api.Cursor; Api.Execute] 1 []).
Proof.
  intros Hs He Hnb Hn Hr. rewrite (run_search env s e nb ds de) by assumption.
  cbv zeta. rewrite Hr. reflexivity.
Qed.

(** The run for ten nights when the execution of the query raises. *)
Lemma C8_witness :
  Api.run Examples.env_execute_raises
    (Api.mkRequest (Some "2025-10-20"%string) (Some "2025-10-30"%string) (Some 1))
  = (inr (Api.Error500 (Api.DatabaseError Api.Execute)),
     Api.mkState [Api.Connect; Api.Cursor; Api.Execute] 1 []).
Proof.
  apply (C8_connection_left_open_when_query_fails Examples.env_execute_raises
           "2025-10-20" "2025-10-30" 1
           (Dates.mkDate 2025 10 20) (Dates.mkDate 2025 10 30)).
  - reflexivity.
  - reflexivity.
  - discriminate.
  - vm_compute. discriminate.
  - reflexivity.
Defined.

(** On the other paths that acquire a connection: it is closed when no call
    raises, and left open when any call after [connect] raises. *)
Lemma connection_after_run
    (env : Api.Env) (s e : string) (nb : Z) (ds de : Dates.date) :
  Dates.strptime s = Some ds -> Dates.strptime e = Some de ->
  nb <> 0 ->
  4 <= Dates.days_between ds de ->
  Api.open_connections
    (snd (Api.run env (Api.mkRequest (Some s) (Some e) (Some nb))))
  = match Api.raises_at env with
    | None | Some Api.Connect => 0%nat
    | Some _ => 1%nat
    end.
Proof.
  intros Hs He Hnb Hn. rewrite (run_search env s e nb ds de) by assumption.
  cbv zeta. destruct (Api.raises_at env) as [[| | | | |]|]; reflexivity.
Qed.

(** C10.  A request with [num_bedrooms = 0], like one whose [num_bedrooms]
    is absent or is no integer, is answered with the 400 of the missing
    parameters, whatever its dates: neither the dates are parsed nor the data
    store is called. *)
Theorem C10_zero_bedrooms_answered_400
    (env : Api.Env) (start_date end_date : option string) :
  Api.run env (Api.mkRequest start_date end_date (Some 0))
  = (inr Api.Error400, Api.initial_state)
  /\ Api.run env (Api.mkRequest start_date end_date None)
     = (inr Api.Error400, Api.initial_state).
Proof.
  split; apply run_falsy; simpl; apply orb_true_r.
Qed.

(** ** The rows of the query *)

Section QueryRows.

Import Dec Dates Sql.

Lemma insert_by_id_In x y l : In x (insert_by_id y l) <-> x = y \/ In x l.
Proof.
  induction l as [|z l IH]; simpl.
  - intuition.
  - destruct (key y <=? key z); simpl; [intuition|].
    rewrite IH. intuition.
Qed.

Lemma order_by_id_In x l : In x (order_by_id l) <-> In x l.
Proof.
  induction l as [|z l IH]; simpl; [tauto|].
  rewrite insert_by_id_In, IH. intuition.
Qed.

Lemma insert_by_id_head x l :
  (forall z, In z l -> key x <= key z) -> insert_by_id x l = x :: l.
Proof.
  destruct l as [|y l]; [reflexivity|]. intros H. simpl.
  replace (key x <=? key y) with true; [reflexivity|].
  symmetry; apply Z.leb_le. apply (H y). left; reflexivity.
Qed.

Lemma insert_by_id_sorted x l : sorted_by_id l -> sorted_by_id (insert_by_id x l).
Proof.
  unfold sorted_by_id. induction l as [|y l IH]; intros Hs; simpl.
  - constructor; constructor.
  - inversion Hs as [|? ? Hl Hy]; subst.
    destruct (key x <=? key y) eqn:E.
    + apply Z.leb_le in E. constructor; [assumption|].
      constructor; [exact E|].
      rewrite Forall_forall in *. intros z Hz. specialize (Hy z Hz). lia.
    + apply Z.leb_gt in E. constructor; [apply IH; assumption|].
      rewrite Forall_forall in *. intros z Hz.
      apply insert_by_id_In in Hz as [->|Hz]; [lia|auto].
Qed.

Lemma order_by_id_sorted l : sorted_by_id (order_by_id l).
Proof.
  induction l as [|x l IH]; simpl; [constructor|].
  apply insert_by_id_sorted; assumption.
Qed.

(** Filtering commutes with the insertion in a sorted list. *)
Lemma filter_insert_by_id (Q : Property * option PricingRule -> bool) x l :
  sorted_by_id l ->
  filter Q (insert_by_id x l)
  = if Q x then insert_by_id x (filter Q l) else filter Q l.
Proof.
  unfold sorted_by_id. induction l as [|y l IH]; intros Hs.
  - simpl. destruct (Q x); reflexivity.
  - inversion Hs as [|? ? Hl Hy]; subst. rewrite Forall_forall in Hy.
    cbn [insert_by_id].
    destruct (key x <=? key y) eqn:E.
    + apply Z.leb_le in E. cbn [filter]. destruct (Q x); [|reflexivity].
      symmetry. apply insert_by_id_head.
      intros z Hz.
      assert (Hz' : In z (y :: l)).
      { destruct (Q y); [|right; apply filter_In in Hz; tauto].
        destruct Hz as [->|Hz]; [left; reflexivity|].
        right; apply filter_In in Hz; tauto. }
      destruct Hz' as [->|Hz']; [exact E|].
      specialize (Hy z Hz'). lia.
    + cbn [filter]. rewrite (IH Hl).
      destruct (Q y), (Q x); cbn [insert_by_id]; try rewrite E; reflexivity.
Qed.

(** Filtering commutes with the ordering. *)
Lemma filter_order_by_id (Q : Property * option PricingRule -> bool) l :
  filter Q (order_by_id l) = order_by_id (filter Q l).
Proof.
  induction l as [|x l IH]; [reflexivity|].
  cbn [order_by_id filter].
  rewrite filter_insert_by_id by apply order_by_id_sorted.
  rewrite IH. destruct (Q x); reflexivity.
Qed.

(** Rows of one property keep their order. *)
Lemma order_by_id_same_key (k : Z) l :
  (forall x, In x l -> key x = k) -> order_by_id l = l.
Proof.
  induction l as [|x l IH]; intros H; [reflexivity|].
  cbn [order_by_id]. rewrite IH by (intros z Hz; apply H; right; assumption).
  apply insert_by_id_head. intros z Hz.
  rewrite (H x), (H z); [lia|right; assumption|left; reflexivity].
Qed.

Lemma filter_filter_and {A} (f g : A -> bool) (l : list A) :
  filter f (filter g l) = filter (fun x => g x && f x) l.
Proof.
  induction l as [|x l IH]; [reflexivity|].
  simpl. destruct (g x); simpl; [destruct (f x)|]; rewrite IH; reflexivity.
Qed.

Lemma filter_map_comm {A B} (f : A -> B) (g : B -> bool) (l : list A) :
  filter g (map f l) = map f (filter (fun x => g (f x)) l).
Proof.
  induction l as [|x l IH]; [reflexivity|].
  simpl. destruct (g (f x)); simpl; rewrite IH; reflexivity.
Qed.

Lemma filter_flat_map {A B} (f : A -> list B) (g : B -> bool) (l : list A) :
  filter g (flat_map f l) = flat_map (fun x => filter g (f x)) l.
Proof.
  induction l as [|x l IH]; [reflexivity|].
  simpl. rewrite filter_app, IH. reflexivity.
Qed.

Lemma joined_fst rs p x : In x (joined rs p) -> fst x = p.
Proof.
  unfold joined.
  destruct (filter _ rs) as [|r ms].
  - intros [<-|[]]. reflexivity.
  - intros H. apply in_map_iff in H as (r' & <- & _). reflexivity.
Qed.

(** With unique identifiers, the joined rows with the identifier of [p] are
    the rows made for [p]. *)
Lemma left_join_of_property ps rs p :
  NoDup (map p_id ps) -> In p ps ->
  filter (fun x => key x =? p_id p) (left_join ps rs) = joined rs p.
Proof.
  intros Hnd Hin. unfold left_join. rewrite filter_flat_map.
  assert (Hall : forall q,
            p_id q = p_id p ->
            filter (fun x => key x =? p_id p) (joined rs q) = joined rs q).
  { intros q Hk. apply forallb_filter_id. apply forallb_forall.
    intros x Hx. apply joined_fst in Hx. unfold key. rewrite Hx.
    apply Z.eqb_eq. assumption. }
  assert (Hnone : forall q,
            p_id q <> p_id p ->
            filter (fun x => key x =? p_id p) (joined rs q) = []).
  { intros q Hk.
    destruct (filter _ (joined rs q)) as [|x l] eqn:El; [reflexivity|exfalso].
    assert (Hx : In x (filter (fun x => key x =? p_id p) (joined rs q)))
      by (rewrite El; left; reflexivity).
    apply filter_In in Hx as [Hx Hkx]. apply joined_fst in Hx.
    apply Z.eqb_eq in Hkx. unfold key in Hkx. rewrite Hx in Hkx. contradiction. }
  induction ps as [|q ps IH]; [contradiction|].
  simpl in Hnd. inversion Hnd as [|? ? Hq Hnd']; subst.
  cbn [flat_map]. destruct Hin as [->|Hin].
  - rewrite Hall by reflexivity.
    replace (flat_map _ ps) with (@nil (Property * option PricingRule));
      [apply app_nil_r|].
    symmetry. clear IH Hnd Hnd'.
    induction ps as [|q ps IH]; [reflexivity|].
    cbn [flat_map]. rewrite Hnone, IH; [reflexivity| |].
    + intros H. apply Hq. right. assumption.
    + intros E. apply Hq. left. assumption.
  - rewrite Hnone, (IH Hnd' Hin); [reflexivity|].
    intros E. apply Hq. rewrite E. apply in_map. assumption.
Qed.

End QueryRows.

(** ** The WHERE clause *)

Section WhereClause.

Import Dec Dates Sql.

Lemma sql_query_In db nb n1 n2 n3 n4 e s row :
  In row (sql_query db nb n1 n2 n3 n4 e s) <->
  exists x, In x (left_join (properties db) (pricing_rules db))
            /\ is_true (where_clause db nb n1 n2 n3 n4 e s x) = true
            /\ select x = row.
Proof.
  unfold sql_query. rewrite in_map_iff. split.
  - intros (x & Hsel & Hx). apply order_by_id_In, filter_In in Hx.
    exists x. tauto.
  - intros (x & Hx & Hw & Hsel). exists x. split; [assumption|].
    apply order_by_id_In, filter_In. tauto.
Qed.

Lemma is_true_and a b :
  is_true (sql_and a b) = true <-> is_true a = true /\ is_true b = true.
Proof.
  destruct a as [[|]|], b as [[|]|]; simpl; intuition discriminate.
Qed.

Lemma is_true_Some (b : bool) : is_true (Some b) = b.
Proof. destruct b; reflexivity. Qed.

(** The WHERE clause is TRUE on a joined row when its four conditions are. *)
Lemma where_clause_true db nb n1 n2 n3 n4 e s p pr :
  is_true (where_clause db nb n1 n2 n3 n4 e s (p, pr)) = true <->
  p_num_bedrooms p = nb /\ p_min_stay_nights p <= n1
  /\ rule_condition pr n2 n3 n4 = Some true
  /\ existsb (Z.eqb (p_id p)) (booked_ids (bookings db) e s) = false.
Proof.
  unfold where_clause. rewrite !is_true_and, !is_true_Some.
  rewrite Z.eqb_eq, Z.leb_le, negb_true_iff.
  assert (H : is_true (rule_condition pr n2 n3 n4) = true
              <-> rule_condition pr n2 n3 n4 = Some true).
  { destruct (rule_condition pr n2 n3 n4) as [[|]|]; simpl;
      intuition discriminate. }
  rewrite H. tauto.
Qed.

(** The bookings that the subquery selects for a property. *)
Lemma booked_iff bs e s pid :
  existsb (Z.eqb pid) (booked_ids bs e s) = true <->
  exists b, In b bs /\ b_property_id b = pid
            /\ toordinal (b_start_date b) < toordinal e
            /\ toordinal s < toordinal (b_end_date b).
Proof.
  rewrite existsb_exists. unfold booked_ids. split.
  - intros (x & Hx & Heq). apply in_map_iff in Hx as (b & <- & Hb).
    apply filter_In in Hb as [Hb Ho]. unfold overlaps, date_ltb in Ho.
    apply andb_true_iff in Ho as [H1 H2].
    apply Z.ltb_lt in H1, H2. apply Z.eqb_eq in Heq.
    exists b. auto.
  - intros (b & Hb & Hid & H1 & H2). exists pid. split; [|apply Z.eqb_refl].
    apply in_map_iff. exists b. split; [assumption|].
    apply filter_In. split; [assumption|].
    unfold overlaps, date_ltb. apply andb_true_iff.
    split; apply Z.ltb_lt; assumption.
Qed.

Lemma r_id_select x : r_id (select x) = key x.
Proof. destruct x as [p pr]. reflexivity. Qed.

End WhereClause.



(** ** The loop over the rows *)

Section Loop.

Import Dec Float Dates Sql Api.

(** When the loop ends without an exception, [results] has grown by the
    entries of the rows, in order. *)
Lemma price_rows_spec (n : Z) (rows : list Row) : forall acc results,
  price_rows n rows acc = inr results ->
  results = acc ++ flat_map (entries_of_row n) rows.
Proof.
  induction rows as [|prop rows IH]; intros acc results H; simpl in H.
  - inversion H. rewrite app_nil_r. reflexivity.
  - cbn [flat_map]. unfold entries_of_row at 1.
    destruct (price_row n prop) as [ex|[entry|]]; [discriminate| |].
    + rewrite (IH _ _ H), <- app_assoc. reflexivity.
    + apply (IH _ _ H).
Qed.

Lemma entries_of_row_In (n : Z) (prop : Row) (entry : Entry) :
  In entry (entries_of_row n prop) <-> price_row n prop = inr (Some entry).
Proof.
  unfold entries_of_row.
  destruct (price_row n prop) as [ex|[entry'|]]; simpl.
  - split; [contradiction|discriminate].
  - split; [intros [->|[]]; reflexivity|].
    intros H. inversion H. left; reflexivity.
  - split; [contradiction|discriminate].
Qed.

(** What a run that answers a list has done. *)
Lemma run_ok_inv (env : Env) (request : Request) (results : list Entry) :
  fst (run env request) = inr (Ok200 results) ->
  exists s e nb ds de,
    request = mkRequest (Some s) (Some e) (Some nb)
    /\ strptime s = Some ds /\ strptime e = Some de /\ nb <> 0
    /\ 4 <= days_between ds de
    /\ raises_at env = None
    /\ price_rows (days_between ds de) (rows_of env nb ds de) []
       = inr results
    /\ snd (run env request)
       = mkState [Connect; Cursor; Execute; Fetchall; CursorClose; ConnClose]
           0 (rows_of env nb ds de).
Proof.
  intros H.
  destruct (falsy_str (arg_start_date request) || falsy_str (arg_end_date request)
            || falsy_int (arg_num_bedrooms request)) eqn:Ef.
  { rewrite (run_falsy _ _ Ef) in H. discriminate. }
  apply orb_false_iff in Ef as [Ef Hnb]. apply orb_false_iff in Ef as [Hs He].
  destruct request as [[s|] [e|] [nb|]]; simpl in Hs, He, Hnb; try discriminate.
  apply Z.eqb_neq in Hnb.
  destruct (strptime s) as [ds|] eqn:Es.
  2:{ rewrite run_malformed in H by auto. discriminate. }
  destruct (strptime e) as [de|] eqn:Ee.
  2:{ rewrite run_malformed in H by auto. discriminate. }
  destruct (Z_lt_le_dec (days_between ds de) 4) as [Hn|Hn].
  - rewrite (run_short env s e nb ds de) in * by assumption.
    discriminate.
  - rewrite (run_search env s e nb ds de) in * by assumption.
    cbv zeta in *.
    destruct (raises_at env) as [[| | | | |]|]; try discriminate.
    simpl in H.
    destruct (price_rows _ _ _) as [ex|res] eqn:Ep; [discriminate|].
    inversion H; subst res.
    exists s, e, nb, ds, de. repeat split; assumption.
Qed.

End Loop.

(** C5 (amended).  Every entry of a returned list comes from a row of the
    query whose computed total is strictly positive, so that a candidate
    whose total is zero or negative never appears; its [total_price] is a
    non-negative integer, and it is at least 1 whenever the total is at least
    one half. *)
Theorem C5_entries_have_integer_prices
    (env : Api.Env) (request : Api.Request) (results : list Api.Entry)
    (entry : Api.Entry) :
  fst (Api.run env request) = inr (Api.Ok200 results) ->
  In entry results ->
  exists (nights : Z) (prop : Sql.Row) (z : Z),
    In prop (Api.result_set (snd (Api.run env request)))
    /\ Api.price_row nights prop = inr (Some entry)
    /\ Dec.gt_zero (Api.row_total nights prop) = true
    /\ Float.has_value (Api.total_price entry) (inject_Z z)
    /\ 0 <= z
    /\ ((1 # 2 <= Dec.to_Q (Api.row_total nights prop))%Q -> 1 <= z).
Proof.
  intros Hrun Hin.
  destruct (run_ok_inv _ _ _ Hrun)
    as (s & e & nb & ds & de & -> & Hs & He & Hnb & Hn & Hr & Hp & Hst).
  rewrite Hst. simpl Api.result_set.
  apply price_rows_spec in Hp. simpl in Hp. subst results.
  apply in_flat_map in Hin as (prop & Hprop & Hentry).
  apply entries_of_row_In in Hentry.
  destruct (price_row_some _ _ _ Hentry) as (Hgt & n & Hf & _ & Hn28 & Hlo & Hhi).
  destruct (py_float_int n Hn28) as (z & Hz & Hz0 & Hz1).
  exists (Dates.days_between ds de), prop, z.
  rewrite Hf. repeat split; try assumption.
  intros Hhalf. apply Hz1.
  assert (Hlt : (inject_Z 0 < inject_Z n)%Q).
  { apply Qplus_lt_l with (z := (1 # 2)%Q).
    eapply Qle_lt_trans; [|exact Hhi].
    eapply Qle_trans; [|exact Hhalf]. discriminate. }
  rewrite <- Zlt_Qlt in Hlt. lia.
Qed.

(** The amended statement at the entry of apartment 1 for ten nights from
    2025-10-20 in the sample data store. *)
Lemma C5_witness :
  exists (nights : Z) (prop : Sql.Row) (z : Z),
    In prop (Api.result_set (snd (Api.run Examples.env1 Examples.request_ten_nights)))
    /\ Api.price_row nights prop = inr (Some Examples.entry_ten_nights)
    /\ Dec.gt_zero (Api.row_total nights prop) = true
    /\ Float.has_value (Api.total_price Examples.entry_ten_nights) (inject_Z z)
    /\ 0 <= z
    /\ ((1 # 2 <= Dec.to_Q (Api.row_total nights prop))%Q -> 1 <= z).
Proof.
  eapply (C5_entries_have_integer_prices Examples.env1 Examples.request_ten_nights
            _ Examples.entry_ten_nights).
  - vm_compute. reflexivity.
  - left. reflexivity.
Defined.

(** C5 as stated fails: four nights at 0.1 a night total 0.4, which is
    positive and is rounded to 0: the list holds an entry whose [total_price]
    is 0. *)
Lemma C5_counterexample :
  exists (results : list Api.Entry) (entry : Api.Entry),
    fst (Api.run Examples.env1 Examples.request_four_nights) = inr (Api.Ok200 results)
    /\ In entry results
    /\ forall q : Q, Float.has_value (Api.total_price entry) q -> ~ (0 < q)%Q.
Proof.
  eexists _, _. split; [vm_compute; reflexivity|].
  split; [right; left; reflexivity|].
  intros q Hv Hq. unfold Float.has_value in Hv. simpl in Hv.
  rewrite <- Hv in Hq. revert Hq. vm_compute. discriminate.
Qed.

(** ** Rows without a rule *)

Section Unmatched.

Import Dec Dates Sql Api.

(** The WHERE clause as a boolean. *)
Lemma where_clause_bool db nb n1 n2 n3 n4 e s p pr :
  is_true (where_clause db nb n1 n2 n3 n4 e s (p, pr))
  = (p_num_bedrooms p =? nb) && (p_min_stay_nights p <=? n1)
    && is_true (rule_condition pr n2 n3 n4)
    && negb (existsb (Z.eqb (p_id p)) (booked_ids (bookings db) e s)).
Proof.
  unfold where_clause.
  destruct (p_num_bedrooms p =? nb), (p_min_stay_nights p <=? n1),
    (rule_condition pr n2 n3 n4) as [[|]|],
    (existsb (Z.eqb (p_id p)) (booked_ids (bookings db) e s)); reflexivity.
Qed.

(** On a NULL-extended row the rule condition is UNKNOWN. *)
Lemma rule_condition_null n2 n3 n4 : rule_condition None n2 n3 n4 = None.
Proof. unfold rule_condition. simpl. destruct (30 <=? n4); reflexivity. Qed.

Lemma where_clause_null db nb n1 n2 n3 n4 e s p :
  is_true (where_clause db nb n1 n2 n3 n4 e s (p, None)) = false.
Proof.
  rewrite where_clause_bool, rule_condition_null. simpl.
  rewrite andb_false_r. reflexivity.
Qed.

(** A row without rates gives no entry. *)
Lemma price_row_no_rates nights p :
  price_row nights (select (p, None)) = inr None.
Proof.
  apply price_row_not_positive. unfold row_total, compute_total. simpl.
  destruct (30 <=? nights); reflexivity.
Qed.

(** Rows without a rule do not change what the loop returns. *)
Lemma price_rows_matched nights l : forall acc,
  price_rows nights (map select (filter matched l)) acc
  = price_rows nights (map select l) acc.
Proof.
  induction l as [|[p [r|]] l IH]; intros acc; [reflexivity| |].
  - cbn [filter matched snd map price_rows].
    destruct (price_row nights (select (p, Some r))) as [ex|[entry|]];
      [reflexivity| |]; apply IH.
  - cbn [filter matched snd map price_rows].
    rewrite price_row_no_rates. apply IH.
Qed.

End Unmatched.

(** C7 (amended).  The join is written as an outer join, but the WHERE clause
    is never TRUE on the NULL-extended row of a property that matches no rule,
    so such a property is not a row of the query.  Had it been passed on as a
    candidate without rates, it would have given no entry: the final result
    is the same whether such properties are filtered out by the query or
    dropped after pricing. *)
Theorem C7_outer_join_makes_no_difference :
  (forall (db : Sql.Database) (nb n1 n2 n3 n4 : Z) (e s : Dates.date)
          (p : Sql.Property),
     Sql.is_true (Sql.where_clause db nb n1 n2 n3 n4 e s (p, None)) = false)
  /\ (forall (nights : Z) (p : Sql.Property),
        Api.price_row nights (Sql.select (p, None)) = inr None)
  /\ (forall (db : Sql.Database) (nb nights : Z) (e s : Dates.date),
        Api.price_rows nights
          (Sql.sql_query db nb nights nights nights nights e s) []
        = Api.price_rows nights (Spec.candidates db nb nights e s) []).
Proof.
  split; [exact where_clause_null|]. split; [exact price_row_no_rates|].
  intros db nb nights e s. unfold Sql.sql_query, Spec.candidates.
  match goal with
  | |- _ = Api.price_rows _ (map _ (Sql.order_by_id ?L)) _ =>
      rewrite <- (price_rows_matched nights (Sql.order_by_id L))
  end.
  rewrite (filter_order_by_id Sql.matched), filter_filter_and.
  do 3 f_equal. apply filter_ext. intros [p [r|]].
  - rewrite where_clause_bool. cbn [fst snd Sql.matched].
    rewrite andb_true_r. reflexivity.
  - rewrite where_clause_null. cbn [fst snd Sql.matched].
    rewrite andb_false_r. reflexivity.
Qed.

(** C7 as stated fails: apartment 3 of the sample data store matches no rule
    and satisfies the other conditions for ten nights from 2025-10-20, and it
    is no row of the query, although the reading of the specification makes it
    a candidate. *)
Lemma C7_counterexample :
  ~ In 3 (map Sql.r_id
            (Sql.sql_query Examples.db1 1 10 10 10 10
               (Dates.mkDate 2025 10 30) (Dates.mkDate 2025 10 20)))
  /\ In 3 (map Sql.r_id
             (Spec.candidates Examples.db1 1 10
                (Dates.mkDate 2025 10 30) (Dates.mkDate 2025 10 20)))
  /\ In (Sql.mkProperty 3 "C" "three" 1 4 "cat3") (Sql.properties Examples.db1).
Proof.
  split; [|split].
  - vm_compute. intuition discriminate.
  - vm_compute. intuition.
  - vm_compute. intuition.
Qed.

(** ** The rows and the entries of one property *)

Section RowsOfProperty.

Import Dec Dates Sql Api.

(** The rule rows that qualify for a stay, for a property. *)
Lemma rows_of_property db nb nights e s p :
  NoDup (map p_id (properties db)) -> In p (properties db) ->
  p_num_bedrooms p = nb -> p_min_stay_nights p <= nights ->
  existsb (Z.eqb (p_id p)) (booked_ids (bookings db) e s) = false ->
  filter (fun row => r_id row =? p_id p)
    (sql_query db nb nights nights nights nights e s)
  = map (fun r => select (p, Some r))
      (filter (fun r => String.eqb (p_pricing_category p) (pr_category r)
                        && is_true (rule_condition (Some r) nights nights nights))
         (pricing_rules db)).
Proof.
  intros Hnd Hin Hnb Hms Hfree. unfold sql_query.
  set (W := fun row => is_true (where_clause db nb nights nights nights nights e s row)).
  rewrite filter_map_comm.
  rewrite (filter_ext _ (fun x => key x =? p_id p))
    by (intros x; rewrite r_id_select; reflexivity).
  rewrite filter_order_by_id, filter_filter_and.
  rewrite (filter_ext _ (fun x => (key x =? p_id p) && W x))
    by (intros x; apply andb_comm).
  rewrite <- filter_filter_and, left_join_of_property by assumption.
  rewrite (order_by_id_same_key (p_id p)).
  2:{ intros x Hx. apply filter_In in Hx as [Hx _].
      apply joined_fst in Hx. unfold key. rewrite Hx. reflexivity. }
  assert (HW : forall r, W (p, Some r)
                         = is_true (rule_condition (Some r) nights nights nights)).
  { intros r. unfold W. rewrite where_clause_bool, Hfree.
    replace (p_num_bedrooms p =? nb) with true by (symmetry; apply Z.eqb_eq; assumption).
    replace (p_min_stay_nights p <=? nights) with true
      by (symmetry; apply Z.leb_le; assumption).
    simpl. apply andb_true_r. }
  unfold joined. rewrite <- filter_filter_and.
  destruct (filter (fun r => (p_pricing_category p =? pr_category r)%string)
              (pricing_rules db)) as [|r0 ms].
  - cbn [filter]. unfold W at 1. rewrite where_clause_null. reflexivity.
  - rewrite filter_map_comm, map_map.
    rewrite (filter_ext _ _ HW). reflexivity.
Qed.

(** The entry of a row carries the identifier of the row. *)
Lemma entries_of_row_id nights row pid :
  filter (fun en => property_id en =? pid) (entries_of_row nights row)
  = if r_id row =? pid then entries_of_row nights row else [].
Proof.
  unfold entries_of_row.
  destruct (price_row nights row) as [ex|[entry|]] eqn:E;
    try (destruct (r_id row =? pid); reflexivity).
  destruct (price_row_some _ _ _ E) as (_ & n & _ & Hid & _).
  cbn [filter]. rewrite Hid. destruct (r_id row =? pid); reflexivity.
Qed.

Lemma entries_of_property nights rows pid :
  filter (fun en => property_id en =? pid) (flat_map (entries_of_row nights) rows)
  = flat_map (entries_of_row nights) (filter (fun row => r_id row =? pid) rows).
Proof.
  induction rows as [|row rows IH]; [reflexivity|].
  cbn [flat_map filter]. rewrite filter_app, IH, entries_of_row_id.
  destruct (r_id row =? pid); reflexivity.
Qed.

(** When the loop ends without an exception, no row has raised. *)
Lemma price_rows_no_exception nights rows : forall acc results row,
  price_rows nights rows acc = inr results -> In row rows ->
  exists o, price_row nights row = inr o.
Proof.
  induction rows as [|prop rows IH]; intros acc results row H Hin;
    [contradiction|].
  simpl in H. destruct Hin as [->|Hin].
  - destruct (price_row nights row) as [ex|o]; [discriminate|]. eauto.
  - destruct (price_row nights prop) as [ex|[entry|]]; [discriminate| |];
      eapply IH; eassumption.
Qed.

(** A row contributes one entry when its total is positive, none otherwise. *)
Lemma entries_of_row_length nights rows acc results row :
  price_rows nights rows acc = inr results -> In row rows ->
  List.length (entries_of_row nights row)
  = if gt_zero (row_total nights row) then 1%nat else 0%nat.
Proof.
  intros H Hin.
  destruct (price_rows_no_exception _ _ _ _ _ H Hin) as [o Ho].
  unfold entries_of_row. rewrite Ho. unfold price_row in Ho.
  destruct (gt_zero (row_total nights row)).
  - destruct (quantize_1_half_up (row_total nights row)); [|discriminate].
    inversion Ho. reflexivity.
  - inversion Ho. reflexivity.
Qed.

End RowsOfProperty.

(** C9 (amended).  For a property that satisfies the conditions of the query,
    the query returns one row per rule row of its category that qualifies for
    the stay.  Every row is priced on its own: when the loop ends, the entries
    with the identifier of the property are those of its rows, in order, one
    for each row whose total is positive and none for a row whose total is
    not; nothing is removed and no rule is preferred.  For 41 nights from
    2025-10-20, apartment 1 of the sample data store appears twice, at 3280000
    by its nightly rule and at 1230000 by its monthly rule. *)
Theorem C9_one_entry_per_priced_rule_row :
  (forall (db : Sql.Database) (nb nights : Z) (e s : Dates.date)
          (p : Sql.Property),
     NoDup (map Sql.p_id (Sql.properties db)) ->
     In p (Sql.properties db) ->
     Sql.p_num_bedrooms p = nb ->
     Sql.p_min_stay_nights p <= nights ->
     existsb (Z.eqb (Sql.p_id p)) (Sql.booked_ids (Sql.bookings db) e s) = false ->
     filter (fun row => Sql.r_id row =? Sql.p_id p)
       (Sql.sql_query db nb nights nights nights nights e s)
     = map (fun r => Sql.select (p, Some r))
         (filter
            (fun r => String.eqb (Sql.p_pricing_category p) (Sql.pr_category r)
                      && Sql.is_true
                           (Sql.rule_condition (Some r) nights nights nights))
            (Sql.pricing_rules db)))
  /\ (forall (nights : Z) (rows : list Sql.Row) (results : list Api.Entry)
             (pid : Z),
        Api.price_rows nights rows [] = inr results ->
        filter (fun en => Api.property_id en =? pid) results
        = flat_map (Api.entries_of_row nights)
            (filter (fun row => Sql.r_id row =? pid) rows)
        /\ forall row, In row rows ->
             List.length (Api.entries_of_row nights row)
             = if Dec.gt_zero (Api.row_total nights row) then 1%nat else 0%nat)
  /\ (exists results,
        fst (Api.run Examples.env1 Examples.request_41_nights)
        = inr (Api.Ok200 results)
        /\ map Api.property_id results = [1; 1; 2]
        /\ map (fun en => Float.to_Q (Api.total_price en)) results
           = map (fun z => Float.to_Q (Float.py_float (Dec.of_int z)))
               [3280000; 1230000; 4]).
Proof.
  split; [exact rows_of_property|]. split.
  - intros nights rows results pid H. split.
    + rewrite (price_rows_spec _ _ _ _ H). simpl app.
      apply entries_of_property.
    + intros row Hin. eapply entries_of_row_length; eassumption.
  - eexists. split; [vm_compute; reflexivity|].
    split; vm_compute; reflexivity.
Qed.

(** The first part of the amended statement at apartment 1 of the sample
    data store, for 41 nights from 2025-10-20. *)
Lemma C9_witness :
  filter (fun row => Sql.r_id row =? 1)
    (Sql.sql_query Examples.db1 1 41 41 41 41
       (Dates.mkDate 2025 11 30) (Dates.mkDate 2025 10 20))
  = map (fun r => Sql.select (Sql.mkProperty 1 "A" "one" 1 4 "cat1", Some r))
      (filter
         (fun r => String.eqb "cat1" (Sql.pr_category r)
                   && Sql.is_true (Sql.rule_condition (Some r) 41 41 41))
         (Sql.pricing_rules Examples.db1)).
Proof.
  apply (proj1 C9_one_entry_per_priced_rule_row Examples.db1 1 41
           (Dates.mkDate 2025 11 30) (Dates.mkDate 2025 10 20)
           (Sql.mkProperty 1 "A" "one" 1 4 "cat1")).
  - vm_compute. repeat constructor; simpl; intuition discriminate.
  - vm_compute. intuition.
  - reflexivity.
  - vm_compute. discriminate.
  - reflexivity.
Defined.

(** C9 as stated fails: for ten nights from 2025-10-20, apartment 2 of the
    sample data store has two rule rows that qualify, one of them without
    rates, and the list holds one entry for it. *)
Lemma C9_counterexample :
  List.length (filter (fun row => Sql.r_id row =? 2)
            (Api.result_set (snd (Api.run Examples.env1 Examples.request_ten_nights))))
  = 2%nat
  /\ exists results,
       fst (Api.run Examples.env1 Examples.request_ten_nights)
       = inr (Api.Ok200 results)
       /\ List.length (filter (fun en => Api.property_id en =? 2) results) = 1%nat.
Proof.
  split; [vm_compute; reflexivity|].
  eexists. split; vm_compute; reflexivity.
Qed.

(* ================================================================== *)
(** * Part III: further properties of the handler *)
(* ================================================================== *)

(** ** Every run of the handler *)

Section AllRuns.

Import Dec Dates Sql Api.

(** The four ways a run can go. *)
Lemma run_cases (env : Env) (request : Request) :
  (falsy_str (arg_start_date request) || falsy_str (arg_end_date request)
   || falsy_int (arg_num_bedrooms request) = true
   /\ run env request = (inr Error400, initial_state))
  \/ (exists s e nb,
        request = mkRequest (Some s) (Some e) (Some nb)
        /\ falsy_str (Some s) = false /\ falsy_str (Some e) = false /\ nb <> 0
        /\ ((strptime s = None \/ strptime e = None)
            /\ run env request = (inr (Error500 ValueError), initial_state)
            \/ exists ds de,
                 strptime s = Some ds /\ strptime e = Some de
                 /\ (days_between ds de < 4
                     /\ run env request = (inr Ok200Null, initial_state)
                     \/ 4 <= days_between ds de))).
Proof.
  destruct (falsy_str (arg_start_date request) || falsy_str (arg_end_date request)
            || falsy_int (arg_num_bedrooms request)) eqn:Ef.
  { left. split; [reflexivity|]. apply run_falsy. assumption. }
  right.
  apply orb_false_iff in Ef as [Ef Hnb]. apply orb_false_iff in Ef as [Hs He].
  destruct request as [[s|] [e|] [nb|]]; simpl in Hs, He, Hnb; try discriminate.
  apply Z.eqb_neq in Hnb.
  exists s, e, nb. split; [reflexivity|]. do 3 (split; [assumption|]).
  destruct (strptime s) as [ds|] eqn:Es.
  2:{ left. split; [auto|]. apply run_malformed; auto. }
  destruct (strptime e) as [de|] eqn:Ee.
  2:{ left. split; [auto|]. apply run_malformed; auto. }
  right. exists ds, de. do 2 (split; [reflexivity|]).
  destruct (Z_lt_le_dec (days_between ds de) 4) as [Hn|Hn].
  - left. split; [assumption|]. apply (run_short env s e nb ds de); assumption.
  - right. assumption.
Qed.

End AllRuns.

(** X1.  The handler answers 400 exactly when [start_date] is absent or
    empty, [end_date] is absent or empty, or [num_bedrooms] is absent, no
    integer, or zero; no other path gives a 400. *)
Theorem X1_answers_400_iff (env : Api.Env) (request : Api.Request) :
  fst (Api.run env request) = inr Api.Error400
  <-> Api.falsy_str (Api.arg_start_date request)
      || Api.falsy_str (Api.arg_end_date request)
      || Api.falsy_int (Api.arg_num_bedrooms request) = true.
Proof.
  split.
  - intros H.
    destruct (run_cases env request)
      as [[Hf _]|(s & e & nb & -> & Hs & He & Hnb & Hrest)]; [assumption|].
    exfalso.
    destruct Hrest as [[_ Hr]|(ds & de & Hds & Hde & [[_ Hr]|Hn])];
      try (rewrite Hr in H; discriminate).
    rewrite (run_search env s e nb ds de) in H by assumption.
    cbv zeta in H.
    destruct (Api.raises_at env) as [[| | | | |]|]; try discriminate.
    simpl in H. destruct (Api.price_rows _ _ _); discriminate.
  - intros H. rewrite (run_falsy _ _ H). reflexivity.
Qed.

(** X2.  In every run, the calls made to the data store are an initial part
    of [connect, cursor, execute, fetchall, cur.close, conn.close], in that
    order: the query is executed at most once, nothing is fetched before it is
    executed, and at most one connection is open at the end. *)
Theorem X2_calls_follow_the_protocol (env : Api.Env) (request : Api.Request) :
  exists n : nat,
    Api.calls (snd (Api.run env request)) = firstn n Api.all_calls
    /\ (Api.open_connections (snd (Api.run env request)) <= 1)%nat.
Proof.
  destruct (run_cases env request)
    as [[_ Hr]|(s & e & nb & -> & Hs & He & Hnb & Hrest)].
  { rewrite Hr. exists 0%nat. split; [reflexivity|simpl; lia]. }
  destruct Hrest as [[_ Hr]|(ds & de & Hds & Hde & [[_ Hr]|Hn])];
    try (rewrite Hr; exists 0%nat; split; [reflexivity|simpl; lia]).
  rewrite (run_search env s e nb ds de) by assumption. cbv zeta.
  destruct (Api.raises_at env) as [[| | | | |]|]; simpl.
  - exists 1%nat. split; [reflexivity|lia].
  - exists 2%nat. split; [reflexivity|lia].
  - exists 3%nat. split; [reflexivity|lia].
  - exists 4%nat. split; [reflexivity|lia].
  - exists 5%nat. split; [reflexivity|lia].
  - exists 6%nat. split; [reflexivity|lia].
  - exists 6%nat. split; [reflexivity|lia].
Qed.

(** X3.  After a search (well-formed parameters, four nights or more), the
    connection is closed exactly when no call raised or [connect] itself
    raised; a failure of any later call leaves it open. *)
Theorem X3_connection_closed_iff
    (env : Api.Env) (s e : string) (nb : Z) (ds de : Dates.date) :
  Dates.strptime s = Some ds -> Dates.strptime e = Some de ->
  nb <> 0 ->
  4 <= Dates.days_between ds de ->
  (Api.open_connections
     (snd (Api.run env (Api.mkRequest (Some s) (Some e) (Some nb)))) = 0%nat
   <-> Api.raises_at env = None \/ Api.raises_at env = Some Api.Connect).
Proof.
  intros Hs He Hnb Hn. rewrite (run_search env s e nb ds de) by assumption.
  cbv zeta.
  destruct (Api.raises_at env) as [[| | | | |]|]; simpl;
    split; intros H; try discriminate; auto;
    destruct H as [H|H]; discriminate.
Qed.

(** The statement of X3 for ten nights when [connect] raises. *)
Lemma X3_witness :
  Api.open_connections
    (snd (Api.run Examples.env_connect_raises Examples.request_ten_nights)) = 0%nat
  <-> Api.raises_at Examples.env_connect_raises = None
      \/ Api.raises_at Examples.env_connect_raises = Some Api.Connect.
Proof.
  apply (X3_connection_closed_iff Examples.env_connect_raises
           "2025-10-20" "2025-10-30" 1
           (Dates.mkDate 2025 10 20) (Dates.mkDate 2025 10 30)).
  - reflexivity.
  - reflexivity.
  - discriminate.
  - vm_compute. discriminate.
Defined.

(** ** Exceptions of the loop *)

Section LoopExceptions.

Import Dec Float Dates Sql Api.

#[local] Open Scope Q_scope.

(** [quantize] raises for a positive total whose rounding has more than
    [prec] digits. *)
Lemma quantize_out_of_range (d : Decimal) :
  gt_zero d = true ->
  inject_Z (10 ^ prec) <= Dec.to_Q d + (1 # 2) ->
  quantize_1_half_up d = None.
Proof.
  intros H Hge. destruct (gt_zero_inv d H) as [Hs Hc].
  destruct (rescale_half_up_spec d H) as (n & Hn & Hn0 & Hlo & Hhi).
  unfold quantize_1_half_up.
  replace (coef d =? 0)%Z with false by (symmetry; apply Z.eqb_neq; lia).
  destruct (prec <? ndigits (coef d) + dexp d - 1 - 0 + 1)%Z; [reflexivity|].
  rewrite Hn, coef_mk by assumption.
  assert (Hbig : (10 ^ prec <= n)%Z).
  { assert (Hlt : inject_Z (10 ^ prec) < inject_Z (n + 1)).
    { rewrite inject_Z_plus. simpl (inject_Z 1).
      eapply Qle_lt_trans; [exact Hge|].
      setoid_replace (inject_Z n + 1) with (inject_Z n + (1 # 2) + (1 # 2)) by ring.
      apply Qplus_lt_l. assumption. }
    rewrite <- Zlt_Qlt in Hlt. lia. }
  replace (prec <? ndigits n)%Z with true; [reflexivity|].
  symmetry. apply Z.ltb_lt.
  destruct (Z_lt_le_dec prec (ndigits n)) as [|Hle]; [assumption|].
  apply ndigits_bound in Hle; lia.
Qed.

(** The only exception of the loop body is the one of [quantize]. *)
Lemma price_row_exception (n : Z) (prop : Row) (ex : Exn) :
  price_row n prop = inl ex -> ex = InvalidOperation.
Proof.
  unfold price_row. destruct (gt_zero (row_total n prop)); [|discriminate].
  destruct (quantize_1_half_up (row_total n prop)); [discriminate|].
  intros H. inversion H. reflexivity.
Qed.

(** One row that raises makes the loop raise, whatever the other rows. *)
Lemma price_rows_raises (n : Z) (rows : list Row) (row : Row) : forall acc,
  In row rows -> price_row n row = inl InvalidOperation ->
  price_rows n rows acc = inl InvalidOperation.
Proof.
  induction rows as [|prop rows IH]; intros acc Hin Hrow; [contradiction|].
  cbn [price_rows].
  destruct (price_row n prop) as [ex|[entry|]] eqn:E.
  - apply price_row_exception in E. subst ex. reflexivity.
  - destruct Hin as [->|Hin]; [rewrite Hrow in E; discriminate|].
    apply IH; assumption.
  - destruct Hin as [->|Hin]; [rewrite Hrow in E; discriminate|].
    apply IH; assumption.
Qed.

End LoopExceptions.

(** X4.  For a row whose rates are NULL or finite decimals, the body of the
    loop raises exactly when the total is strictly positive and rounds to
    [10^28] or more: [quantize] then needs more than the 28 digits of the
    context and raises [InvalidOperation], and nothing else in the body
    raises.  (A row with a NaN rate is outside [Sql.Row]: there the
    comparison [total_price > 0] raises.) *)
Theorem X4_finite_row_raises_iff (nights : Z) (prop : Sql.Row) :
  Api.price_row nights prop = inl Api.InvalidOperation
  <-> Dec.gt_zero (Api.row_total nights prop) = true
      /\ (inject_Z (10 ^ 28) <= Dec.to_Q (Api.row_total nights prop) + (1 # 2))%Q.
Proof.
  unfold Api.price_row. split.
  - destruct (Dec.gt_zero (Api.row_total nights prop)) eqn:Hgt; [|discriminate].
    destruct (Dec.quantize_1_half_up (Api.row_total nights prop)) eqn:Hq;
      [discriminate|].
    intros _. split; [reflexivity|].
    destruct (Qlt_le_dec (Dec.to_Q (Api.row_total nights prop) + (1 # 2))
                (inject_Z (10 ^ 28))) as [Hlt|Hge]; [|assumption].
    destruct (quantize_in_range _ Hgt Hlt) as (final & Hf).
    rewrite Hf in Hq. discriminate.
  - intros [Hgt Hge]. rewrite Hgt, (quantize_out_of_range _ Hgt Hge).
    reflexivity.
Qed.

(** X5.  No partial list: when the data store answers every call and one row
    of the query raises in the loop, the whole request is answered 500 with
    [InvalidOperation], whatever the other rows give; the six calls have been
    made and the connection is closed. *)
Theorem X5_one_bad_row_fails_the_request
    (env : Api.Env) (s e : string) (nb : Z) (ds de : Dates.date) (row : Sql.Row) :
  Dates.strptime s = Some ds -> Dates.strptime e = Some de ->
  nb <> 0 ->
  4 <= Dates.days_between ds de ->
  Api.raises_at env = None ->
  In row (Api.rows_of env nb ds de) ->
  Api.price_row (Dates.days_between ds de) row = inl Api.InvalidOperation ->
  Api.run env (Api.mkRequest (Some s) (Some e) (Some nb))
  = (inr (Api.Error500 Api.InvalidOperation),
     Api.mkState Api.all_calls 0 (Api.rows_of env nb ds de)).
Proof.
  intros Hs He Hnb Hn Hr Hin Hrow.
  rewrite (run_search env s e nb ds de) by assumption. cbv zeta.
  rewrite Hr, (price_rows_raises _ _ _ [] Hin Hrow). reflexivity.
Qed.

(** The statement of X5 for ten nights at [10^28] a night. *)
Lemma X5_witness :
  Api.run Examples.env_huge Examples.request_ten_nights
  = (inr (Api.Error500 Api.InvalidOperation),
     Api.mkState Api.all_calls 0
       (Api.rows_of Examples.env_huge 1
          (Dates.mkDate 2025 10 20) (Dates.mkDate 2025 10 30))).
Proof.
  apply (X5_one_bad_row_fails_the_request Examples.env_huge
           "2025-10-20" "2025-10-30" 1
           (Dates.mkDate 2025 10 20) (Dates.mkDate 2025 10 30)
           (Sql.mkRow 1 "A" "one" (Some (Dec.mk false 1 28)) None)).
  - reflexivity.
  - reflexivity.
  - discriminate.
  - vm_compute. discriminate.
  - reflexivity.
  - vm_compute. left. reflexivity.
  - vm_compute. reflexivity.
Defined.

(** ** What the returned entries are *)

Section ReturnedEntries.

Import Dec Float Dates Sql Api.

(** The rule condition on a rule row, in two-valued terms. *)
Lemma rule_condition_true (r : PricingRule) (n : Z) :
  rule_condition (Some r) n n n = Some true <->
  (pr_min_nights r <= n /\ n <= pr_max_nights r /\ pr_monthly_rate r = None)
  \/ (30 <= n /\ pr_monthly_rate r <> None /\ 30 <= pr_min_nights r).
Proof.
  unfold rule_condition, sql_ge, sql_le, sql_is_null, sql_is_not_null, col,
    col_opt, option_map.
  destruct (pr_monthly_rate r) as [m|];
    destruct (pr_min_nights r <=? n) eqn:E1, (n <=? pr_max_nights r) eqn:E2,
      (30 <=? n) eqn:E3, (30 <=? pr_min_nights r) eqn:E4; simpl;
    try apply Z.leb_le in E1; try apply Z.leb_le in E2;
    try apply Z.leb_le in E3; try apply Z.leb_le in E4;
    try apply Z.leb_gt in E1; try apply Z.leb_gt in E2;
    try apply Z.leb_gt in E3; try apply Z.leb_gt in E4;
    split; intros H; try discriminate; try reflexivity;
    try (right; repeat split; (assumption || discriminate));
    try (left; repeat split; (assumption || reflexivity));
    try (destruct H as [(H1 & H2 & H3)|(H1 & H2 & H3)];
         (discriminate || congruence || lia)).
Qed.

(** The rows of the join: a property with a rule of its category. *)
Lemma left_join_In (ps : list Property) (rs : list PricingRule)
    (p : Property) (r : PricingRule) :
  In (p, Some r) (left_join ps rs) <->
  In p ps /\ In r rs /\ pr_category r = p_pricing_category p.
Proof.
  unfold left_join. rewrite in_flat_map. split.
  - intros (q & Hq & Hin). pose proof (joined_fst _ _ _ Hin) as Hfst.
    simpl in Hfst. subst q. split; [assumption|].
    unfold joined in Hin.
    destruct (filter _ rs) as [|r0 ms] eqn:Ef.
    + destruct Hin as [Hin|[]]. discriminate.
    + apply in_map_iff in Hin as (r' & Heq & Hr'). inversion Heq; subst r'.
      rewrite <- Ef in Hr'. apply filter_In in Hr' as [Hr' Hc].
      apply String.eqb_eq in Hc. auto.
  - intros (Hp & Hr & Hc). exists p. split; [assumption|].
    unfold joined.
    assert (Hin : In r (filter (fun r0 => String.eqb (p_pricing_category p)
                                            (pr_category r0)) rs)).
    { apply filter_In. split; [assumption|]. apply String.eqb_eq. auto. }
    destruct (filter _ rs) as [|r0 ms]; [contradiction|].
    apply in_map_iff. exists r. auto.
Qed.

(** The rows of the query, in terms of the tables. *)
Lemma rows_of_In (env : Env) (nb : Z) (ds de : date) (row : Row) :
  In row (rows_of env nb ds de) <->
  exists p r,
    row = select (p, Some r)
    /\ In p (properties (database env))
    /\ In r (pricing_rules (database env))
    /\ pr_category r = p_pricing_category p
    /\ p_num_bedrooms p = nb
    /\ p_min_stay_nights p <= days_between ds de
    /\ rule_condition (Some r) (days_between ds de) (days_between ds de)
         (days_between ds de) = Some true
    /\ existsb (Z.eqb (p_id p)) (booked_ids (bookings (database env)) de ds)
       = false.
Proof.
  unfold rows_of. cbv zeta. rewrite sql_query_In. split.
  - intros ([p [r|]] & Hin & Hw & Hsel).
    + apply left_join_In in Hin as (Hp & Hr & Hc).
      apply where_clause_true in Hw as (H1 & H2 & H3 & H4).
      exists p, r. auto 10.
    + rewrite where_clause_null in Hw. discriminate.
  - intros (p & r & -> & Hp & Hr & Hc & H1 & H2 & H3 & H4).
    exists (p, Some r). split; [apply left_join_In; auto|].
    split; [|reflexivity]. apply where_clause_true. auto.
Qed.

(** The entries keep the order of the rows. *)
Lemma entries_sorted (n : Z) (rows : list Row) :
  StronglySorted Z.le (map r_id rows) ->
  StronglySorted Z.le (map property_id (flat_map (entries_of_row n) rows)).
Proof.
  induction rows as [|row rows IH]; intros Hs; [constructor|].
  cbn [map] in Hs. inversion Hs as [|? ? Hl Hall]; subst.
  cbn [flat_map]. unfold entries_of_row at 1.
  destruct (price_row n row) as [ex|[entry|]] eqn:E; cbn [app map];
    try (apply IH; assumption).
  constructor; [apply IH; assumption|].
  destruct (price_row_some _ _ _ E) as (_ & k & _ & Hid & _).
  rewrite Hid. rewrite Forall_forall in *. intros z Hz.
  apply in_map_iff in Hz as (en & <- & Hen).
  apply in_flat_map in Hen as (row' & Hrow' & Hen).
  apply entries_of_row_In in Hen.
  destruct (price_row_some _ _ _ Hen) as (_ & k' & _ & Hid' & _).
  rewrite Hid'. apply Hall. apply in_map. assumption.
Qed.

Lemma sql_query_sorted db nb n1 n2 n3 n4 e s :
  StronglySorted Z.le (map r_id (sql_query db nb n1 n2 n3 n4 e s)).
Proof.
  unfold sql_query. rewrite map_map.
  match goal with |- context [order_by_id ?L] =>
    pose proof (order_by_id_sorted L) as Hs; set (l := order_by_id L) in *
  end.
  clearbody l. unfold sorted_by_id in Hs.
  induction Hs as [|x l Hl IH Hall]; [constructor|].
  cbn [map]. constructor; [assumption|].
  rewrite Forall_forall in *. intros z Hz.
  apply in_map_iff in Hz as (y & <- & Hy). rewrite !r_id_select.
  apply Hall. assumption.
Qed.

End ReturnedEntries.

(** X6.  Every entry of a returned list is backed by the tables: it carries
    the identifier, name and description of a property that has the requested
    number of bedrooms, a minimum stay of at most the nights of the stay and
    no booking that overlaps the stay, and it is the price of a rule of the
    category of that property which either has no monthly rate and a range
    [min_nights .. max_nights] that holds the nights, or has a monthly rate
    and [min_nights >= 30] for a stay of 30 nights or more. *)
Theorem X6_entries_are_backed_by_the_tables
    (env : Api.Env) (s e : string) (nb : Z) (ds de : Dates.date)
    (results : list Api.Entry) (entry : Api.Entry) :
  Dates.strptime s = Some ds -> Dates.strptime e = Some de ->
  fst (Api.run env (Api.mkRequest (Some s) (Some e) (Some nb)))
  = inr (Api.Ok200 results) ->
  In entry results ->
  exists (p : Sql.Property) (r : Sql.PricingRule),
    In p (Sql.properties (Api.database env))
    /\ In r (Sql.pricing_rules (Api.database env))
    /\ Api.property_id entry = Sql.p_id p
    /\ Api.name entry = Sql.p_name p
    /\ Api.description entry = Sql.p_description p
    /\ Sql.p_num_bedrooms p = nb
    /\ Sql.p_min_stay_nights p <= Dates.days_between ds de
    /\ Sql.pr_category r = Sql.p_pricing_category p
    /\ ((Sql.pr_min_nights r <= Dates.days_between ds de
         /\ Dates.days_between ds de <= Sql.pr_max_nights r
         /\ Sql.pr_monthly_rate r = None)
        \/ (30 <= Dates.days_between ds de
            /\ Sql.pr_monthly_rate r <> None
            /\ 30 <= Sql.pr_min_nights r))
    /\ (forall b, In b (Sql.bookings (Api.database env)) ->
                  Sql.b_property_id b = Sql.p_id p ->
                  ~ (Dates.toordinal (Sql.b_start_date b) < Dates.toordinal de
                     /\ Dates.toordinal ds < Dates.toordinal (Sql.b_end_date b)))
    /\ Api.price_row (Dates.days_between ds de) (Sql.select (p, Some r))
       = inr (Some entry).
Proof.
  intros Hs He Hrun Hin.
  destruct (run_ok_inv _ _ _ Hrun)
    as (s' & e' & nb' & ds' & de' & Heq & Hs' & He' & Hnb & Hn & Hr & Hp & Hst).
  inversion Heq; subst s' e' nb'; clear Heq.
  rewrite Hs in Hs'. rewrite He in He'.
  inversion Hs'; subst ds'. inversion He'; subst de'. clear Hs' He'.
  apply price_rows_spec in Hp. simpl in Hp. subst results.
  apply in_flat_map in Hin as (row & Hrow & Hentry).
  apply entries_of_row_In in Hentry.
  apply rows_of_In in Hrow
    as (p & r & -> & Hp & Hrl & Hc & Hb & Hm & Hrc & Hbk).
  exists p, r.
  assert (Hfields : Api.property_id entry = Sql.p_id p
                    /\ Api.name entry = Sql.p_name p
                    /\ Api.description entry = Sql.p_description p).
  { unfold Api.price_row in Hentry.
    destruct (Dec.gt_zero _); [|discriminate].
    destruct (Dec.quantize_1_half_up _); [|discriminate].
    inversion Hentry. simpl. auto. }
  destruct Hfields as (Hf1 & Hf2 & Hf3).
  apply rule_condition_true in Hrc.
  repeat (split; [assumption|]). split; [|assumption].
  intros b Hb1 Hb2 [Hb3 Hb4].
  assert (Ht : existsb (Z.eqb (Sql.p_id p))
                 (Sql.booked_ids (Sql.bookings (Api.database env)) de ds) = true).
  { apply booked_iff. exists b. auto. }
  rewrite Ht in Hbk. discriminate.
Qed.

(** The statement of X6 for the entry of apartment 1 for ten nights. *)
Lemma X6_witness :
  exists (p : Sql.Property) (r : Sql.PricingRule),
    In p (Sql.properties (Api.database Examples.env1))
    /\ In r (Sql.pricing_rules (Api.database Examples.env1))
    /\ Api.property_id Examples.entry_ten_nights = Sql.p_id p
    /\ Api.name Examples.entry_ten_nights = Sql.p_name p
    /\ Api.description Examples.entry_ten_nights = Sql.p_description p
    /\ Sql.p_num_bedrooms p = 1
    /\ Sql.p_min_stay_nights p
       <= Dates.days_between (Dates.mkDate 2025 10 20) (Dates.mkDate 2025 10 30)
    /\ Sql.pr_category r = Sql.p_pricing_category p
    /\ ((Sql.pr_min_nights r
         <= Dates.days_between (Dates.mkDate 2025 10 20) (Dates.mkDate 2025 10 30)
         /\ Dates.days_between (Dates.mkDate 2025 10 20) (Dates.mkDate 2025 10 30)
            <= Sql.pr_max_nights r
         /\ Sql.pr_monthly_rate r = None)
        \/ (30 <= Dates.days_between (Dates.mkDate 2025 10 20)
                    (Dates.mkDate 2025 10 30)
            /\ Sql.pr_monthly_rate r <> None
            /\ 30 <= Sql.pr_min_nights r))
    /\ (forall b, In b (Sql.bookings (Api.database Examples.env1)) ->
                  Sql.b_property_id b = Sql.p_id p ->
                  ~ (Dates.toordinal (Sql.b_start_date b)
                     < Dates.toordinal (Dates.mkDate 2025 10 30)
                     /\ Dates.toordinal (Dates.mkDate 2025 10 20)
                        < Dates.toordinal (Sql.b_end_date b)))
    /\ Api.price_row
         (Dates.days_between (Dates.mkDate 2025 10 20) (Dates.mkDate 2025 10 30))
         (Sql.select (p, Some r))
       = inr (Some Examples.entry_ten_nights).
Proof.
  apply (X6_entries_are_backed_by_the_tables Examples.env1
           "2025-10-20" "2025-10-30" 1
           (Dates.mkDate 2025 10 20) (Dates.mkDate 2025 10 30)
           [Examples.entry_ten_nights; 
            Api.mkEntry 2 "B" "two" None (Float.Finite false 4503599627370496 (-52))]).
  - reflexivity.
  - reflexivity.
  - vm_compute. reflexivity.
  - left. reflexivity.
Defined.

(** X7.  Nothing that qualifies is left out: when the data store answers
    every call, a property with the requested number of bedrooms, a minimum
    stay of at most the nights of the stay and no overlapping booking, and a
    rule of its category that satisfies the rule condition and gives a
    strictly positive total, either appears in the returned list with the
    price of that rule, or the request is answered 500 with
    [InvalidOperation]. *)
Theorem X7_qualifying_rows_are_returned
    (env : Api.Env) (s e : string) (nb : Z) (ds de : Dates.date)
    (p : Sql.Property) (r : Sql.PricingRule) :
  Dates.strptime s = Some ds -> Dates.strptime e = Some de ->
  nb <> 0 ->
  4 <= Dates.days_between ds de ->
  Api.raises_at env = None ->
  In p (Sql.properties (Api.database env)) ->
  In r (Sql.pricing_rules (Api.database env)) ->
  Sql.pr_category r = Sql.p_pricing_category p ->
  Sql.p_num_bedrooms p = nb ->
  Sql.p_min_stay_nights p <= Dates.days_between ds de ->
  ((Sql.pr_min_nights r <= Dates.days_between ds de
    /\ Dates.days_between ds de <= Sql.pr_max_nights r
    /\ Sql.pr_monthly_rate r = None)
   \/ (30 <= Dates.days_between ds de
       /\ Sql.pr_monthly_rate r <> None
       /\ 30 <= Sql.pr_min_nights r)) ->
  (forall b, In b (Sql.bookings (Api.database env)) ->
             Sql.b_property_id b = Sql.p_id p ->
             ~ (Dates.toordinal (Sql.b_start_date b) < Dates.toordinal de
                /\ Dates.toordinal ds < Dates.toordinal (Sql.b_end_date b))) ->
  Dec.gt_zero (Api.row_total (Dates.days_between ds de) (Sql.select (p, Some r)))
  = true ->
  fst (Api.run env (Api.mkRequest (Some s) (Some e) (Some nb)))
  = inr (Api.Error500 Api.InvalidOperation)
  \/ exists results entry,
       fst (Api.run env (Api.mkRequest (Some s) (Some e) (Some nb)))
       = inr (Api.Ok200 results)
       /\ In entry results
       /\ Api.price_row (Dates.days_between ds de) (Sql.select (p, Some r))
          = inr (Some entry).
Proof.
  intros Hs He Hnb Hn Hr Hp Hrl Hc Hb Hm Hrc Hbk Hgt.
  assert (Hrow : In (Sql.select (p, Some r)) (Api.rows_of env nb ds de)).
  { apply rows_of_In. exists p, r. split; [reflexivity|].
    repeat (split; [assumption|]).
    split; [apply rule_condition_true; assumption|].
    destruct (existsb (Z.eqb (Sql.p_id p))
                (Sql.booked_ids (Sql.bookings (Api.database env)) de ds)) eqn:Ex;
      [|reflexivity].
    apply booked_iff in Ex as (b & Hb1 & Hb2 & Hb3 & Hb4).
    exfalso. apply (Hbk b Hb1 Hb2). split; assumption. }
  rewrite (run_search env s e nb ds de) by assumption. cbv zeta. rewrite Hr.
  destruct (Api.price_rows (Dates.days_between ds de)
              (Api.rows_of env nb ds de) []) as [ex|results] eqn:Ep.
  - left. simpl.
    assert (Hex : ex = Api.InvalidOperation); [|rewrite Hex; reflexivity].
    clear - Ep. revert Ep. generalize (@nil Api.Entry).
    induction (Api.rows_of env nb ds de) as [|row rows IH]; intros acc Ep;
      [discriminate|].
    simpl in Ep.
    destruct (Api.price_row (Dates.days_between ds de) row) as [ex'|[en|]] eqn:E.
    + inversion Ep; subst ex'. apply (price_row_exception _ _ _ E).
    + apply (IH _ Ep).
    + apply (IH _ Ep).
  - right.
    destruct (price_rows_no_exception _ _ _ _ _ Ep Hrow) as [o Ho].
    destruct o as [entry|].
    + exists results, entry. split; [reflexivity|]. split; [|assumption].
      apply price_rows_spec in Ep. simpl in Ep. subst results.
      apply in_flat_map. exists (Sql.select (p, Some r)).
      split; [assumption|]. apply entries_of_row_In. assumption.
    + unfold Api.price_row in Ho. rewrite Hgt in Ho.
      destruct (Dec.quantize_1_half_up _); discriminate.
Qed.

(** The statement of X7 for apartment 1 and its nightly rule, ten nights. *)
Lemma X7_witness :
  fst (Api.run Examples.env1 (Api.mkRequest (Some "2025-10-20"%string)
                                (Some "2025-10-30"%string) (Some 1)))
  = inr (Api.Error500 Api.InvalidOperation)
  \/ exists results entry,
       fst (Api.run Examples.env1 (Api.mkRequest (Some "2025-10-20"%string)
                                     (Some "2025-10-30"%string) (Some 1)))
       = inr (Api.Ok200 results)
       /\ In entry results
       /\ Api.price_row
            (Dates.days_between (Dates.mkDate 2025 10 20) (Dates.mkDate 2025 10 30))
            (Sql.select (Sql.mkProperty 1 "A" "one" 1 4 "cat1",
                         Some (Sql.mkRule "cat1" (Some (Dec.of_int 80000)) None 4 60)))
          = inr (Some entry).
Proof.
  apply (X7_qualifying_rows_are_returned Examples.env1
           "2025-10-20" "2025-10-30" 1
           (Dates.mkDate 2025 10 20) (Dates.mkDate 2025 10 30)
           (Sql.mkProperty 1 "A" "one" 1 4 "cat1")
           (Sql.mkRule "cat1" (Some (Dec.of_int 80000)) None 4 60)).
  - reflexivity.
  - reflexivity.
  - discriminate.
  - vm_compute. discriminate.
  - reflexivity.
  - simpl. right. left. reflexivity.
  - simpl. left. reflexivity.
  - reflexivity.
  - reflexivity.
  - vm_compute. discriminate.
  - left. split; [vm_compute; discriminate|].
    split; [vm_compute; discriminate|reflexivity].
  - intros b [<-|[]] H. discriminate H.
  - vm_compute. reflexivity.
Defined.

(** X8.  The entries of a returned list are in ascending order of
    [property_id]: the loop keeps the order of [ORDER BY p.id]. *)
Theorem X8_results_ordered_by_property_id
    (env : Api.Env) (request : Api.Request) (results : list Api.Entry) :
  fst (Api.run env request) = inr (Api.Ok200 results) ->
  StronglySorted Z.le (map Api.property_id results).
Proof.
  intros Hrun.
  destruct (run_ok_inv _ _ _ Hrun)
    as (s & e & nb & ds & de & _ & _ & _ & _ & _ & _ & Hp & _).
  apply price_rows_spec in Hp. simpl in Hp. subst results.
  apply entries_sorted. apply sql_query_sorted.
Qed.

(** The statement of X8 for 41 nights, where apartment 1 appears twice. *)
Lemma X8_witness :
  exists results,
    fst (Api.run Examples.env1 Examples.request_41_nights) = inr (Api.Ok200 results)
    /\ map Api.property_id results = [1; 1; 2]
    /\ StronglySorted Z.le (map Api.property_id results).
Proof.
  eexists. split; [vm_compute; reflexivity|]. split; [reflexivity|].
  apply (X8_results_ordered_by_property_id Examples.env1
           Examples.request_41_nights).
  vm_compute. reflexivity.
Defined.

(** X9.  A row of the query with a monthly rate belongs to a stay of thirty
    nights or more, and its total does not depend on its nightly price: the
    [elif] of the nightly price is never reached with a monthly rate at
    hand. *)
Theorem X9_monthly_rows_are_priced_by_the_month
    (env : Api.Env) (nb : Z) (ds de : Dates.date) (row : Sql.Row)
    (m : Dec.Decimal) :
  In row (Api.rows_of env nb ds de) ->
  Sql.r_monthly_rate row = Some m ->
  30 <= Dates.days_between ds de
  /\ forall ppn : option Dec.Decimal,
       Api.compute_total (Dates.days_between ds de) ppn (Some m)
       = Api.compute_total (Dates.days_between ds de) None (Some m).
Proof.
  intros Hin Hm.
  apply rows_of_In in Hin as (p & r & -> & _ & _ & _ & _ & _ & Hrc & _).
  apply rule_condition_true in Hrc. simpl in Hm.
  destruct Hrc as [(_ & _ & Hnone)|(H30 & _ & _)]; [congruence|].
  split; [assumption|]. intros ppn. unfold Api.compute_total.
  replace (30 <=? Dates.days_between ds de) with true
    by (symmetry; apply Z.leb_le; assumption).
  reflexivity.
Qed.

(** The statement of X9 for the monthly row of apartment 1, 41 nights. *)
Lemma X9_witness :
  30 <= Dates.days_between (Dates.mkDate 2025 10 20) (Dates.mkDate 2025 11 30)
  /\ forall ppn : option Dec.Decimal,
       Api.compute_total
         (Dates.days_between (Dates.mkDate 2025 10 20) (Dates.mkDate 2025 11 30))
         ppn (Some (Dec.of_int 900000))
       = Api.compute_total
           (Dates.days_between (Dates.mkDate 2025 10 20) (Dates.mkDate 2025 11 30))
           None (Some (Dec.of_int 900000)).
Proof.
  apply (X9_monthly_rows_are_priced_by_the_month Examples.env1 1
           (Dates.mkDate 2025 10 20) (Dates.mkDate 2025 11 30)
           Examples.row_monthly (Dec.of_int 900000)).
  - vm_compute. right. left. reflexivity.
  - reflexivity.
Defined.

(** ** The sign of the total and the rounding of the exact total *)

Section Signs.

Import Dec Float Dates Sql Api Spec.

#[local] Open Scope Q_scope.

Lemma Qpow10_pos (e : Z) : 0 < inject_Z 10 ^ e.
Proof. apply Qpower_0_lt. reflexivity. Qed.

(** [d > 0] on the value. *)
Lemma gt_zero_iff (d : Decimal) : gt_zero d = true <-> 0 < Dec.to_Q d.
Proof.
  pose proof (coef_nonneg d) as Hc. pose proof (Qpow10_pos (dexp d)) as Hp.
  rewrite to_Q_factors. unfold gt_zero.
  destruct (dsign d); cbn [negb andb].
  - split; [discriminate|]. intros H. exfalso.
    assert (H0 : 0 <= inject_Z (coef d)) by (rewrite Zle_Qle in Hc; exact Hc).
    assert (Hle : - (1) * inject_Z (coef d) * inject_Z 10 ^ dexp d <= 0).
    { setoid_replace (- (1) * inject_Z (coef d) * inject_Z 10 ^ dexp d)
        with (- (inject_Z (coef d) * inject_Z 10 ^ dexp d)) by ring.
      assert (0 <= inject_Z (coef d) * inject_Z 10 ^ dexp d)
        by (apply Qmult_le_0_compat; [assumption|apply Qlt_le_weak; assumption]).
      lra. }
    lra.
  - rewrite negb_true_iff, Z.eqb_neq. split.
    + intros Hne. assert (H0 : 0 < inject_Z (coef d))
        by (change 0 with (inject_Z 0); rewrite <- Zlt_Qlt; lia).
      setoid_replace (1 * inject_Z (coef d) * inject_Z 10 ^ dexp d)
        with (inject_Z (coef d) * inject_Z 10 ^ dexp d) by ring.
      apply Qmult_lt_0_compat; assumption.
    + intros H Heq. rewrite Heq in H. simpl inject_Z in H.
      setoid_replace (1 * (0 # 1) * inject_Z 10 ^ dexp d) with 0 in H by ring.
      apply (Qlt_irrefl 0). assumption.
Qed.

(** A relative error below one keeps the sign. *)
Lemma close_sign (eps a b : Q) :
  eps < 1 -> close eps a b -> (0 < a <-> 0 < b).
Proof.
  unfold close. intros He H.
  apply Qabs_diff_Qle_condition in H as [H1 H2].
  destruct (Qlt_le_dec 0 b) as [Hb|Hb].
  - rewrite (Qabs_pos b) in H1, H2 by (apply Qlt_le_weak; assumption).
    split; [intros _; assumption|]. intros _.
    assert (0 < (1 - eps) * b) by (apply Qmult_lt_0_compat; lra).
    lra.
  - rewrite (Qabs_neg b) in H1, H2 by assumption.
    split; [|intros Hb'; lra]. intros Ha. exfalso.
    assert (0 <= (1 - eps) * - b) by (apply Qmult_le_0_compat; lra).
    lra.
Qed.

(** The exact total of a stay of at least one night has the sign of the rate
    that the decision tree applies. *)
Lemma total_positive (nights : Z) (ppn mr : option Decimal) :
  (0 < nights)%Z ->
  (0 < total nights ppn mr
   <-> exists rate, applicable_rate nights ppn mr = Some rate
                    /\ 0 < Dec.to_Q rate).
Proof.
  intros Hn. unfold total, applicable_rate.
  assert (Hnq : 0 < inject_Z nights)
    by (change 0 with (inject_Z 0); rewrite <- Zlt_Qlt; assumption).
  assert (Hnightly : forall p, 0 < inject_Z nights * Dec.to_Q p <-> 0 < Dec.to_Q p).
  { intros p. split; intros H.
    - destruct (Qlt_le_dec 0 (Dec.to_Q p)) as [|Hle]; [assumption|]. exfalso.
      assert (0 <= inject_Z nights * - Dec.to_Q p)
        by (apply Qmult_le_0_compat; lra).
      lra.
    - apply Qmult_lt_0_compat; assumption. }
  destruct (30 <=? nights)%Z eqn:E30, mr as [m|], ppn as [p|].
  all: try match goal with
       | |- 0 < inject_Z _ * Dec.to_Q ?p <-> _ =>
           rewrite Hnightly; split;
           [intros H; exists p; auto
           |intros (rate & Hr & H); inversion Hr; subst; assumption]
       | |- 0 < 0 <-> _ =>
           split; [intros H; exfalso; apply (Qlt_irrefl 0); assumption
                  |intros (rate & Hr & _); discriminate]
       end.
  all: apply Z.leb_le in E30.
  all: pose proof (Z.mod_pos_bound nights 30 ltac:(lia)) as Hr.
  all: assert (Hq : (1 <= nights / 30)%Z)
         by (apply Z.div_le_lower_bound; lia).
  all: assert (Hq' : 1 <= inject_Z (nights / 30))
         by (change 1 with (inject_Z 1); rewrite <- Zle_Qle; assumption).
  all: assert (Hr' : 0 <= inject_Z (nights mod 30))
         by (change 0 with (inject_Z 0); rewrite <- Zle_Qle; lia).
  all: assert (Hf : 0 < inject_Z (nights / 30) + inject_Z (nights mod 30) / inject_Z 30)
         by (assert (0 <= inject_Z (nights mod 30) / inject_Z 30)
               by (apply Qle_shift_div_l; [reflexivity|lra]); lra).
  all: setoid_replace (inject_Z (nights / 30) * Dec.to_Q m
                       + inject_Z (nights mod 30) * (Dec.to_Q m / inject_Z 30))
         with ((inject_Z (nights / 30) + inject_Z (nights mod 30) / inject_Z 30)
               * Dec.to_Q m) by (field; discriminate).
  all: split;
    [intros H; exists m; split; [reflexivity|];
     destruct (Qlt_le_dec 0 (Dec.to_Q m)) as [|Hle]; [assumption|]; exfalso;
     assert (0 <= (inject_Z (nights / 30) + inject_Z (nights mod 30) / inject_Z 30)
                  * - Dec.to_Q m)
       by (apply Qmult_le_0_compat; lra);
     lra
    |intros (rate & Hrate & H); inversion Hrate; subst;
     apply Qmult_lt_0_compat; assumption].
Qed.

(** The total is positive exactly when the exact total is. *)
Lemma row_total_positive (nights : Z) (ppn mr : option Decimal) :
  gt_zero (value (compute_total nights ppn mr)) = true
  <-> 0 < total nights ppn mr.
Proof.
  rewrite gt_zero_iff. apply (close_sign total_roundoff); [reflexivity|].
  apply compute_total_close.
Qed.

(** The reported price when the exact total is away from a rounding
    boundary. *)
Lemma price_row_exact_total (nights : Z) (prop : Row) (N : Z) :
  (1 <= N < 2 ^ 53)%Z ->
  inject_Z N - (1 # 2)
  <= (1 - total_roundoff)
     * total nights (r_price_per_night prop) (r_monthly_rate prop) ->
  (1 + total_roundoff)
  * total nights (r_price_per_night prop) (r_monthly_rate prop)
  < inject_Z N + (1 # 2) ->
  exists entry,
    price_row nights prop = inr (Some entry)
    /\ has_value (total_price entry) (inject_Z N).
Proof.
  intros [HN1 HN53] Hlo Hhi.
  set (T := total nights (r_price_per_night prop) (r_monthly_rate prop)) in *.
  pose proof (compute_total_close nights (r_price_per_night prop)
                (r_monthly_rate prop)) as Hc.
  fold T in Hc. fold (row_total nights prop) in Hc.
  assert (HNq : 1 <= inject_Z N)
    by (change 1 with (inject_Z 1); rewrite <- Zle_Qle; assumption).
  assert (Heps : 0 < 1 - total_roundoff) by reflexivity.
  assert (HT : 0 < T).
  { destruct (Qlt_le_dec 0 T) as [|Hle]; [assumption|]. exfalso.
    assert (0 <= (1 - total_roundoff) * - T)
      by (apply Qmult_le_0_compat; lra).
    lra. }
  unfold close in Hc. rewrite (Qabs_pos T) in Hc by lra.
  apply Qabs_diff_Qle_condition in Hc as [Hc1 Hc2].
  assert (Ha1 : inject_Z N - (1 # 2) <= Dec.to_Q (row_total nights prop)) by lra.
  assert (Ha2 : Dec.to_Q (row_total nights prop) < inject_Z N + (1 # 2)) by lra.
  assert (Hgt : gt_zero (row_total nights prop) = true)
    by (apply gt_zero_iff; lra).
  assert (H28 : Dec.to_Q (row_total nights prop) + (1 # 2) < inject_Z (10 ^ prec)).
  { assert (Hx : inject_Z (N + 1) <= inject_Z (10 ^ prec)).
    { rewrite <- Zle_Qle.
      assert (2 ^ 53 < 10 ^ prec)%Z by reflexivity. lia. }
    rewrite inject_Z_plus in Hx. change (inject_Z 1) with 1 in Hx. lra. }
  destruct (quantize_in_range _ Hgt H28) as (final & Hq).
  destruct (quantize_some _ _ Hgt Hq) as (n & -> & Hn & Hnlo & Hnhi).
  assert (HnN : n = N).
  { assert (H1 : inject_Z n < inject_Z N + 1) by lra.
    assert (H2 : inject_Z N < inject_Z n + 1) by lra.
    assert (n < N + 1)%Z by (rewrite Zlt_Qlt, inject_Z_plus; exact H1).
    assert (N < n + 1)%Z by (rewrite Zlt_Qlt, inject_Z_plus; exact H2).
    lia. }
  subst n. unfold price_row. fold (row_total nights prop). rewrite Hgt, Hq.
  eexists. split; [reflexivity|]. simpl total_price.
  apply py_float_small. lia.
Qed.

End Signs.

(** X10.  For a stay of at least one night, the total computed for a row is
    strictly positive exactly when the rate that the decision tree applies
    (the monthly rate when there is one and the stay has 30 nights or more,
    otherwise the nightly price) is present and strictly positive: the
    roundings never turn a positive rate into a zero total, however small the
    rate. *)
Theorem X10_total_positive_iff_rate_positive
    (nights : Z) (price_per_night monthly_rate : option Dec.Decimal) :
  0 < nights ->
  (Dec.gt_zero (Dec.value (Api.compute_total nights price_per_night monthly_rate))
   = true
   <-> exists rate,
         Spec.applicable_rate nights price_per_night monthly_rate = Some rate
         /\ Dec.gt_zero rate = true).
Proof.
  intros Hn. rewrite row_total_positive, (total_positive _ _ _ Hn).
  split; intros (rate & Hr & H); exists rate; split; try assumption;
    apply gt_zero_iff; assumption.
Qed.

(** The statement of X10 for 35 nights at a monthly rate of 900000. *)
Lemma X10_witness :
  Dec.gt_zero (Dec.value (Api.compute_total 35 None (Some (Dec.of_int 900000))))
  = true
  <-> exists rate,
        Spec.applicable_rate 35 None (Some (Dec.of_int 900000)) = Some rate
        /\ Dec.gt_zero rate = true.
Proof.
  apply (X10_total_positive_iff_rate_positive 35 None (Some (Dec.of_int 900000))).
  reflexivity.
Defined.

(** X11.  The [monthly_rate] field of an entry made from a row of the query
    is the [float] of the monthly rate of the row when it has one, and is
    absent otherwise: for such a row the [else None] of a zero monthly rate
    is never taken. *)
Theorem X11_monthly_rate_field
    (env : Api.Env) (nb : Z) (ds de : Dates.date) (row : Sql.Row)
    (entry : Api.Entry) :
  In row (Api.rows_of env nb ds de) ->
  Api.price_row (Dates.days_between ds de) row = inr (Some entry) ->
  Api.monthly_rate entry = option_map Float.py_float (Sql.r_monthly_rate row).
Proof.
  intros Hin Hentry.
  destruct (price_row_some _ _ _ Hentry) as (Hgt & _).
  unfold Api.price_row in Hentry. rewrite Hgt in Hentry.
  destruct (Dec.quantize_1_half_up _); [|discriminate].
  inversion Hentry; subst entry; clear Hentry. simpl Api.monthly_rate.
  destruct (Sql.r_monthly_rate row) as [m|] eqn:Hm; [|reflexivity].
  apply rows_of_In in Hin as (p & r & -> & _ & _ & _ & _ & _ & Hrc & _).
  apply rule_condition_true in Hrc. simpl in Hm.
  destruct Hrc as [(_ & _ & Hnone)|(H30 & _ & _)]; [congruence|].
  unfold Api.row_total in Hgt. simpl Sql.r_monthly_rate in Hgt. rewrite Hm in Hgt.
  apply row_total_positive in Hgt.
  apply total_positive in Hgt as (rate & Hrate & Hpos); [|lia].
  unfold Spec.applicable_rate in Hrate.
  replace (30 <=? Dates.days_between ds de) with true in Hrate
    by (symmetry; apply Z.leb_le; assumption).
  inversion Hrate; subst rate. apply gt_zero_iff in Hpos.
  unfold Dec.gt_zero in Hpos. apply andb_true_iff in Hpos as [_ Hpos].
  unfold Dec.truthy. rewrite Hpos. reflexivity.
Qed.

(** The statement of X11 for the monthly row of apartment 1, 41 nights. *)
Lemma X11_witness :
  Api.monthly_rate
    (Api.mkEntry 1 "A" "one"
       (Some (Float.Finite false 7730941132800000 (-33)))
       (Float.Finite false 5282809774080000 (-32)))
  = option_map Float.py_float (Sql.r_monthly_rate Examples.row_monthly).
Proof.
  apply (X11_monthly_rate_field Examples.env1 1
           (Dates.mkDate 2025 10 20) (Dates.mkDate 2025 11 30)
           Examples.row_monthly).
  - vm_compute. right. left. reflexivity.
  - vm_compute. reflexivity.
Defined.

(** X12.  With [T] the exact total of the decision tree and [N] an integer
    with [1 <= N < 2^53]: when [N - 1/2 <= (1 - 2e-27) * T] and
    [(1 + 2e-27) * T < N + 1/2], the row gives an entry whose reported
    [total_price] is [N].  The rounding of the division can change the
    reported price only for an exact total within [2e-27 * T] of a half. *)
Theorem X12_reported_price_of_exact_total
    (nights : Z) (prop : Sql.Row) (N : Z) :
  1 <= N < 2 ^ 53 ->
  (inject_Z N - (1 # 2)
   <= (1 - Spec.total_roundoff)
      * Spec.total nights (Sql.r_price_per_night prop) (Sql.r_monthly_rate prop))%Q ->
  ((1 + Spec.total_roundoff)
   * Spec.total nights (Sql.r_price_per_night prop) (Sql.r_monthly_rate prop)
   < inject_Z N + (1 # 2))%Q ->
  exists entry,
    Api.price_row nights prop = inr (Some entry)
    /\ Float.has_value (Api.total_price entry) (inject_Z N).
Proof. apply price_row_exact_total. Qed.

(** The statement of X12 for 41 nights at a monthly rate of 900000: the
    exact total is 1230000. *)
Lemma X12_witness :
  exists entry,
    Api.price_row 41 Examples.row_monthly = inr (Some entry)
    /\ Float.has_value (Api.total_price entry) (inject_Z 1230000).
Proof.
  apply (X12_reported_price_of_exact_total 41 Examples.row_monthly 1230000).
  - split; [discriminate|reflexivity].
  - vm_compute. discriminate.
  - vm_compute. reflexivity.
Defined.

(** X13.  When the exact total of the decision tree is a whole amount [N]
    with [1 <= N < 2^53], the reported [total_price] is exactly [N], also
    when the division of the monthly rate by 30 has been rounded on the
    way. *)
Theorem X13_whole_totals_are_reported_exactly
    (nights : Z) (prop : Sql.Row) (N : Z) :
  1 <= N < 2 ^ 53 ->
  (Spec.total nights (Sql.r_price_per_night prop) (Sql.r_monthly_rate prop)
   == inject_Z N)%Q ->
  exists entry,
    Api.price_row nights prop = inr (Some entry)
    /\ Float.has_value (Api.total_price entry) (inject_Z N).
Proof.
  intros HN HT. apply price_row_exact_total; [assumption| |]; rewrite HT.
  - assert (H : (Spec.total_roundoff * inject_Z N <= 1 # 2)%Q).
    { assert (H53 : (inject_Z N <= inject_Z (2 ^ 53))%Q)
        by (rewrite <- Zle_Qle; lia).
      assert (Hb : (Spec.total_roundoff * inject_Z (2 ^ 53) <= 1 # 2)%Q)
        by (vm_compute; discriminate).
      assert (Hm : (Spec.total_roundoff * inject_Z N
                    <= Spec.total_roundoff * inject_Z (2 ^ 53))%Q).
      { rewrite !(Qmult_comm Spec.total_roundoff).
        apply Qmult_le_compat_r; [assumption|discriminate]. }
      lra. }
    lra.
  - assert (H : (Spec.total_roundoff * inject_Z N < 1 # 2)%Q).
    { assert (H53 : (inject_Z N <= inject_Z (2 ^ 53))%Q)
        by (rewrite <- Zle_Qle; lia).
      assert (Hb : (Spec.total_roundoff * inject_Z (2 ^ 53) < 1 # 2)%Q)
        by (vm_compute; reflexivity).
      assert (Hm : (Spec.total_roundoff * inject_Z N
                    <= Spec.total_roundoff * inject_Z (2 ^ 53))%Q).
      { rewrite !(Qmult_comm Spec.total_roundoff).
        apply Qmult_le_compat_r; [assumption|discriminate]. }
      lra. }
    lra.
Qed.

(** The statement of X13 for 45 nights at a monthly rate of 100: the
    thirtieth of the rate is rounded to 3.333..., [Inexact] is signalled, and
    the reported price is 150. *)
Lemma X13_witness :
  exists entry,
    Api.price_row 45 (Sql.mkRow 1 "A" "one" None (Some (Dec.of_int 100)))
    = inr (Some entry)
    /\ Float.has_value (Api.total_price entry) (inject_Z 150).
Proof.
  apply (X13_whole_totals_are_reported_exactly 45
           (Sql.mkRow 1 "A" "one" None (Some (Dec.of_int 100))) 150).
  - split; [discriminate|reflexivity].
  - vm_compute. reflexivity.
Defined.

(** ** Dates and nights *)

Section Calendar.

Import Dates.

Lemma days_before_year_succ (y : Z) :
  days_before_year (y + 1) = days_before_year y + (if is_leap y then 366 else 365).
Proof.
  unfold days_before_year, is_leap. cbv zeta.
  replace (y + 1 - 1) with (y - 1 + 1) by lia.
  destruct (Z.eqb_spec (y mod 4) 0), (Z.eqb_spec (y mod 100) 0),
    (Z.eqb_spec (y mod 400) 0); cbn [andb orb negb];
    Z.div_mod_to_equations; lia.
Qed.

Lemma days_before_year_mono (y1 y2 : Z) :
  y1 <= y2 -> days_before_year y1 <= days_before_year y2.
Proof.
  intros H. replace y2 with (y1 + Z.of_nat (Z.to_nat (y2 - y1))) by lia.
  induction (Z.to_nat (y2 - y1)) as [|k IH]; [rewrite Z.add_0_r; lia|].
  rewrite Nat2Z.inj_succ. unfold Z.succ. rewrite Z.add_assoc.
  rewrite days_before_year_succ.
  destruct (is_leap (y1 + Z.of_nat k)); lia.
Qed.

(** The days before a month and the days of the month, month by month. *)
Lemma days_before_month_cases (y m : Z) :
  1 <= m <= 12 ->
  0 <= days_before_month y m
  /\ days_before_month y m + days_in_month y m <= (if is_leap y then 366 else 365)
  /\ (m < 12 ->
      days_before_month y (m + 1) = days_before_month y m + days_in_month y m).
Proof.
  intros Hm.
  assert (Hc : m = 1 \/ m = 2 \/ m = 3 \/ m = 4 \/ m = 5 \/ m = 6 \/ m = 7
               \/ m = 8 \/ m = 9 \/ m = 10 \/ m = 11 \/ m = 12) by lia.
  repeat (destruct Hc as [Hc|Hc]);
    subst m; unfold days_before_month;
    repeat match goal with
           | |- context [Z.to_nat ?k] =>
               let v := eval vm_compute in (Z.to_nat k) in
               change (Z.to_nat k) with v
           end;
    cbv -[is_leap Z.add Z.le Z.lt]; destruct (is_leap y); lia.
Qed.

Lemma days_in_month_pos (y m : Z) : 28 <= days_in_month y m.
Proof.
  unfold days_in_month.
  destruct (m =? 2); [destruct (is_leap y); lia|].
  destruct ((m =? 4) || (m =? 6) || (m =? 9) || (m =? 11)); lia.
Qed.

Lemma days_before_month_mono (y m1 m2 : Z) :
  1 <= m1 -> m1 < m2 -> m2 <= 12 ->
  days_before_month y m1 + days_in_month y m1 <= days_before_month y m2.
Proof.
  intros H1 H H2. replace m2 with (m1 + 1 + Z.of_nat (Z.to_nat (m2 - m1 - 1))) by lia.
  assert (Hk : m1 + 1 + Z.of_nat (Z.to_nat (m2 - m1 - 1)) <= 12) by lia.
  induction (Z.to_nat (m2 - m1 - 1)) as [|k IH].
  - rewrite Z.add_0_r.
    destruct (days_before_month_cases y m1 ltac:(lia)) as (_ & _ & Hs).
    rewrite Hs by lia. lia.
  - rewrite Nat2Z.inj_succ in *. unfold Z.succ in *. rewrite Z.add_assoc in *.
    destruct (days_before_month_cases y (m1 + 1 + Z.of_nat k) ltac:(lia))
      as (_ & _ & Hs).
    rewrite Hs by lia.
    pose proof (days_in_month_pos y (m1 + 1 + Z.of_nat k)).
    specialize (IH ltac:(lia)). lia.
Qed.

Lemma valid_date_inv (y m d : Z) :
  valid_date y m d = true ->
  1 <= y <= 9999 /\ 1 <= m <= 12 /\ 1 <= d <= days_in_month y m.
Proof.
  unfold valid_date. rewrite !andb_true_iff, !Z.leb_le. tauto.
Qed.

(** A date that [strptime] returns has passed the check of the [date]
    constructor. *)
Lemma strptime_valid (s : string) (d : date) :
  strptime s = Some d -> valid_date (year d) (month d) (day d) = true.
Proof.
  unfold strptime. destruct (match_format s) as [[[[y m] d'] [|c rest]]|];
    try discriminate.
  destruct (valid_date y m d') eqn:E; [|discriminate].
  intros H. inversion H. assumption.
Qed.

(** The ordinal is strictly increasing in the calendar order. *)
Lemma toordinal_lt (a b : date) :
  valid_date (year a) (month a) (day a) = true ->
  valid_date (year b) (month b) (day b) = true ->
  year a < year b
  \/ (year a = year b
      /\ (month a < month b \/ (month a = month b /\ day a < day b))) ->
  toordinal a < toordinal b.
Proof.
  intros Ha Hb Hlt. apply valid_date_inv in Ha as (Hya & Hma & Hda).
  apply valid_date_inv in Hb as (Hyb & Hmb & Hdb).
  unfold toordinal.
  destruct (days_before_month_cases (year a) (month a) Hma) as (Ha0 & Ha1 & _).
  destruct (days_before_month_cases (year b) (month b) Hmb) as (Hb0 & Hb1 & _).
  destruct Hlt as [Hy|(Hy & [Hm|(Hm & Hd)])].
  - pose proof (days_before_year_mono (year a + 1) (year b) ltac:(lia)) as Hmono.
    rewrite days_before_year_succ in Hmono. lia.
  - rewrite <- Hy in *.
    pose proof (days_before_month_mono (year a) (month a) (month b)
                  ltac:(lia) Hm ltac:(lia)).
    lia.
  - rewrite <- Hy, <- Hm. lia.
Qed.

End Calendar.

(** X14.  For a stay and a booking that both last at least one night, the
    overlap test of the query holds exactly when some night belongs to both,
    a stay or a booking from [a] to [b] taking the nights [a], ..., [b - 1]:
    the day of departure is free for the next arrival. *)
Theorem X14_overlap_is_a_shared_night
    (end_date start_date : Dates.date) (b : Sql.Booking) :
  Dates.toordinal start_date < Dates.toordinal end_date ->
  Dates.toordinal (Sql.b_start_date b) < Dates.toordinal (Sql.b_end_date b) ->
  (Sql.overlaps end_date start_date b = true
   <-> exists night : Z,
         Dates.toordinal start_date <= night < Dates.toordinal end_date
         /\ Dates.toordinal (Sql.b_start_date b) <= night
            < Dates.toordinal (Sql.b_end_date b)).
Proof.
  intros Hs Hb. unfold Sql.overlaps, Dates.date_ltb.
  rewrite andb_true_iff, !Z.ltb_lt. split.
  - intros [H1 H2].
    exists (Z.max (Dates.toordinal start_date)
              (Dates.toordinal (Sql.b_start_date b))).
    lia.
  - intros (night & H1 & H2). lia.
Qed.

(** The statement of X14 for the stay from 2025-10-15 to 2025-10-25 and the
    booking from 2025-10-10 to 2025-10-20. *)
Lemma X14_witness :
  Sql.overlaps (Dates.mkDate 2025 10 25) (Dates.mkDate 2025 10 15)
    (Sql.mkBooking 2 (Dates.mkDate 2025 10 10) (Dates.mkDate 2025 10 20)) = true
  <-> exists night : Z,
        Dates.toordinal (Dates.mkDate 2025 10 15) <= night
        < Dates.toordinal (Dates.mkDate 2025 10 25)
        /\ Dates.toordinal (Dates.mkDate 2025 10 10) <= night
           < Dates.toordinal (Dates.mkDate 2025 10 20).
Proof.
  apply (X14_overlap_is_a_shared_night (Dates.mkDate 2025 10 25)
           (Dates.mkDate 2025 10 15)
           (Sql.mkBooking 2 (Dates.mkDate 2025 10 10) (Dates.mkDate 2025 10 20))).
  - reflexivity.
  - reflexivity.
Defined.

(** X15.  For two dates that [strptime] returns, the number of nights
    [(end_date - start_date).days] is strictly positive exactly when the end
    date is later than the start date in the calendar (by year, then month,
    then day), and it is zero exactly when they are the same date. *)
Theorem X15_nights_follow_the_calendar
    (s e : string) (ds de : Dates.date) :
  Dates.strptime s = Some ds -> Dates.strptime e = Some de ->
  (0 < Dates.days_between ds de
   <-> Dates.year ds < Dates.year de
       \/ (Dates.year ds = Dates.year de
           /\ (Dates.month ds < Dates.month de
               \/ (Dates.month ds = Dates.month de
                   /\ Dates.day ds < Dates.day de))))
  /\ (Dates.days_between ds de = 0 <-> ds = de).
Proof.
  intros Hs He. apply strptime_valid in Hs, He.
  unfold Dates.days_between.
  assert (Hcases :
            (Dates.year ds < Dates.year de
             \/ (Dates.year ds = Dates.year de
                 /\ (Dates.month ds < Dates.month de
                     \/ (Dates.month ds = Dates.month de
                         /\ Dates.day ds < Dates.day de))))
            \/ ds = de
            \/ (Dates.year de < Dates.year ds
                \/ (Dates.year de = Dates.year ds
                    /\ (Dates.month de < Dates.month ds
                        \/ (Dates.month de = Dates.month ds
                            /\ Dates.day de < Dates.day ds))))).
  { destruct ds as [y1 m1 d1], de as [y2 m2 d2]. simpl.
    destruct (Z.lt_trichotomy y1 y2) as [|[->|]]; [lia| |lia].
    destruct (Z.lt_trichotomy m1 m2) as [|[->|]]; [lia| |lia].
    destruct (Z.lt_trichotomy d1 d2) as [|[->|]]; [lia| |lia].
    right. left. reflexivity. }
  destruct Hcases as [Hlt|[Heq|Hgt]].
  - pose proof (toordinal_lt ds de Hs He Hlt) as H.
    split; [split; [intros _; assumption|intros _; lia]|].
    split; [lia|]. intros ->. lia.
  - subst de. split.
    + split; [lia|]. intros H. lia.
    + split; [reflexivity|]. intros _. lia.
  - pose proof (toordinal_lt de ds He Hs Hgt) as H.
    split; [split; [lia|intros H'; lia]|].
    split; [lia|]. intros ->. lia.
Qed.

(** The statement of X15 for the dates 2025-10-20 and 2025-11-30. *)
Lemma X15_witness :
  (0 < Dates.days_between (Dates.mkDate 2025 10 20) (Dates.mkDate 2025 11 30)
   <-> Dates.year (Dates.mkDate 2025 10 20) < Dates.year (Dates.mkDate 2025 11 30)
       \/ (Dates.year (Dates.mkDate 2025 10 20) = Dates.year (Dates.mkDate 2025 11 30)
           /\ (Dates.month (Dates.mkDate 2025 10 20)
               < Dates.month (Dates.mkDate 2025 11 30)
               \/ (Dates.month (Dates.mkDate 2025 10 20)
                   = Dates.month (Dates.mkDate 2025 11 30)
                   /\ Dates.day (Dates.mkDate 2025 10 20)
                      < Dates.day (Dates.mkDate 2025 11 30)))))
  /\ (Dates.days_between (Dates.mkDate 2025 10 20) (Dates.mkDate 2025 11 30) = 0
      <-> Dates.mkDate 2025 10 20 = Dates.mkDate 2025 11 30).
Proof.
  apply (X15_nights_follow_the_calendar "2025-10-20" "2025-11-30").
  - reflexivity.
  - reflexivity.
Defined.

(** ** Responses *)

(** X16.  No exception leaves the handler: whatever the request, the content
    of the data store and the call at which the driver raises, the handler
    returns a response. *)
Theorem X16_no_exception_escapes (env : Api.Env) (request : Api.Request) :
  exists response : Api.Response, fst (Api.run env request) = inr response.
Proof.
  destruct (run_cases env request)
    as [[_ H]|(s & e & nb & -> & Hs & He & Hnb
               & [[_ H]|(ds & de & Hds & Hde & [[_ H]|Hn])])];
    try (rewrite H; eexists; reflexivity).
  rewrite (run_search env s e nb ds de) by assumption. cbv zeta.
  destruct (Api.raises_at env) as [[| | | | |]|];
    try (eexists; reflexivity).
  destruct (Api.price_rows _ _ _); eexists; reflexivity.
Qed.

(** X17.  The data store is contacted exactly for a request whose three
    parameters are present and truthy, whose dates are accepted by
    [strptime] and whose stay has four nights or more; the first call is then
    [connect]. *)
Theorem X17_data_store_contacted_iff (env : Api.Env) (request : Api.Request) :
  (Api.calls (snd (Api.run env request)) <> []
   <-> exists s e nb ds de,
         request = Api.mkRequest (Some s) (Some e) (Some nb)
         /\ nb <> 0
         /\ Dates.strptime s = Some ds /\ Dates.strptime e = Some de
         /\ 4 <= Dates.days_between ds de)
  /\ (Api.calls (snd (Api.run env request)) = []
      \/ hd_error (Api.calls (snd (Api.run env request))) = Some Api.Connect).
Proof.
  destruct (run_cases env request)
    as [[Hf H]|(s & e & nb & -> & Hs & He & Hnb
                & [[Hbad H]|(ds & de & Hds & Hde & [[Hlt H]|Hn])])].
  - rewrite H. simpl. split; [|left; reflexivity]. split; [congruence|].
    intros (s & e & nb & ds & de & -> & Hnb & Hs & He & _).
    exfalso.
    cbn [Api.arg_start_date Api.arg_end_date Api.arg_num_bedrooms] in Hf.
    pose proof (strptime_nonempty _ _ Hs) as Hs'.
    pose proof (strptime_nonempty _ _ He) as He'.
    rewrite Hs', He' in Hf. simpl in Hf. apply Z.eqb_eq in Hf. contradiction.
  - rewrite H. simpl. split; [|left; reflexivity]. split; [congruence|].
    intros (s' & e' & nb' & ds & de & Heq & _ & Hs' & He' & _).
    inversion Heq; subst. destruct Hbad; congruence.
  - rewrite H. simpl. split; [|left; reflexivity]. split; [congruence|].
    intros (s' & e' & nb' & ds' & de' & Heq & _ & Hs' & He' & Hn).
    inversion Heq; subst. rewrite Hds in Hs'. rewrite Hde in He'.
    inversion Hs'; inversion He'; subst. lia.
  - rewrite (run_search env s e nb ds de) by assumption. cbv zeta.
    assert (Hex : exists s0 e0 nb0 ds0 de0,
               Api.mkRequest (Some s) (Some e) (Some nb)
               = Api.mkRequest (Some s0) (Some e0) (Some nb0)
               /\ nb0 <> 0
               /\ Dates.strptime s0 = Some ds0 /\ Dates.strptime e0 = Some de0
               /\ 4 <= Dates.days_between ds0 de0).
    { exists s, e, nb, ds, de. auto. }
    destruct (Api.raises_at env) as [[| | | | |]|]; simpl;
      (split; [split; [intros _; exact Hex|discriminate]|right; reflexivity]).
Qed.

(** ** The monthly path, pro rata *)

(** X18.  For a stay of 30 nights or more on a row with a monthly rate, the
    split into whole months and remaining days is a pro rata of the monthly
    rate: the total is [nights * monthly_rate / 30] up to a relative error of
    [2 * 10^-27], whatever the nightly price of the row. *)
Theorem X18_monthly_total_is_pro_rata
    (nights : Z) (price_per_night : option Dec.Decimal) (m : Dec.Decimal) :
  30 <= nights ->
  Spec.close Spec.total_roundoff
    (Dec.to_Q (Dec.value (Api.compute_total nights price_per_night (Some m))))
    (inject_Z nights * Dec.to_Q m / inject_Z 30)%Q.
Proof.
  intros Hn.
  assert (Heq : (Spec.total nights price_per_night (Some m)
                 == inject_Z nights * Dec.to_Q m / inject_Z 30)%Q).
  { unfold Spec.total.
    replace (30 <=? nights) with true by (symmetry; apply Z.leb_le; assumption).
    rewrite (Z.div_mod nights 30) at 3 by lia.
    rewrite inject_Z_plus, inject_Z_mult. field; discriminate. }
  pose proof (compute_total_close nights price_per_night (Some m)) as Hc.
  unfold Spec.close in *. rewrite <- Heq. exact Hc.
Qed.

(** The statement of X18 for 41 nights at a monthly rate of 900000. *)
Lemma X18_witness :
  Spec.close Spec.total_roundoff
    (Dec.to_Q (Dec.value (Api.compute_total 41 None (Some (Dec.of_int 900000)))))
    (inject_Z 41 * Dec.to_Q (Dec.of_int 900000) / inject_Z 30)%Q.
Proof.
  apply (X18_monthly_total_is_pro_rata 41 None (Dec.of_int 900000)).
  discriminate.
Defined.
